(** * Smart Librarian: the corpus store, the search index, the content
      filter and the chat pipeline, embedded from the Python sources

    - [src/backend/database/book_summaries.py]  (module [BookSummaries])
    - [src/backend/database/vector_store.py]    (module [VectorStore])
    - [src/backend/services/filter_service.py]  (module [FilterService])
    - [src/backend/services/chat_service.py]    (module [ChatService])

    Python [str] values are sequences of Unicode code points: a character is
    a code point in [N], a string a list of them.  Code that can raise is
    written in a state-and-exception monad; the external services (moderation,
    embeddings, vector index, chat completion, [random], [json.loads]) are
    oracles whose answers may depend on every call made before. *)

From Corelib Require Import PrimFloat.
From Stdlib Require Import List NArith ZArith Arith Bool Lia Ascii.
From Stdlib Require String DecimalString.
Import ListNotations.
Import String.StringSyntax.
Delimit Scope string_scope with string.

Set Warnings "-register-all".

(* ================================================================== *)
(** * Python strings *)
(* ================================================================== *)

Module PyStr.

Definition char := N.
Definition str := list char.

(** An ASCII literal of the source, as a [str]. *)
Definition lit (s : String.string) : str :=
  map N_of_ascii (String.list_ascii_of_string s).
Arguments lit s%_string.

Definition nl : char := 10%N.

Definition str_eqb (a b : str) : bool :=
  if list_eq_dec N.eq_dec a b then true else false.

(** [s.startswith(p)] *)
Fixpoint startswith (p s : str) : bool :=
  match p, s with
  | [], _ => true
  | _ :: _, [] => false
  | a :: p', b :: s' => N.eqb a b && startswith p' s'
  end.

(** [s.find(sub)]: index of the leftmost occurrence, [None] for Python's -1. *)
Fixpoint find (sub s : str) : option nat :=
  match s with
  | [] => if startswith sub [] then Some 0 else None
  | _ :: s' =>
      if startswith sub s then Some 0 else option_map S (find sub s')
  end.

(** [sub in s] *)
Definition contains (sub s : str) : bool :=
  match find sub s with Some _ => true | None => false end.

(** [s.split(sep)] for a non-empty [sep]: cut at the leftmost occurrence and
    go on after it.  Every cut consumes at least one character, so
    [length s] rounds are enough. *)
Fixpoint split_fuel (fuel : nat) (sep s : str) : list str :=
  match fuel with
  | O => [s]
  | S fuel' =>
      match find sep s with
      | None => [s]
      | Some i => firstn i s :: split_fuel fuel' sep (skipn (i + length sep) s)
      end
  end.

Definition split (sep s : str) : list str := split_fuel (length s) sep s.

(** [sep.join(parts)] *)
Fixpoint join (sep : str) (parts : list str) : str :=
  match parts with
  | [] => []
  | [p] => p
  | p :: ps => p ++ sep ++ join sep ps
  end.

(** [c.isspace()] for one code point: CPython's [_PyUnicode_IsWhitespace]. *)
Definition isspace (c : char) : bool :=
  (((9 <=? c) && (c <=? 13)) || ((28 <=? c) && (c <=? 32))
   || (c =? 133) || (c =? 160) || (c =? 5760)
   || ((8192 <=? c) && (c <=? 8202))
   || (c =? 8232) || (c =? 8233) || (c =? 8239) || (c =? 8287)
   || (c =? 12288))%N.

Fixpoint lstrip (s : str) : str :=
  match s with
  | [] => []
  | c :: s' => if isspace c then lstrip s' else s
  end.

Definition rstrip (s : str) : str := rev (lstrip (rev s)).

(** [s.strip()] *)
Definition strip (s : str) : str := rstrip (lstrip s).

(** [str(n)] for an [int]. *)
Definition str_of_Z (z : Z) : str :=
  lit (DecimalString.NilZero.string_of_int (Z.to_int z)).

(** A separator no proper suffix of which is also a prefix of it: two
    occurrences of it never overlap. *)
Definition borderless (sep : str) : Prop :=
  forall p q u, sep = p ++ q -> sep = q ++ u -> p <> [] -> q <> [] -> False.

Definition borderlessb (sep : str) : bool :=
  forallb (fun k => negb (str_eqb (firstn k sep) (skipn (length sep - k) sep)))
          (seq 1 (length sep - 1)).

Definition occurs (sub s : str) : Prop := exists l r, s = l ++ sub ++ r.

End PyStr.
Import PyStr.

(* ================================================================== *)
(** * Exceptions and state *)
(* ================================================================== *)

(** What a Python call gives back: a value, or an exception, kept as the text
    [str(e)] that the handlers of the sources print or return. *)
Inductive result (A : Type) : Type :=
| Ok (a : A)
| Raise (detail : str).
Arguments Ok {A} a.
Arguments Raise {A} detail.

(** A computation over a mutable state [S] that may raise.  The state reached
    when the exception is raised is kept, as in Python. *)
Definition M (S A : Type) : Type := S -> result A * S.

Definition ret {S A} (a : A) : M S A := fun s => (Ok a, s).

Definition raise {S A} (detail : str) : M S A := fun s => (Raise detail, s).

Definition bind {S A B} (m : M S A) (k : A -> M S B) : M S B :=
  fun s => match m s with
           | (Ok a, s') => k a s'
           | (Raise e, s') => (Raise e, s')
           end.

(** [try: m  except Exception as e: h e] *)
Definition try_except {S A} (m : M S A) (h : str -> M S A) : M S A :=
  fun s => match m s with
           | (Ok a, s') => (Ok a, s')
           | (Raise e, s') => h e s'
           end.

Definition get {S} : M S S := fun s => (Ok s, s).
Definition put {S} (s : S) : M S unit := fun _ => (Ok tt, s).
Definition lift_result {S A} (r : result A) : M S A := fun s => (r, s).

Declare Scope py_scope.
Delimit Scope py_scope with py.
Notation "x <- m ;; k" := (bind m (fun x => k))
  (at level 61, m at next level, right associativity) : py_scope.
Notation "' pat <- m ;; k" := (bind m (fun x => match x with pat => k end))
  (at level 61, pat pattern, m at next level, right associativity) : py_scope.
Notation "m ;; k" := (bind m (fun _ => k))
  (at level 61, right associativity) : py_scope.
Open Scope py_scope.

(* ================================================================== *)
(** * [backend/database/book_summaries.py] *)
(* ================================================================== *)

Module BookSummaries.

(** A Python [dict] from [str] to [str]: keys in insertion order, a key
    written again keeps its place and takes the new value. *)
Definition dict := list (str * str).

Fixpoint dict_set (k v : str) (d : dict) : dict :=
  match d with
  | [] => [(k, v)]
  | (k', v') :: d' =>
      if str_eqb k' k then (k', v) :: d' else (k', v') :: dict_set k v d'
  end.

Fixpoint dict_get (k : str) (d : dict) : option str :=
  match d with
  | [] => None
  | (k', v') :: d' => if str_eqb k' k then Some v' else dict_get k d'
  end.

Definition dict_keys (d : dict) : list str := map fst d.

(** The file [data/book_summaries.txt] as the program sees it: missing,
    present but failing [open]/[read] with some error text, or present with
    the text that [read] returns for it. *)
Inductive file : Type :=
| Absent
| Unreadable (detail : str)
| Text (content : str).

Definition file_exists (f : file) : bool :=
  match f with Absent => false | _ => true end.

(** [open(f, 'r').read()] *)
Definition file_read (f : file) : result str :=
  match f with
  | Absent => Raise (lit "[Errno 2] No such file or directory")
  | Unreadable detail => Raise detail
  | Text content => Ok content
  end.

Definition cr : char := 13%N.

(** Text mode, as [open] gives it with [encoding='utf-8'] and no [newline]
    argument.  Reading gives every "\r\n" and every other "\r" as "\n".
    [after_cr] says that a carriage return stands just before [text]; it has
    been given as "\n" already, and a line feed that follows it is part of
    the same line end. *)
Fixpoint read_newlines (after_cr : bool) (text : str) : str :=
  match text with
  | [] => []
  | c :: rest =>
      if N.eqb c cr then nl :: read_newlines true rest
      else if N.eqb c nl && after_cr then read_newlines false rest
      else c :: read_newlines false rest
  end.

(** Whether a carriage return stands at the end of what has been read. *)
Fixpoint cr_pending (after_cr : bool) (text : str) : bool :=
  match text with
  | [] => after_cr
  | c :: rest => cr_pending (N.eqb c cr) rest
  end.

(** Writing puts [os.linesep] for every "\n": [text.replace('\n', linesep)]. *)
Definition write_newlines (linesep text : str) : str :=
  flat_map (fun c => if N.eqb c nl then linesep else [c]) text.

(** UTF-8 encodes every code point but the surrogates U+D800 to U+DFFF. *)
Definition is_surrogate (c : char) : bool :=
  ((55296 <=? c) && (c <=? 57343))%N.

Definition utf8_encodable (text : str) : bool :=
  forallb (fun c => negb (is_surrogate c)) text.

(** The surrogates [text] starts with. *)
Fixpoint surrogate_run (text : str) : list char :=
  match text with
  | [] => []
  | c :: rest => if is_surrogate c then c :: surrogate_run rest else []
  end.

Definition hex_digit (d : N) : char :=
  if (d <? 10)%N then (48 + d)%N else (87 + d)%N.

(** ['%04x' % c] for a code point below 65536. *)
Definition hex4 (c : char) : str :=
  [hex_digit (c / 4096); hex_digit ((c / 256) mod 16);
   hex_digit ((c / 16) mod 16); hex_digit (c mod 16)]%N.

(** [str(e)] of the [UnicodeEncodeError] that encoding [text] raises, where
    [pos] characters have been passed already: the error names the first
    surrogate, or the first run of them. *)
Fixpoint encode_error_from (pos : nat) (text : str) : str :=
  match text with
  | [] => []
  | c :: rest =>
      if is_surrogate c then
        match surrogate_run rest with
        | [] =>
            lit "'utf-8' codec can't encode character '\u" ++ hex4 c
            ++ lit "' in position " ++ str_of_Z (Z.of_nat pos)
            ++ lit ": surrogates not allowed"
        | (_ :: _) as run =>
            lit "'utf-8' codec can't encode characters in position "
            ++ str_of_Z (Z.of_nat pos) ++ lit "-"
            ++ str_of_Z (Z.of_nat (pos + length run))
            ++ lit ": surrogates not allowed"
        end
      else encode_error_from (S pos) rest
  end.

Definition encode_error (text : str) : str := encode_error_from 0 text.

(** What appending to the file depends on and the text that [read] returns
    does not tell: the platform's [os.linesep]; whether
    [open(path, 'a', encoding='utf-8')] succeeds, and the text of the
    [OSError] when it does not (no directory [data], no permission); whether
    the bytes of the file end in a carriage return, which [read] gives as
    "\n"; and the error that reading a file that cannot be read gives once
    text has been appended to it. *)
Record disk : Type := {
  linesep : str;
  open_append : file -> result unit;
  ends_in_cr : file -> bool;
  reread_error : str -> str -> str
}.

(** What [read] gives for [text] once it is written behind the file [f]. *)
Definition read_appended (D : disk) (f : file) (text : str) : str :=
  read_newlines match f with
                | Text _ => ends_in_cr D f
                | _ => false
                end
                (write_newlines (linesep D) text).

(** [with open(f, 'a', encoding='utf-8') as out: out.write(text)]: the
    result, and the file as [read] gives it afterwards.  [open] creates a
    missing file; [write] encodes the text before any of it reaches the
    file, so that text which cannot be encoded leaves the file as [open]
    left it. *)
Definition file_append (D : disk) (f : file) (text : str)
  : result unit * file :=
  match open_append D f with
  | Raise detail => (Raise detail, f)
  | Ok _ =>
      let written := write_newlines (linesep D) text in
      if utf8_encodable written then
        (Ok tt,
         match f with
         | Absent => Text (read_appended D f text)
         | Unreadable detail => Unreadable (reread_error D detail written)
         | Text content => Text (content ++ read_appended D f text)
         end)
      else
        (Raise (encode_error written),
         match f with
         | Absent => Text []
         | _ => f
         end)
  end.

(** The module's globals [_books_cache] and [_cache_loaded], and the file the
    module reads and appends to. *)
Record store : Type := {
  books_cache : dict;
  cache_loaded : bool;
  books_file : file
}.

Definition set_cache (d : dict) (st : store) : store :=
  {| books_cache := d; cache_loaded := cache_loaded st;
     books_file := books_file st |}.
Definition set_loaded (b : bool) (st : store) : store :=
  {| books_cache := books_cache st; cache_loaded := b;
     books_file := books_file st |}.
Definition set_file (f : file) (st : store) : store :=
  {| books_cache := books_cache st; cache_loaded := cache_loaded st;
     books_file := f |}.

Definition initial_store (f : file) : store :=
  {| books_cache := []; cache_loaded := false; books_file := f |}.

Definition title_token : str := lit "## Title:".

(** One section of the corpus: [lines = book.strip().split('\n')],
    [title = lines[0].strip()], [summary = '\n'.join(lines[1:]).strip()]. *)
Definition book_lines (book : str) : list str := split [nl] (strip book).
Definition book_title (book : str) : str :=
  match book_lines book with
  | [] => []
  | l0 :: _ => strip l0
  end.
Definition book_summary (book : str) : str :=
  strip (join [nl] (skipn 1 (book_lines book))).

(** The body of the parsing loop: [if lines: _books_cache[title] = summary]. *)
Definition add_book (cache : dict) (book : str) : dict :=
  match book_lines book with
  | [] => cache
  | _ :: _ => dict_set (book_title book) (book_summary book) cache
  end.

(** [content.split('## Title:')[1:]] *)
Definition sections (content : str) : list str :=
  skipn 1 (split title_token content).

(** The parsing loop over the sections of [content], filling [cache]. *)
Definition parse (content : str) (cache : dict) : dict :=
  fold_left add_book (sections content) cache.

(** The store after the first access to a readable corpus. *)
Definition loaded (content : str) : store :=
  set_loaded true (set_cache (parse content []) (initial_store (Text content))).

(** A corpus text written as a preamble and sections, each behind the
    header token. *)
Definition corpus_text (preamble : str) (books : list str) : str :=
  preamble ++ concat (map (fun book => title_token ++ book) books).

(** The [try] block of [_load_books_from_file]. *)
Definition load_try : M store unit :=
  st <- get ;;
  if negb (file_exists (books_file st)) then
    put (set_loaded true st)
  else
    content <- lift_result (file_read (books_file st)) ;;
    put (set_loaded true (set_cache (parse content (books_cache st)) st)).

Definition _load_books_from_file : M store dict :=
  st <- get ;;
  if cache_loaded st then ret (books_cache st)
  else
    try_except load_try
               (fun _ => st' <- get ;; put (set_loaded true st')) ;;
    st' <- get ;;
    ret (books_cache st').

Definition not_found_message (shown : str) (books : dict) : str :=
  let available_titles := firstn 5 (dict_keys books) in
  let suggestion_text :=
    match available_titles with
    | [] => []
    | _ :: _ =>
        lit " Available books include: "
        ++ join (lit ", ") available_titles ++ lit "..."
    end in
  lit "Sorry, I don't have a detailed summary for '" ++ shown
  ++ lit "'. Please check the title spelling or ask for a different book."
  ++ suggestion_text.

Definition get_summary_by_title (title : str) : M store str :=
  books <- _load_books_from_file ;;
  match dict_get title books with
  | Some summary => ret summary
  | None => ret (not_found_message title books)
  end.

Definition get_all_book_titles : M store (list str) :=
  books <- _load_books_from_file ;;
  ret (dict_keys books).

Definition reload_books_cache : M store unit :=
  st <- get ;;
  put (set_cache [] (set_loaded false st)) ;;
  _load_books_from_file ;;
  ret tt.

Definition get_books_count : M store nat :=
  books <- _load_books_from_file ;;
  ret (length books).

Definition themes_marker : str := lit "Main themes:".
Definition themes_placeholder : str := nl :: lit "Main themes: [Add themes here]".

(** The summary as [add_book_to_file] writes it. *)
Definition with_themes (summary : str) : str :=
  if contains themes_marker summary then summary
  else summary ++ themes_placeholder.

(** What [read] gives for the file, nothing when it is missing. *)
Definition file_text (f : file) : str :=
  match f with Text content => content | _ => [] end.

(** The text [f"\n## Title: {title}\n{summary}\n"]. *)
Definition book_record (title summary : str) : str :=
  nl :: lit "## Title: " ++ title ++ [nl] ++ summary ++ [nl].

(** The [with] block of [add_book_to_file], on the file of the store. *)
Definition append_to_books_file (D : disk) (text : str) : M store unit :=
  fun st =>
    let (r, f) := file_append D (books_file st) text in (r, set_file f st).

Definition add_book_to_file (D : disk) (title summary : str) : M store unit :=
  let summary := with_themes summary in
  append_to_books_file D (book_record title summary) ;;
  reload_books_cache.

(** One element of what [load_book_summaries_for_vectorization] returns. *)
Record book_entry : Type := {
  entry_title : str;
  entry_summary : str;
  entry_content : str
}.

Definition vector_entry (book : str) : book_entry :=
  {| entry_title := book_title book;
     entry_summary := book_summary book;
     entry_content :=
       lit "Title: " ++ book_title book ++ [nl] ++ book_summary book |}.

(** [load_book_summaries_for_vectorization], given the file found at the
    resolved path: every failure is printed and the list read so far (none)
    is returned. *)
Definition load_book_summaries_for_vectorization (f : file) : list book_entry :=
  if negb (file_exists f) then []
  else match file_read f with
       | Raise _ => []
       | Ok content =>
           flat_map (fun book => match book_lines book with
                                 | [] => []
                                 | _ :: _ => [vector_entry book]
                                 end)
                    (sections content)
       end.

End BookSummaries.

(* ================================================================== *)
(** * The external services and the process state *)
(* ================================================================== *)

Module Services.

Definition float := PrimFloat.float.

(** A value as [json.loads] returns it.  A [float] is kept as the text
    [str] gives for it. *)
Inductive pyval : Type :=
| PNone
| PBool (b : bool)
| PInt (z : Z)
| PFloat (shown : str)
| PStr (s : str)
| PList (items : list pyval)
| PDict (items : list (str * pyval)).

(** [type(v).__name__] *)
Definition type_name (v : pyval) : str :=
  match v with
  | PNone => lit "NoneType"
  | PBool _ => lit "bool"
  | PInt _ => lit "int"
  | PFloat _ => lit "float"
  | PStr _ => lit "str"
  | PList _ => lit "list"
  | PDict _ => lit "dict"
  end.

(** A tool invocation issued by the model. *)
Record tool_call : Type := {
  tc_id : str;
  tc_name : str;
  tc_arguments : str
}.

(** One element of the [messages] list sent to the chat-completion API. *)
Inductive message : Type :=
| Turn (role content : str)
| AssistantToolCalls (content : option str) (tool_calls : list tool_call)
| ToolResult (tool_call_id content : str).

(** [response.choices[i].message] *)
Record ai_message : Type := {
  am_content : option str;
  am_tool_calls : list tool_call
}.

(** A document of the Chroma collection. *)
Record document : Type := {
  doc_id : str;
  doc_embedding : list float;
  doc_title : str;
  doc_summary : str;
  doc_text : str
}.

(** One row of [collection.query(...)], first query. *)
Record query_row : Type := {
  row_title : str;
  row_summary : str;
  row_document : str;
  row_distance : float
}.

(** The calls that leave the process. *)
Inductive event : Type :=
| EvModeration (input : str)
| EvEmbedding (input : str)
| EvQuery (query_embedding : list float) (n_results : nat)
| EvChat (messages : list message) (with_tools : bool)
| EvRandom (n : nat).

(** The services behind those calls.  Each answer may depend on the calls
    made so far; an answer is a value or an exception. *)
Record backend : Type := {
  moderations_create : list event -> str -> result (list bool);
  embeddings_create : list event -> str -> result (list (list float));
  collection_query :
    list event -> list document -> list float -> nat -> result (list query_row);
  chat_completions_create :
    list event -> list message -> bool -> result (list ai_message);
  random_below : list event -> nat -> nat;
  json_loads : str -> result pyval;
  format_2f : float -> str
}.

Record world : Type := {
  corpus : BookSummaries.store;
  collection : list document;
  calls : list event
}.

Definition set_corpus (st : BookSummaries.store) (w : world) : world :=
  {| corpus := st; collection := collection w; calls := calls w |}.
Definition set_collection (c : list document) (w : world) : world :=
  {| corpus := corpus w; collection := c; calls := calls w |}.
Definition log_call (ev : event) (w : world) : world :=
  {| corpus := corpus w; collection := collection w;
     calls := calls w ++ [ev] |}.

(** One external call: the service answers on the history before the call,
    and the call is logged whether it succeeds or raises. *)
Definition call {A} (ev : event) (answer : list event -> result A)
  : M world A :=
  fun w => (answer (calls w), log_call ev w).

(** Run a computation of [book_summaries.py] on the corpus part. *)
Definition on_corpus {A} (m : M BookSummaries.store A) : M world A :=
  fun w => let (r, st) := m (corpus w) in (r, set_corpus st w).

(** [xs[0]] *)
Definition first_item {S A} (xs : list A) : M S A :=
  match xs with
  | [] => raise (lit "list index out of range")
  | x :: _ => ret x
  end.

Definition is_search_call (ev : event) : bool :=
  match ev with EvEmbedding _ | EvQuery _ _ => true | _ => false end.
Definition is_chat_call (ev : event) : bool :=
  match ev with EvChat _ _ => true | _ => false end.
Definition is_embedding_call (ev : event) : bool :=
  match ev with EvEmbedding _ => true | _ => false end.

End Services.
Import Services.

(* ================================================================== *)
(** * [backend/database/vector_store.py] *)
(* ================================================================== *)

Module VectorStore.

Section WithBackend.
Variable B : backend.

Definition _get_openai_embedding (text : str) : M world (list float) :=
  try_except
    (data <- call (EvEmbedding text) (fun h => embeddings_create B h text) ;;
     first_item data)
    (fun e => raise e).

(** The [for i, summary in enumerate(summaries)] loop: one embedding per
    entry, in order; the first failure leaves the loop. *)
Fixpoint embed_entries (i : nat) (summaries : list BookSummaries.book_entry)
  : M world (list document) :=
  match summaries with
  | [] => ret []
  | summary :: rest =>
      embedding <- _get_openai_embedding (BookSummaries.entry_content summary) ;;
      docs <- embed_entries (S i) rest ;;
      ret ({| doc_id := lit "book_" ++ str_of_Z (Z.of_nat i);
              doc_embedding := embedding;
              doc_title := BookSummaries.entry_title summary;
              doc_summary := BookSummaries.entry_summary summary;
              doc_text := BookSummaries.entry_content summary |} :: docs)
  end.

(** [collection.add(...)] *)
Definition collection_add (docs : list document) : M world unit :=
  w <- get ;; put (set_collection (collection w ++ docs) w).

(** [populate_database], given the file found at [summaries_file_path]. *)
Definition populate_database (summaries_file : BookSummaries.file)
  : M world unit :=
  try_except
    (w <- get ;;
     if 0 <? length (collection w) then ret tt
     else
       let summaries :=
         BookSummaries.load_book_summaries_for_vectorization summaries_file in
       match summaries with
       | [] => ret tt
       | _ :: _ =>
           docs <- embed_entries 0 summaries ;;
           collection_add docs
       end)
    (fun e => raise e).

(** One formatted result of [search_books]. *)
Record hit : Type := {
  title : str;
  summary : str;
  document_text : str;
  similarity_score : float
}.

Definition hit_of_row (row : query_row) : hit :=
  {| title := row_title row;
     summary := row_summary row;
     document_text := row_document row;
     similarity_score := PrimFloat.sub 1%float (row_distance row) |}.

Definition search_books (query : str) (n_results : nat)
  : M world (list hit) :=
  try_except
    (query_embedding <- _get_openai_embedding query ;;
     w <- get ;;
     rows <- call (EvQuery query_embedding n_results)
                  (fun h => collection_query B h (collection w)
                                             query_embedding n_results) ;;
     ret (map hit_of_row rows))
    (fun _ => ret []).

Definition reset_database : M world unit :=
  w <- get ;; put (set_collection [] w).

End WithBackend.

End VectorStore.

(* ================================================================== *)
(** * [backend/services/filter_service.py] *)
(* ================================================================== *)

Module FilterService.

Definition polite_responses : list str :=
  [ lit "I'm here to help you find great books! Please keep our conversation friendly and respectful. What kind of book are you looking for?";
    lit "Let's keep our chat positive! I'd love to recommend some amazing books. What genres or themes interest you?";
    lit "I'm designed to help with book recommendations in a friendly environment. What type of story are you in the mood for?";
    lit "I prefer to keep our conversation respectful. How about we talk about books instead? What's your favorite genre?";
    lit "Let's focus on finding you some great reading material! What kind of books do you usually enjoy?" ].

Section WithBackend.
Variable B : backend.

Definition contains_inappropriate_content (text : str) : M world bool :=
  try_except
    (results <- call (EvModeration text) (fun h => moderations_create B h text) ;;
     moderation_result <- first_item results ;;
     ret moderation_result)
    (fun _ => ret false).

(** [random.choice(seq)]: the element at a drawn index below [len(seq)]. *)
Definition random_choice (seq : list str) : M world str :=
  r <- call (EvRandom (length seq))
            (fun h => Ok (random_below B h (length seq))) ;;
  ret (nth (r mod length seq) seq []).

Definition get_polite_response : M world str :=
  random_choice polite_responses.

Definition filter_message (message : str) : M world (bool * str) :=
  flagged <- contains_inappropriate_content message ;;
  if flagged then
    response <- get_polite_response ;;
    ret (false, response)
  else ret (true, []).

End WithBackend.

End FilterService.

(* ================================================================== *)
(** * [backend/services/chat_service.py] *)
(* ================================================================== *)

Module ChatService.

Definition system_prompt : str :=
  join [nl]
    [ [];
      lit "        You are a smart AI librarian assistant that helps users find books based on their interests. ";
      [];
      lit "        Your capabilities:";
      lit "        1. You have access to a database of book summaries through RAG (semantic search)";
      lit "        2. You can get detailed summaries of specific books using the get_summary_by_title function";
      lit "        3. You should be conversational, helpful, and enthusiastic about books";
      [];
      lit "        Instructions:";
      lit "        - When a user asks for book recommendations, search the database using the provided context";
      lit "        - Always recommend specific books from your database, not general suggestions";
      lit "        - After recommending a book, automatically call get_summary_by_title to provide detailed information";
      lit "        - Be conversational and ask follow-up questions to help users find their perfect book";
      lit "        - If a user asks about a specific book title, use get_summary_by_title to provide detailed information";
      lit "        - Keep responses engaging and personal, like a friendly librarian would";
      [];
      lit "        Available books in your database include classics like 1984, The Hobbit, Pride and Prejudice, ";
      lit "        Harry Potter, The Great Gatsby, and many more.";
      lit "        " ].

Definition tool_name : str := lit "get_summary_by_title".

(** One element of the response's [function_calls]. *)
Record function_call : Type := {
  fc_function : str;
  fc_arguments : pyval;
  fc_result : str
}.

(** The dictionary [chat] returns; [error] is absent on the success paths. *)
Record chat_response : Type := {
  success : bool;
  message : option str;
  filtered : bool;
  function_calls : list function_call;
  search_results : list (str * float);
  error : option str
}.

(** [str(v)] for the values that can be looked up in a [dict]. *)
Definition py_str (v : pyval) : str :=
  match v with
  | PNone => lit "None"
  | PBool true => lit "True"
  | PBool false => lit "False"
  | PInt z => str_of_Z z
  | PFloat shown => shown
  | PStr s => s
  | PList _ | PDict _ => []
  end.

(** [arguments.get("title", "")] *)
Definition arguments_get_title (arguments : pyval) : result pyval :=
  match arguments with
  | PDict items =>
      match List.find (fun kv => str_eqb (fst kv) (lit "title")) items with
      | Some (_, v) => Ok v
      | None => Ok (PStr [])
      end
  | _ =>
      Raise (lit "'" ++ type_name arguments
             ++ lit "' object has no attribute 'get'")
  end.

(** [get_summary_by_title(title)] for whatever value the decoded arguments
    hold under "title": a [str] is looked up; a list or a dict cannot be
    hashed, so [title in books] raises after the corpus was loaded; any other
    value is no key of the corpus. *)
Definition get_summary_by_title_value (title : pyval)
  : M BookSummaries.store str :=
  match title with
  | PStr t => BookSummaries.get_summary_by_title t
  | PList _ | PDict _ =>
      BookSummaries._load_books_from_file ;;
      raise (lit "unhashable type: '" ++ type_name title ++ lit "'")
  | _ =>
      books <- BookSummaries._load_books_from_file ;;
      ret (BookSummaries.not_found_message (py_str title) books)
  end.

Definition _execute_function_call (function_name : str) (arguments : pyval)
  : M BookSummaries.store str :=
  if str_eqb function_name tool_name then
    title <- lift_result (arguments_get_title arguments) ;;
    get_summary_by_title_value title
  else ret (lit "Unknown function: " ++ function_name).

(** [conversation_history[-6:]] *)
Definition last_six {A} (l : list A) : list A := skipn (length l - 6) l.

Definition user_message_with_context (user_message search_context : str) : str :=
  join [nl]
    [ [];
      lit "            User query: " ++ user_message;
      [];
      lit "            " ++ search_context;
      [];
      lit "            Based on the relevant books above, please provide a helpful response and recommendation.";
      lit "            " ].

Definition error_message (detail : str) : str :=
  lit "I apologize, but I encountered an error: " ++ detail
  ++ lit ". Please try again.".

Section WithBackend.
Variable B : backend.

Definition _search_books_for_context (query : str) (n_results : nat)
  : M world str :=
  search_results <- VectorStore.search_books B query n_results ;;
  match search_results with
  | [] => ret (lit "No relevant books found in the database.")
  | _ :: _ =>
      ret (fold_left
             (fun context result =>
                context
                ++ (lit "**" ++ VectorStore.title result ++ lit "**" ++ [nl])
                ++ (lit "Summary: " ++ VectorStore.summary result ++ [nl])
                ++ (lit "Relevance Score: "
                    ++ format_2f B (VectorStore.similarity_score result)
                    ++ [nl; nl]))
             search_results
             (lit "Relevant books from the database:" ++ [nl; nl]))
  end.

(** The list [messages] of the first completion call: the system prompt,
    the last six turns of the history when there is one, the user turn. *)
Definition build_messages
    (conversation_history : option (list Services.message))
    (user_message search_context : str) : list Services.message :=
  [Turn (lit "system") system_prompt]
  ++ match conversation_history with
     | Some ((_ :: _) as history) => last_six history
     | _ => []
     end
  ++ [Turn (lit "user")
           (user_message_with_context user_message search_context)].

(** The body of the loop [for tool_call in ai_message.tool_calls], up to the
    record it appends to [function_calls]: decode the arguments, run the
    function. *)
Definition run_tool_call (tool_call : Services.tool_call)
  : M world function_call :=
  let function_name := tc_name tool_call in
  function_args <- lift_result (json_loads B (tc_arguments tool_call)) ;;
  function_result <-
    on_corpus (_execute_function_call function_name function_args) ;;
  ret {| fc_function := function_name;
         fc_arguments := function_args;
         fc_result := function_result |}.

(** The loop: each call is recorded and answered by a tool message. *)
Fixpoint process_tool_calls (tool_calls : list tool_call)
    (messages : list Services.message) (function_calls : list function_call)
  : M world (list Services.message * list function_call) :=
  match tool_calls with
  | [] => ret (messages, function_calls)
  | tool_call :: rest =>
      record <- run_tool_call tool_call ;;
      process_tool_calls rest
        (messages ++ [ToolResult (tc_id tool_call) (fc_result record)])
        (function_calls ++ [record])
  end.

Definition chat_completion (messages : list Services.message)
    (with_tools : bool) : M world ai_message :=
  choices <- call (EvChat messages with_tools)
                  (fun h => chat_completions_create B h messages with_tools) ;;
  first_item choices.

(** The [try] block of [chat]. *)
Definition chat_try (user_message : str)
    (conversation_history : option (list Services.message))
  : M world chat_response :=
  '(is_appropriate, filter_response) <-
     FilterService.filter_message B user_message ;;
  if negb is_appropriate then
    ret {| success := true; message := Some filter_response;
           filtered := true; function_calls := []; search_results := [];
           error := None |}
  else
    search_context <- _search_books_for_context user_message 3 ;;
    search_results <- VectorStore.search_books B user_message 3 ;;
    let messages :=
      build_messages conversation_history user_message search_context in
    ai_message <- chat_completion messages true ;;
    '(final_message, function_calls) <-
       match am_tool_calls ai_message with
       | (_ :: _) as tool_calls =>
           let messages :=
             messages ++ [AssistantToolCalls (am_content ai_message) tool_calls] in
           '(messages, function_calls) <-
              process_tool_calls tool_calls messages [] ;;
           final_response <- chat_completion messages false ;;
           ret (am_content final_response, function_calls)
       | [] => ret (am_content ai_message, [])
       end ;;
    ret {| success := true; message := final_message; filtered := false;
           function_calls := function_calls;
           search_results :=
             map (fun r => (VectorStore.title r, VectorStore.similarity_score r))
                 search_results;
           error := None |}.

Definition chat (user_message : str)
    (conversation_history : option (list Services.message))
  : M world chat_response :=
  try_except
    (chat_try user_message conversation_history)
    (fun e =>
       ret {| success := false; message := Some (error_message e);
              filtered := false; function_calls := []; search_results := [];
              error := Some e |}).

Definition get_available_books : M world (list str) :=
  on_corpus BookSummaries.get_all_book_titles.

(** [initialize_database]: the path it passes resolves to the corpus file. *)
Definition initialize_database : M world unit :=
  w <- get ;;
  VectorStore.populate_database B (BookSummaries.books_file (corpus w)).

(** The tool calls [tool_calls], run in order from [w], record
    [records] and end in [w']: none of them raises. *)
Inductive tool_runs : list tool_call -> world -> list function_call -> world
                      -> Prop :=
| runs_nil (w : world) : tool_runs [] w [] w
| runs_cons (tool_call : Services.tool_call) (rest : list Services.tool_call)
    (w w1 w2 : world) (record : function_call) (records : list function_call) :
    run_tool_call tool_call w = (Ok record, w1) ->
    tool_runs rest w1 records w2 ->
    tool_runs (tool_call :: rest) w (record :: records) w2.

(** The tool messages that answer [tool_calls] with [records]. *)
Definition tool_messages (tool_calls : list tool_call)
    (records : list function_call) : list Services.message :=
  map (fun p => ToolResult (tc_id (fst p)) (fc_result (snd p)))
      (combine tool_calls records).

End WithBackend.

End ChatService.

(* ================================================================== *)
(** * The remaining operations of the stores and the HTTP endpoints *)
(* ================================================================== *)

(** Calls of [book_summaries.py] a process makes one after the other. *)
Module Sessions.
Import BookSummaries.

Inductive operation : Type :=
| Lookup (title : str)
| ListTitles
| Count
| Reload
| AddBook (title summary : str).

(** The store after one call, whatever the call returned or raised. *)
Definition perform (D : disk) (o : operation) (st : store) : store :=
  match o with
  | Lookup title => snd (get_summary_by_title title st)
  | ListTitles => snd (get_all_book_titles st)
  | Count => snd (get_books_count st)
  | Reload => snd (reload_books_cache st)
  | AddBook title summary => snd (add_book_to_file D title summary st)
  end.

Definition perform_all (D : disk) (ops : list operation) (st : store) : store :=
  fold_left (fun st o => perform D o st) ops st.

(** What parsing the file gives: nothing for a file that is missing or
    cannot be read. *)
Definition cache_of_file (f : file) : dict :=
  match f with
  | Text content => parse content []
  | _ => []
  end.

(** The cache is empty until loaded, and then holds what the file gives. *)
Definition coherent (st : store) : Prop :=
  books_cache st = if cache_loaded st then cache_of_file (books_file st) else [].

End Sessions.

(** [get_collection_info] of [vector_store.py], [get_database_info] and the
    pieces of the context text of [chat_service.py]. *)
Module Administration.
Import VectorStore.

Record collection_info : Type := {
  collection_name : str;
  document_count : nat;
  persist_directory : str
}.

(** The store is built by [BookVectorStore()]: the default directory. *)
Definition get_collection_info : M world collection_info :=
  w <- get ;;
  ret {| collection_name := lit "book_summaries";
         document_count := length (collection w);
         persist_directory := lit "./chroma_db" |}.

Definition get_database_info : M world collection_info := get_collection_info.

(** The three lines [_search_books_for_context] appends for one result. *)
Definition hit_block (B : backend) (result : hit) : str :=
  (lit "**" ++ title result ++ lit "**" ++ [nl])
  ++ (lit "Summary: " ++ summary result ++ [nl])
  ++ (lit "Relevance Score: " ++ format_2f B (similarity_score result)
      ++ [nl; nl]).

Definition context_header : str :=
  lit "Relevant books from the database:" ++ [nl; nl].

(** The document [populate_database] stores for the entry at position [i]. *)
Definition document_of (i : nat) (embedding : list float)
    (entry : BookSummaries.book_entry) : document :=
  {| doc_id := lit "book_" ++ str_of_Z (Z.of_nat i);
     doc_embedding := embedding;
     doc_title := BookSummaries.entry_title entry;
     doc_summary := BookSummaries.entry_summary entry;
     doc_text := BookSummaries.entry_content entry |}.

(** The documents built from entries and the embeddings returned for them,
    numbered from [i]. *)
Definition documents_from (i : nat) (embeddings : list (list float))
    (entries : list BookSummaries.book_entry) : list document :=
  map (fun p => document_of (fst p) (fst (snd p)) (snd (snd p)))
      (combine (seq i (length entries)) (combine embeddings entries)).

Definition embedding_calls (entries : list BookSummaries.book_entry) : list event :=
  map (fun entry => EvEmbedding (BookSummaries.entry_content entry)) entries.

(** The calls one request can add to the log after the moderation call:
    the random draw when the message is flagged; otherwise two searches,
    each an embedding call followed by a query unless the embedding failed,
    and one or two chat-completion calls. *)
Definition is_moderation_call (ev : event) : bool :=
  match ev with EvModeration _ => true | _ => false end.

Definition search_trace (query : str) (n : nat) (s : list event) : Prop :=
  s = [EvEmbedding query] \/ exists e, s = [EvEmbedding query; EvQuery e n].

Definition completion_trace (c : list event) : Prop :=
  exists m1, c = [EvChat m1 true]
             \/ exists m2, c = [EvChat m1 true; EvChat m2 false].

Definition chat_trace (verdict : bool) (user_message : str)
    (new : list event) : Prop :=
  if verdict then new = [EvRandom 5]
  else exists s1 s2 c,
         new = s1 ++ s2 ++ c
         /\ search_trace user_message 3 s1
         /\ search_trace user_message 3 s2
         /\ completion_trace c.

(** A "get_summary_by_title" call together with the object its arguments
    decode to and the string that object holds under "title". *)
Definition title_request : Type := tool_call * (list (str * pyval) * str).

Definition well_formed_request (B : backend) (request : title_request)
  : Prop :=
  let '(tc, (items, title)) := request in
  tc_name tc = ChatService.tool_name
  /\ json_loads B (tc_arguments tc) = Ok (PDict items)
  /\ exists key,
       List.find (fun kv => str_eqb (fst kv) (lit "title")) items
       = Some (key, PStr title).

(** What the corpus [books] answers for a title. *)
Definition answer (books : BookSummaries.dict) (title : str) : str :=
  match BookSummaries.dict_get title books with
  | Some summary => summary
  | None => BookSummaries.not_found_message title books
  end.

Definition record_of (books : BookSummaries.dict) (request : title_request)
  : ChatService.function_call :=
  {| ChatService.fc_function := ChatService.tool_name;
     ChatService.fc_arguments := PDict (fst (snd request));
     ChatService.fc_result := answer books (snd (snd request)) |}.

(** [conversation_history] as a list: [None] holds no turn. *)
Definition turns (conversation_history : option (list Services.message))
  : list Services.message :=
  match conversation_history with Some history => history | None => [] end.

End Administration.

(** [backend/api/main.py]: the endpoints, without the transport. *)
Module Api.
Import Administration.

(** What an endpoint answers: a body, or an [HTTPException]. *)
Inductive http (A : Type) : Type :=
| Http200 (body : A)
| HttpError (status : nat) (detail : str).
Arguments Http200 {A} body.
Arguments HttpError {A} status detail.

Definition endpoint (A : Type) : Type := world -> http A * world.

(** [try: body  except Exception as e: raise HTTPException(500, prefix + str(e))] *)
Definition guarded {A} (prefix : str) (body : M world A) : endpoint A :=
  fun w => match body w with
           | (Ok a, w') => (Http200 a, w')
           | (Raise e, w') => (HttpError 500 (prefix ++ e), w')
           end.

(** [startup_event]: a failure is printed as a warning. *)
Definition startup_event (B : backend) : M world unit :=
  try_except
    (ChatService.initialize_database B ;;
     get_database_info ;;
     ret tt)
    (fun _ => ret tt).

Definition reinitialize_database (B : backend)
  : endpoint (str * collection_info) :=
  guarded (lit "Error reinitializing database: ")
    (VectorStore.reset_database ;;
     ChatService.initialize_database B ;;
     info <- get_database_info ;;
     ret (lit "Database reinitialized successfully", info)).

(** [get_book_summary]: the [HTTPException] raised for a miss passes the
    handlers unchanged; any other exception becomes a 500. *)
Definition get_book_summary (title : str) : endpoint (str * str) :=
  fun w =>
    match on_corpus (BookSummaries.get_summary_by_title title) w with
    | (Ok summary, w') =>
        if contains (lit "Sorry, I don't have") summary
        then (HttpError 404 summary, w')
        else (Http200 (title, summary), w')
    | (Raise e, w') =>
        (HttpError 500 (lit "Error fetching book summary: " ++ e), w')
    end.

End Api.

(* ================================================================== *)

(** * Sample data *)
(* ================================================================== *)

Module Samples.
Import BookSummaries.

(** A section: the text between one header token and the next. *)
Definition section (title summary : str) : str :=
  lit " " ++ title ++ [nl] ++ summary ++ [nl].

Definition two_books : list str :=
  [ section (lit "1984") (lit "A man rebels against total surveillance.");
    section (lit "The Hobbit") (lit "A hobbit leaves home for an adventure.") ].

Definition six_books : list str :=
  [ section (lit "1984") (lit "A man rebels against total surveillance.");
    section (lit "The Hobbit") (lit "A hobbit leaves home for an adventure.");
    section (lit "Dune") (lit "A desert planet and its spice.");
    section (lit "Emma") (lit "A matchmaker learns her limits.");
    section (lit "Ulysses") (lit "One day in Dublin.");
    section (lit "Walden") (lit "Two years by a pond.") ].

(** Two sections under one title. *)
Definition same_title_twice : list str :=
  [ section (lit "Dune") (lit "First edition.");
    section (lit "Dune") (lit "Second edition.") ].

(** A POSIX system and a Windows system on which the file can be opened
    for appending and does not end in a carriage return. *)
Definition posix_disk : disk :=
  {| linesep := [nl];
     open_append := fun _ => Ok tt;
     ends_in_cr := fun _ => false;
     reread_error := fun detail _ => detail |}.

Definition windows_disk : disk :=
  {| linesep := [cr; nl];
     open_append := fun _ => Ok tt;
     ends_in_cr := fun _ => false;
     reread_error := fun detail _ => detail |}.


(** The text [{"title": "1984"}], and [{}]. *)
Definition quote : char := 34%N.
Definition title_1984_json : str :=
  lit "{" ++ [quote] ++ lit "title" ++ [quote] ++ lit ": "
  ++ [quote] ++ lit "1984" ++ [quote] ++ lit "}".
Definition empty_object_json : str := lit "{}".

(** [json.loads] on the few texts used below. *)
Definition sample_json_loads (s : str) : result pyval :=
  if str_eqb s title_1984_json then Ok (PDict [(lit "title", PStr (lit "1984"))])
  else if str_eqb s empty_object_json then Ok (PDict [])
  else Raise (lit "Expecting value: line 1 column 1 (char 0)").

(** A backend made of answers that ignore the history. *)
Definition sample_backend
    (moderation : str -> result (list bool))
    (embedding : str -> result (list (list float)))
    (completion : list message -> bool -> result (list ai_message))
  : backend :=
  {| moderations_create := fun _ text => moderation text;
     embeddings_create := fun _ text => embedding text;
     collection_query := fun _ docs _ n =>
       Ok (map (fun d => {| row_title := doc_title d;
                            row_summary := doc_summary d;
                            row_document := doc_text d;
                            row_distance := 0.25%float |})
               (firstn n docs));
     chat_completions_create := fun _ messages with_tools =>
       completion messages with_tools;
     random_below := fun _ _ => 7;
     json_loads := sample_json_loads;
     format_2f := fun _ => lit "0.75" |}.

Definition calm (_ : str) : result (list bool) := Ok [false].
Definition alarmed (_ : str) : result (list bool) := Ok [true].
Definition unit_embedding (_ : str) : result (list (list float)) :=
  Ok [[1%float; 0%float]].
Definition connection_error {A} : result A := Raise (lit "Connection error.").

(** A model that asks for one tool call while tools are offered and
    answers in text afterwards. *)
Definition asking (call : tool_call) (_ : list message) (with_tools : bool)
  : result (list ai_message) :=
  if with_tools then Ok [{| am_content := None; am_tool_calls := [call] |}]
  else Ok [{| am_content := Some (lit "Here is what I found.");
              am_tool_calls := [] |}].

Definition call_unknown : tool_call :=
  {| tc_id := lit "call_1"; tc_name := lit "get_weather";
     tc_arguments := empty_object_json |}.
Definition call_unknown_undecodable : tool_call :=
  {| tc_id := lit "call_3"; tc_name := lit "get_weather";
     tc_arguments := lit "oops" |}.
Definition call_without_title : tool_call :=
  {| tc_id := lit "call_2"; tc_name := lit "get_summary_by_title";
     tc_arguments := empty_object_json |}.

Definition fresh_world (f : BookSummaries.file) : world :=
  {| corpus := initial_store f; collection := []; calls := [] |}.

(** A corpus whose first header is followed by nothing but a newline. *)
Definition dangling_header : str :=
  title_token ++ [nl] ++ corpus_text [] two_books.

End Samples.

(* ================================================================== *)

(** * Facts about Python strings *)
(* ================================================================== *)

Module PyStrFacts.

Lemma str_eqb_eq (a b : str) : str_eqb a b = true <-> a = b.
Proof.
  unfold str_eqb. destruct (list_eq_dec N.eq_dec a b); split; congruence.
Qed.

Lemma str_eqb_refl (a : str) : str_eqb a a = true.
Proof. now apply str_eqb_eq. Qed.

Lemma str_eqb_neq (a b : str) : str_eqb a b = false <-> a <> b.
Proof.
  unfold str_eqb. destruct (list_eq_dec N.eq_dec a b); split; congruence.
Qed.

Lemma startswith_iff (p s : str) :
  startswith p s = true <-> exists r, s = p ++ r.
Proof.
  revert s. induction p as [|a p IH]; intros s; simpl.
  - split; [intros _; now exists s | reflexivity].
  - destruct s as [|b s].
    + split; [discriminate | intros [r Hr]; discriminate].
    + rewrite andb_true_iff, N.eqb_eq, IH. split.
      * intros [-> [r ->]]. now exists r.
      * intros [r Hr]. injection Hr as -> ->. split; [reflexivity | now exists r].
Qed.

Lemma startswith_app (p r : str) : startswith p (p ++ r) = true.
Proof. apply startswith_iff. now exists r. Qed.

(** [find] returns an occurrence... *)
Lemma find_Some_occ (sub s : str) (i : nat) :
  find sub s = Some i -> exists l r, s = l ++ sub ++ r /\ length l = i.
Proof.
  revert i. induction s as [|c s IH]; intros i; simpl.
  - destruct (startswith sub []) eqn:E; [|discriminate].
    intros [= <-]. apply startswith_iff in E as [r Hr].
    exists [], r. now split.
  - destruct (startswith sub (c :: s)) eqn:E.
    + intros [= <-]. apply startswith_iff in E as [r Hr].
      exists [], r. now split.
    + destruct (find sub s) as [j|]; [|discriminate].
      intros [= <-]. destruct (IH j eq_refl) as (l & r & -> & Hl).
      exists (c :: l), r. simpl. now rewrite Hl.
Qed.

(** ... and the leftmost one. *)
Lemma find_Some_least (sub s : str) (i : nat) :
  find sub s = Some i -> forall l r, s = l ++ sub ++ r -> i <= length l.
Proof.
  revert i. induction s as [|c s IH]; intros i; simpl.
  - destruct (startswith sub []); [|discriminate]. intros [= <-]. lia.
  - destruct (startswith sub (c :: s)) eqn:E.
    + intros [= <-]. lia.
    + destruct (find sub s) as [j|]; [|discriminate].
      intros [= <-] l r Hs. destruct l as [|d l].
      * simpl in Hs. rewrite Hs, startswith_app in E. discriminate.
      * simpl in Hs. injection Hs as _ Hs. simpl.
        specialize (IH j eq_refl l r Hs). lia.
Qed.

Lemma find_occ (sub s l r : str) :
  s = l ++ sub ++ r -> exists i, find sub s = Some i /\ i <= length l.
Proof.
  revert l. induction s as [|c s IH]; intros l Hs; simpl.
  - destruct l; [|discriminate]. simpl in Hs.
    rewrite Hs, startswith_app. exists 0. split; [reflexivity | lia].
  - destruct (startswith sub (c :: s)) eqn:E.
    + exists 0. split; [reflexivity | lia].
    + destruct l as [|d l].
      * simpl in Hs. rewrite Hs, startswith_app in E. discriminate.
      * simpl in Hs. injection Hs as _ Hs.
        destruct (IH l Hs) as (i & -> & Hi). exists (S i).
        split; [reflexivity | simpl; lia].
Qed.

Lemma find_None_iff (sub s : str) : find sub s = None <-> ~ occurs sub s.
Proof.
  split.
  - intros Hn (l & r & Hs). destruct (find_occ _ _ _ _ Hs) as (i & Hi & _).
    congruence.
  - intros Hn. destruct (find sub s) as [i|] eqn:E; [|reflexivity].
    exfalso. apply Hn. destruct (find_Some_occ _ _ _ E) as (l & r & Hs & _).
    now exists l, r.
Qed.

Lemma find_Some_intro (sub l r : str) :
  (forall l' r', l ++ sub ++ r = l' ++ sub ++ r' -> length l <= length l') ->
  find sub (l ++ sub ++ r) = Some (length l).
Proof.
  intros Hleast.
  destruct (find_occ sub (l ++ sub ++ r) l r eq_refl) as (i & Hi & Hle).
  destruct (find_Some_occ _ _ _ Hi) as (l' & r' & Hs & Hl').
  specialize (Hleast l' r' Hs). rewrite Hi. f_equal. lia.
Qed.

Lemma contains_iff (sub s : str) : contains sub s = true <-> occurs sub s.
Proof.
  unfold contains. destruct (find sub s) as [i|] eqn:E.
  - split; [intros _ | reflexivity].
    destruct (find_Some_occ _ _ _ E) as (l & r & Hs & _). now exists l, r.
  - split; [discriminate|]. intros H. apply find_None_iff in E. contradiction.
Qed.

Lemma contains_false_iff (sub s : str) :
  contains sub s = false <-> ~ occurs sub s.
Proof.
  rewrite <- contains_iff. destruct (contains sub s); split; congruence.
Qed.

Lemma find_nil_sep (sep : str) : sep <> [] -> find sep [] = None.
Proof. destruct sep; [congruence | reflexivity]. Qed.

Lemma find_Some_length (sub s : str) (i : nat) :
  find sub s = Some i -> i + length sub <= length s.
Proof.
  intros H. destruct (find_Some_occ _ _ _ H) as (l & r & -> & <-).
  rewrite !length_app. lia.
Qed.

(** ** Python's answers on small inputs *)

Example split_twice_at_end :
  split (lit "ab") (lit "xabyabab") = [lit "x"; lit "y"; []; []].
Proof. reflexivity. Qed.

Example split_empty_text : split (lit "ab") [] = [[]].
Proof. reflexivity. Qed.

Example split_leftmost_first : split (lit "aa") (lit "aaa") = [[]; lit "a"].
Proof. reflexivity. Qed.

Example strip_both_ends :
  strip (lit "  a b" ++ [nl; 9%N; 160%N; 8232%N]) = lit "a b".
Proof. reflexivity. Qed.

Example join_three : join (lit ", ") [lit "a"; lit "b"; lit "c"] = lit "a, b, c".
Proof. reflexivity. Qed.

Example str_of_index : str_of_Z 0 = lit "0" /\ str_of_Z 12 = lit "12".
Proof. split; reflexivity. Qed.

(** ** [split] *)

Lemma firstn_exact {A} (l x : list A) : firstn (length l) (l ++ x) = l.
Proof.
  rewrite firstn_app, firstn_all, Nat.sub_diag. simpl. apply app_nil_r.
Qed.

Lemma skipn_exact {A} (l x : list A) : skipn (length l) (l ++ x) = x.
Proof. rewrite skipn_app, skipn_all, Nat.sub_diag. reflexivity. Qed.

Lemma skipn_exact2 {A} (l m x : list A) :
  skipn (length l + length m) (l ++ m ++ x) = x.
Proof. rewrite app_assoc, <- length_app. apply skipn_exact. Qed.

Lemma split_fuel_enough (sep : str) (n m : nat) (s : str) :
  sep <> [] -> length s <= n -> length s <= m ->
  split_fuel n sep s = split_fuel m sep s.
Proof.
  intros Hsep. revert m s. induction n as [|n IH]; intros m s Hn Hm.
  - destruct s; [|simpl in Hn; lia].
    destruct m; cbn [split_fuel]; [reflexivity|]. now rewrite find_nil_sep.
  - destruct m as [|m].
    + destruct s; [|simpl in Hm; lia]. cbn [split_fuel].
      now rewrite find_nil_sep.
    + cbn [split_fuel]. destruct (find sep s) as [i|] eqn:E; [|reflexivity].
      f_equal. pose proof (find_Some_length _ _ _ E) as Hlen.
      assert (0 < length sep) by (destruct sep; [congruence | simpl; lia]).
      apply IH; rewrite length_skipn; lia.
Qed.

(** The equation Python's [split] satisfies. *)
Lemma split_eq (sep s : str) :
  sep <> [] ->
  split sep s =
  match find sep s with
  | None => [s]
  | Some i => firstn i s :: split sep (skipn (i + length sep) s)
  end.
Proof.
  intros Hsep. unfold split. destruct s as [|c s].
  - cbn [length split_fuel]. now rewrite find_nil_sep.
  - cbn [length split_fuel]. destruct (find sep (c :: s)) as [i|] eqn:E;
      [|reflexivity].
    f_equal. pose proof (find_Some_length _ _ _ E) as Hlen. simpl in Hlen.
    assert (0 < length sep) by (destruct sep; [congruence | simpl; lia]).
    apply split_fuel_enough; trivial.
    rewrite length_skipn. cbn [length]. lia.
Qed.

Lemma split_no_occ (sep s : str) : find sep s = None -> split sep s = [s].
Proof.
  intros H. unfold split. destruct (length s); simpl; [reflexivity|].
  now rewrite H.
Qed.

Lemma split_not_nil (sep s : str) : split sep s <> [].
Proof.
  unfold split. destruct (length s); simpl; [discriminate|].
  destruct (find sep s); discriminate.
Qed.

(** The occurrence found in [s] is still the first one when text follows. *)
Lemma find_app_l (sub s t : str) (i : nat) :
  find sub s = Some i -> find sub (s ++ t) = Some i.
Proof.
  intros H. destruct (find_Some_occ _ _ _ H) as (l & r & -> & <-).
  replace ((l ++ sub ++ r) ++ t) with (l ++ sub ++ (r ++ t))
    by now rewrite <- !app_assoc.
  apply find_Some_intro. intros l' r' Heq.
  destruct (Nat.le_gt_cases (length l) (length l')) as [|Hlt]; trivial.
  exfalso.
  (* an occurrence starting before [l] would end inside [l ++ sub] *)
  assert (Hocc : exists r'', l ++ sub ++ r = l' ++ sub ++ r'').
  { assert (Hpre : firstn (length l + length sub) (l ++ sub ++ (r ++ t))
                   = l ++ sub).
    { rewrite app_assoc, firstn_app, <- length_app, firstn_all.
      rewrite Nat.sub_diag. simpl. now rewrite app_nil_r. }
    rewrite Heq in Hpre.
    rewrite app_assoc, firstn_app, firstn_all2 in Hpre
      by (rewrite length_app; lia).
    exists (firstn (length l + length sub - length (l' ++ sub)) r' ++ r).
    rewrite (app_assoc l sub r), <- Hpre, <- !app_assoc. reflexivity. }
  destruct Hocc as (r'' & Hocc).
  pose proof (find_Some_least _ _ _ H l' r'' Hocc). lia.
Qed.

(** No occurrence of a borderless separator straddles the place where the
    separator itself starts. *)
Lemma find_first_sep (sep a b : str) :
  borderless sep -> ~ occurs sep a ->
  find sep (a ++ sep ++ b) = Some (length a).
Proof.
  intros Hbl Hno. apply find_Some_intro. intros l' r' Heq.
  destruct (Nat.le_gt_cases (length a) (length l')) as [|Hlt]; trivial.
  exfalso.
  destruct (app_eq_app _ _ _ _ Heq) as (x & [[Ha Hx] | [Hl Hx]]).
  - (* [a = l' ++ x]: the occurrence starts inside [a], [x] is not empty *)
    assert (Hxne : x <> []).
    { intros ->. rewrite app_nil_r in Ha. subst. lia. }
    symmetry in Hx.
    destruct (app_eq_app _ _ _ _ Hx) as (y & [[Hxy Hy] | [Hs Hy]]).
    + (* [x = sep ++ y]: the occurrence lies in [a] *)
      apply Hno. exists l', y. now rewrite Ha, Hxy.
    + (* [sep = x ++ y] and [sep ++ b = y ++ r'] *)
      destruct y as [|c y].
      { apply Hno. exists l', []. rewrite app_nil_r in Hs.
        now rewrite Ha, Hs, app_nil_r. }
      destruct (app_eq_app _ _ _ _ Hy) as (z & [[Hsz _] | [Hyz _]]).
      * apply (Hbl x (c :: y) z); trivial. discriminate.
      * (* [c :: y = sep ++ z] is longer than [sep]'s part [y] allows *)
        apply (f_equal (@length _)) in Hs, Hyz.
        rewrite length_app in Hs, Hyz. rewrite Hyz in Hs.
        destruct x; [congruence | simpl in Hs; lia].
  - subst l'. rewrite length_app in Hlt. lia.
Qed.

Lemma split_at_first (sep a b : str) :
  sep <> [] -> borderless sep -> ~ occurs sep a ->
  split sep (a ++ sep ++ b) = a :: split sep b.
Proof.
  intros Hsep Hbl Hno. rewrite split_eq, (find_first_sep _ _ _ Hbl Hno) by trivial.
  now rewrite firstn_exact, skipn_exact2.
Qed.

(** Splitting text that continues with the separator: the sections of the
    first part, then those of the rest. *)
Lemma split_app_sep (sep a b : str) :
  sep <> [] -> borderless sep ->
  split sep (a ++ sep ++ b) = split sep a ++ split sep b.
Proof.
  intros Hsep Hbl. remember (length a) as n eqn:Hn. revert a Hn.
  induction n as [n IH] using lt_wf_ind. intros a Hn.
  destruct (find sep a) as [i|] eqn:E.
  - pose proof (find_Some_length _ _ _ E) as Hlen.
    assert (0 < length sep) by (destruct sep; [congruence | simpl; lia]).
    rewrite (split_eq sep a), E by trivial.
    rewrite split_eq, (find_app_l _ _ _ _ E) by trivial. simpl.
    rewrite firstn_app. replace (i - length a) with 0 by lia.
    simpl firstn. rewrite app_nil_r. f_equal.
    rewrite skipn_app.
    replace (i + length sep - length a) with 0 by lia. simpl skipn.
    apply (IH (length (skipn (i + length sep) a))); trivial.
    rewrite length_skipn. lia.
  - rewrite (split_no_occ _ _ E). simpl.
    apply split_at_first; trivial. now apply find_None_iff.
Qed.

(** [sep.join(s.split(sep))] gives [s] back. *)
Lemma join_split (sep s : str) : sep <> [] -> join sep (split sep s) = s.
Proof.
  intros Hsep. remember (length s) as n eqn:Hn. revert s Hn.
  induction n as [n IH] using lt_wf_ind. intros s Hn.
  rewrite split_eq by trivial. destruct (find sep s) as [i|] eqn:E;
    [|reflexivity].
  assert (0 < length sep) by (destruct sep; [congruence | simpl; lia]).
  destruct (find_Some_occ _ _ _ E) as (l & r & Hs & Hl). subst i s.
  rewrite firstn_exact, skipn_exact2.
  assert (Hrest : join sep (split sep r) = r).
  { apply (IH (length r)); trivial. rewrite Hn, !length_app. lia. }
  cbn [join]. destruct (split sep r) as [|p ps] eqn:Es.
  { now apply split_not_nil in Es. }
  now rewrite Hrest.
Qed.

(** ** Occurrences *)

Lemma borderlessb_sound (sep : str) : borderlessb sep = true -> borderless sep.
Proof.
  unfold borderlessb. rewrite forallb_forall. intros H p q u Hp Hq Hpne Hqne.
  assert (Hlen : length sep = length p + length q)
    by (rewrite Hp at 1; apply length_app).
  assert (0 < length p) by (destruct p; [congruence | simpl; lia]).
  assert (0 < length q) by (destruct q; [congruence | simpl; lia]).
  specialize (H (length q)). rewrite in_seq in H.
  assert (Hk : negb (str_eqb (firstn (length q) sep)
                       (skipn (length sep - length q) sep)) = true)
    by (apply H; lia).
  replace (length sep - length q) with (length p) in Hk by lia.
  rewrite Hq in Hk at 1. rewrite firstn_exact in Hk.
  rewrite Hp, skipn_exact, str_eqb_refl in Hk. discriminate.
Qed.

Lemma occurs_nil_inv (sub : str) : occurs sub [] -> sub = [].
Proof.
  intros (l & r & H). symmetry in H. apply app_eq_nil in H as [_ H].
  now apply app_eq_nil in H.
Qed.

(** An occurrence cannot start at a character that is not its first. *)
Lemma occurs_cons_inv (sub x : str) (h c : char) (t : str) :
  sub = h :: t -> h <> c -> occurs sub (c :: x) -> occurs sub x.
Proof.
  intros -> Hne (l & r & H). destruct l as [|d l].
  - simpl in H. congruence.
  - simpl in H. injection H as _ H. now exists l, r.
Qed.

(** An occurrence cannot run over a character that [sub] does not hold. *)
Lemma occurs_app_char (sub a b : str) (c : char) :
  ~ In c sub -> occurs sub (a ++ c :: b) -> occurs sub a \/ occurs sub b.
Proof.
  intros Hc (l & r & H).
  destruct (app_eq_app _ _ _ _ H) as (x & [[Ha Hx] | [Hl Hx]]).
  - symmetry in Hx.
    destruct (app_eq_app _ _ _ _ Hx) as (y & [[Hxy Hy] | [Hs Hy]]).
    + left. exists l, y. now rewrite Ha, Hxy.
    + destruct y as [|d y].
      * left. exists l, []. rewrite app_nil_r in Hs.
        now rewrite Ha, Hs, app_nil_r.
      * simpl in Hy. injection Hy as -> _. exfalso. apply Hc.
        rewrite Hs. apply in_or_app. right. now left.
  - destruct x as [|d x].
    + simpl in Hx. destruct sub as [|h t].
      * left. exists a, []. now rewrite app_nil_r.
      * simpl in Hx. injection Hx as -> _. exfalso. apply Hc. now left.
    + simpl in Hx. injection Hx as _ Hx. right. now exists x, r.
Qed.

Lemma borderless_single (c : char) : borderless [c].
Proof. apply borderlessb_sound. reflexivity. Qed.

(** ** [strip] *)

Lemma lstrip_nil_iff (s : str) : lstrip s = [] <-> forallb isspace s = true.
Proof.
  induction s as [|c s IH]; simpl; [tauto|].
  destruct (isspace c); simpl; [exact IH | split; discriminate].
Qed.

Lemma forallb_rev {A} (f : A -> bool) (l : list A) :
  forallb f (rev l) = forallb f l.
Proof.
  induction l as [|a l IH]; simpl; [reflexivity|].
  rewrite forallb_app, IH. simpl. rewrite andb_true_r. apply andb_comm.
Qed.

Lemma rstrip_nil_iff (s : str) : rstrip s = [] <-> forallb isspace s = true.
Proof.
  unfold rstrip. rewrite <- (forallb_rev isspace s), <- lstrip_nil_iff.
  split; intros H.
  - apply (f_equal (@rev _)) in H. now rewrite rev_involutive in H.
  - now rewrite H.
Qed.

Lemma lstrip_app_space (w s : str) :
  forallb isspace w = true -> lstrip (w ++ s) = lstrip s.
Proof.
  induction w as [|c w IH]; simpl; [reflexivity|].
  destruct (isspace c); simpl; [exact IH | discriminate].
Qed.

Lemma lstrip_app (a b : str) : lstrip a <> [] -> lstrip (a ++ b) = lstrip a ++ b.
Proof.
  induction a as [|c a IH]; simpl; [congruence|].
  destruct (isspace c); [exact IH | reflexivity].
Qed.

Lemma lstrip_idem (s : str) : lstrip (lstrip s) = lstrip s.
Proof.
  induction s as [|c s IH]; simpl; [reflexivity|].
  destruct (isspace c) eqn:E; [exact IH | simpl; now rewrite E].
Qed.

Lemma length_lstrip (s : str) : length (lstrip s) <= length s.
Proof.
  induction s as [|c s IH]; simpl; [lia|]. destruct (isspace c); simpl; lia.
Qed.

Lemma length_rstrip (s : str) : length (rstrip s) <= length s.
Proof.
  unfold rstrip. rewrite length_rev, <- (length_rev s). apply length_lstrip.
Qed.

Lemma rstrip_app_space (s w : str) :
  forallb isspace w = true -> rstrip (s ++ w) = rstrip s.
Proof.
  intros H. unfold rstrip. rewrite rev_app_distr, lstrip_app_space; trivial.
  now rewrite forallb_rev.
Qed.

Lemma rstrip_app (a b : str) : rstrip b <> [] -> rstrip (a ++ b) = a ++ rstrip b.
Proof.
  intros H. unfold rstrip in *. rewrite rev_app_distr, lstrip_app.
  - now rewrite rev_app_distr, rev_involutive.
  - intros E. apply H. now rewrite E.
Qed.

Lemma rstrip_idem (s : str) : rstrip (rstrip s) = rstrip s.
Proof. unfold rstrip. now rewrite rev_involutive, lstrip_idem. Qed.

(** [rstrip], read from the left. *)
Lemma rstrip_cons (c : char) (s : str) :
  rstrip (c :: s) =
  match rstrip s with
  | [] => if isspace c then [] else [c]
  | _ :: _ => c :: rstrip s
  end.
Proof.
  destruct (rstrip s) as [|d t] eqn:E.
  - apply rstrip_nil_iff in E.
    change (c :: s) with ([c] ++ s). rewrite rstrip_app_space by trivial.
    unfold rstrip. simpl. now destruct (isspace c).
  - change (c :: s) with ([c] ++ s). rewrite rstrip_app by congruence.
    now rewrite E.
Qed.

Lemma lstrip_rstrip (s : str) : lstrip (rstrip s) = rstrip (lstrip s).
Proof.
  induction s as [|c s IH]; [reflexivity|].
  rewrite rstrip_cons. cbn [lstrip].
  destruct (rstrip s) as [|d t] eqn:E.
  - destruct (isspace c) eqn:Ec.
    + apply rstrip_nil_iff in E. apply lstrip_nil_iff in E. now rewrite E.
    + simpl. rewrite Ec, rstrip_cons, E, Ec. reflexivity.
  - destruct (isspace c) eqn:Ec.
    + simpl. now rewrite Ec.
    + simpl. rewrite Ec, rstrip_cons, E. reflexivity.
Qed.

Lemma strip_rstrip (s : str) : strip (rstrip s) = strip s.
Proof. unfold strip. now rewrite lstrip_rstrip, rstrip_idem. Qed.

(** A string with a character that is no white space does not strip to the
    empty string. *)
Lemma rstrip_not_nil (s : str) (c : char) :
  In c s -> isspace c = false -> rstrip s <> [].
Proof.
  intros Hin Hc E. apply rstrip_nil_iff in E.
  rewrite forallb_forall in E. specialize (E c Hin). congruence.
Qed.

(** What [strip s = s] says about a non-empty [s]. *)
Lemma strip_fixed_inv (s : str) :
  strip s = s -> s <> [] ->
  (exists c t, s = c :: t /\ isspace c = false) /\ rstrip s = s.
Proof.
  intros Hs Hne. destruct s as [|c t]; [congruence|].
  destruct (isspace c) eqn:Ec.
  - exfalso. unfold strip in Hs. simpl in Hs. rewrite Ec in Hs.
    apply (f_equal (@length _)) in Hs.
    pose proof (length_rstrip (lstrip t)). pose proof (length_lstrip t).
    simpl in Hs. lia.
  - split; [now exists c, t|]. unfold strip in Hs. simpl in Hs.
    now rewrite Ec in Hs.
Qed.

End PyStrFacts.

(* ================================================================== *)
(** * The corpus store *)
(* ================================================================== *)

Module BookSummariesFacts.
Import PyStrFacts BookSummaries.

(** ** The dictionary *)

Lemma dict_get_set_same (k v : str) (d : dict) :
  dict_get k (dict_set k v d) = Some v.
Proof.
  induction d as [|[k' v'] d IH]; simpl.
  - now rewrite str_eqb_refl.
  - destruct (str_eqb k' k) eqn:E; simpl; rewrite E; [reflexivity | exact IH].
Qed.

Lemma dict_get_set_other (k k' v : str) (d : dict) :
  k <> k' -> dict_get k' (dict_set k v d) = dict_get k' d.
Proof.
  intros Hne. induction d as [|[k0 v0] d IH]; simpl.
  - apply str_eqb_neq in Hne. now rewrite Hne.
  - destruct (str_eqb k0 k) eqn:E; simpl.
    + apply str_eqb_eq in E. subst k0.
      apply str_eqb_neq in Hne. now rewrite Hne.
    + now rewrite IH.
Qed.

Lemma dict_get_None_iff (k : str) (d : dict) :
  dict_get k d = None <-> ~ In k (dict_keys d).
Proof.
  induction d as [|[k' v'] d IH]; simpl; [tauto|].
  destruct (str_eqb k' k) eqn:E.
  - apply str_eqb_eq in E. split; [discriminate | tauto].
  - apply str_eqb_neq in E. rewrite IH. tauto.
Qed.

Lemma dict_keys_set_fresh (k v : str) (d : dict) :
  ~ In k (dict_keys d) -> dict_keys (dict_set k v d) = dict_keys d ++ [k].
Proof.
  induction d as [|[k' v'] d IH]; simpl; [reflexivity|]. intros Hn.
  destruct (str_eqb k' k) eqn:E.
  - apply str_eqb_eq in E. tauto.
  - simpl. rewrite IH; tauto.
Qed.

Lemma dict_keys_set_present (k v : str) (d : dict) :
  In k (dict_keys d) -> dict_keys (dict_set k v d) = dict_keys d.
Proof.
  induction d as [|[k' v'] d IH]; simpl; [tauto|]. intros Hin.
  destruct (str_eqb k' k) eqn:E; simpl; [reflexivity|].
  apply str_eqb_neq in E. rewrite IH; tauto.
Qed.

(** Keys stay distinct: a [dict] never lists a title twice. *)
Lemma dict_set_NoDup (k v : str) (d : dict) :
  NoDup (dict_keys d) -> NoDup (dict_keys (dict_set k v d)).
Proof.
  intros Hnd. destruct (in_dec (list_eq_dec N.eq_dec) k (dict_keys d)) as [Hin|Hn].
  - now rewrite dict_keys_set_present.
  - rewrite dict_keys_set_fresh by trivial.
    apply NoDup_app; trivial.
    + constructor; [intros [] | constructor].
    + intros x Hx [<-|[]]. contradiction.
Qed.

(** ** Parsing *)

Lemma book_lines_not_nil (book : str) : book_lines book <> [].
Proof. apply split_not_nil. Qed.

Lemma add_book_eq (cache : dict) (book : str) :
  add_book cache book = dict_set (book_title book) (book_summary book) cache.
Proof.
  unfold add_book. destruct (book_lines book) eqn:E; [|reflexivity].
  now apply book_lines_not_nil in E.
Qed.

Lemma parse_keys (books : list str) (cache : dict) :
  NoDup (dict_keys cache ++ map book_title books) ->
  dict_keys (fold_left add_book books cache)
  = dict_keys cache ++ map book_title books.
Proof.
  revert cache. induction books as [|b books IH]; intros cache Hnd; simpl.
  - now rewrite app_nil_r.
  - rewrite add_book_eq.
    assert (Hfresh : ~ In (book_title b) (dict_keys cache)).
    { intros Hin. apply NoDup_remove_2 in Hnd. apply Hnd.
      apply in_or_app. now left. }
    rewrite IH; rewrite dict_keys_set_fresh by trivial;
      rewrite <- app_assoc; simpl; trivial.
Qed.

Lemma parse_get_other (k : str) (books : list str) (cache : dict) :
  ~ In k (map book_title books) ->
  dict_get k (fold_left add_book books cache) = dict_get k cache.
Proof.
  revert cache. induction books as [|b books IH]; intros cache Hn; simpl;
    [reflexivity|].
  simpl in Hn. rewrite IH by tauto. rewrite add_book_eq.
  apply dict_get_set_other. tauto.
Qed.

Lemma parse_get (book : str) (books : list str) (cache : dict) :
  NoDup (map book_title books) -> In book books ->
  dict_get (book_title book) (fold_left add_book books cache)
  = Some (book_summary book).
Proof.
  revert cache. induction books as [|b books IH]; intros cache Hnd Hin;
    [contradiction|].
  simpl in *. inversion Hnd as [|? ? Hfresh Hnd']; subst.
  destruct Hin as [->|Hin].
  - rewrite parse_get_other by trivial. rewrite add_book_eq.
    apply dict_get_set_same.
  - now apply IH.
Qed.

Lemma dict_keys_set_in (k v t : str) (d : dict) :
  In t (dict_keys (dict_set k v d)) <-> t = k \/ In t (dict_keys d).
Proof.
  destruct (in_dec (list_eq_dec N.eq_dec) k (dict_keys d)) as [Hin|Hn].
  - rewrite dict_keys_set_present by trivial. split; [tauto|].
    intros [->|H]; trivial.
  - rewrite dict_keys_set_fresh, in_app_iff by trivial. simpl.
    split; intros H; [|intuition congruence].
    destruct H as [H|[H|[]]]; auto.
Qed.

(** Whatever the titles, the entries are the distinct titles. *)
Lemma parse_entries (books : list str) (cache : dict) :
  NoDup (dict_keys cache) ->
  NoDup (dict_keys (fold_left add_book books cache))
  /\ forall t, In t (dict_keys (fold_left add_book books cache))
               <-> In t (dict_keys cache) \/ In t (map book_title books).
Proof.
  revert cache. induction books as [|b books IH]; intros cache Hnd; simpl.
  - split; [trivial | tauto].
  - rewrite add_book_eq.
    destruct (IH (dict_set (book_title b) (book_summary b) cache)
                 (dict_set_NoDup _ _ _ Hnd)) as [Hnd' Hin].
    split; [trivial|]. intros t. rewrite Hin, dict_keys_set_in.
    intuition congruence.
Qed.

(** The section written last decides the summary of its title. *)
Lemma parse_get_decided (before after : list str) (book : str) (cache : dict) :
  ~ In (book_title book) (map book_title after) ->
  dict_get (book_title book)
           (fold_left add_book (before ++ book :: after) cache)
  = Some (book_summary book).
Proof.
  intros Hn. rewrite fold_left_app. simpl.
  rewrite parse_get_other by trivial. rewrite add_book_eq.
  apply dict_get_set_same.
Qed.

Lemma parse_get_last (books : list str) (book : str) (cache : dict) :
  dict_get (book_title book) (fold_left add_book (books ++ [book]) cache)
  = Some (book_summary book).
Proof.
  rewrite fold_left_app. simpl. rewrite add_book_eq. apply dict_get_set_same.
Qed.

Lemma title_token_borderless : borderless title_token.
Proof. apply borderlessb_sound. reflexivity. Qed.

Lemma title_token_not_nil : title_token <> [].
Proof. discriminate. Qed.

Lemma split_corpus_text (preamble : str) (books : list str) :
  ~ occurs title_token preamble ->
  Forall (fun book => ~ occurs title_token book) books ->
  split title_token (corpus_text preamble books) = preamble :: books.
Proof.
  unfold corpus_text. revert preamble.
  induction books as [|b books IH]; intros preamble Hp Hb; cbn [map concat].
  - rewrite app_nil_r. apply split_no_occ. now apply find_None_iff.
  - inversion Hb as [|? ? Hb1 Hb2]; subst. rewrite <- app_assoc.
    rewrite split_at_first;
      auto using title_token_borderless, title_token_not_nil.
    f_equal. now apply IH.
Qed.

Lemma sections_corpus_text (preamble : str) (books : list str) :
  ~ occurs title_token preamble ->
  Forall (fun book => ~ occurs title_token book) books ->
  sections (corpus_text preamble books) = books.
Proof.
  intros Hp Hb. unfold sections. now rewrite split_corpus_text.
Qed.

(** ** The loader *)

Lemma load_loaded (st : store) :
  cache_loaded st = true ->
  _load_books_from_file st = (Ok (books_cache st), st).
Proof.
  intros H. unfold _load_books_from_file, bind, get. now rewrite H.
Qed.

Lemma load_text (st : store) (content : str) :
  cache_loaded st = false -> books_file st = Text content ->
  _load_books_from_file st
  = (Ok (parse content (books_cache st)),
     set_loaded true (set_cache (parse content (books_cache st)) st)).
Proof.
  intros Hl Hf. unfold _load_books_from_file, bind, get. rewrite Hl.
  unfold try_except, load_try, bind, get, lift_result, put, ret.
  rewrite Hf. reflexivity.
Qed.

Lemma load_no_text (st : store) :
  cache_loaded st = false ->
  (books_file st = Absent \/ exists detail, books_file st = Unreadable detail) ->
  _load_books_from_file st = (Ok (books_cache st), set_loaded true st).
Proof.
  intros Hl Hf. unfold _load_books_from_file, bind, get. rewrite Hl.
  unfold try_except, load_try, bind, get, lift_result, put, ret.
  destruct Hf as [Hf | [detail Hf]]; rewrite Hf; reflexivity.
Qed.

(** The loader never raises; it leaves the cache marked as loaded and does
    not touch the file. *)
Lemma load_total (st : store) :
  exists books st',
    _load_books_from_file st = (Ok books, st')
    /\ books_cache st' = books /\ cache_loaded st' = true
    /\ books_file st' = books_file st.
Proof.
  destruct (cache_loaded st) eqn:Hl.
  - exists (books_cache st), st. now rewrite load_loaded.
  - destruct (books_file st) as [|detail|content] eqn:Hf.
    + eexists _, _. rewrite load_no_text by auto. now simpl.
    + eexists _, _. rewrite load_no_text by eauto. now simpl.
    + eexists _, _. rewrite (load_text _ content) by trivial. now simpl.
Qed.

Lemma lookup_run (st st' : store) (books : dict) (title : str) :
  _load_books_from_file st = (Ok books, st') ->
  get_summary_by_title title st
  = (Ok match dict_get title books with
        | Some summary => summary
        | None => not_found_message title books
        end, st').
Proof.
  intros H. unfold get_summary_by_title, bind. rewrite H.
  now destruct (dict_get title books).
Qed.

Lemma titles_run (st st' : store) (books : dict) :
  _load_books_from_file st = (Ok books, st') ->
  get_all_book_titles st = (Ok (dict_keys books), st').
Proof. intros H. unfold get_all_book_titles, bind. now rewrite H. Qed.

Lemma count_run (st st' : store) (books : dict) :
  _load_books_from_file st = (Ok books, st') ->
  get_books_count st = (Ok (length books), st').
Proof. intros H. unfold get_books_count, bind. now rewrite H. Qed.

Lemma load_initial_text (content : str) :
  _load_books_from_file (initial_store (Text content))
  = (Ok (parse content []), loaded content).
Proof. now rewrite (load_text _ content). Qed.

Lemma load_loaded_text (content : str) :
  _load_books_from_file (loaded content)
  = (Ok (parse content []), loaded content).
Proof. now rewrite load_loaded. Qed.

(** ** Listing and lookup after parsing *)

(** C3, as amended: a corpus text written as a preamble and [N] sections,
    each behind the token "## Title:" and none holding the token, whose [N]
    titles (first line of the section, trimmed) are pairwise distinct, is
    parsed into exactly [N] entries; [get_all_book_titles] returns those [N]
    titles in the order of the sections, and [get_summary_by_title] returns
    for each of them the summary of its section (the remaining lines joined
    by newline, trimmed).  Whatever the titles, the entries are the distinct
    titles, and a title is answered by the summary of the last section that
    carries it.  A corpus text without the token is parsed into zero entries
    and nothing is raised. *)
Theorem parse_distinct_sections :
  (forall (preamble : str) (books : list str),
     contains title_token preamble = false ->
     forallb (fun book => negb (contains title_token book)) books = true ->
     NoDup (map book_title books) ->
     let st := initial_store (Text (corpus_text preamble books)) in
     exists st',
       get_all_book_titles st = (Ok (map book_title books), st')
       /\ length (map book_title books) = length books
       /\ get_books_count st = (Ok (length books), st')
       /\ forall book, In book books ->
            get_summary_by_title (book_title book) st'
            = (Ok (book_summary book), st'))
  /\ (forall (preamble : str) (books : list str),
        contains title_token preamble = false ->
        forallb (fun book => negb (contains title_token book)) books = true ->
        let st := initial_store (Text (corpus_text preamble books)) in
        exists titles st',
          get_all_book_titles st = (Ok titles, st')
          /\ NoDup titles
          /\ (forall t, In t titles <-> In t (map book_title books))
          /\ forall before book after,
               books = before ++ book :: after ->
               ~ In (book_title book) (map book_title after) ->
               get_summary_by_title (book_title book) st'
               = (Ok (book_summary book), st'))
  /\ (forall content : str,
        contains title_token content = false ->
        exists st',
          get_all_book_titles (initial_store (Text content)) = (Ok [], st')
          /\ get_books_count (initial_store (Text content)) = (Ok 0, st')).
Proof.
  assert (Hsections : forall preamble books,
             contains title_token preamble = false ->
             forallb (fun book => negb (contains title_token book)) books
             = true ->
             sections (corpus_text preamble books) = books).
  { intros preamble books Hp Hb. apply contains_false_iff in Hp.
    apply sections_corpus_text; trivial.
    apply Forall_forall. intros b Hin. rewrite forallb_forall in Hb.
    specialize (Hb b Hin). apply contains_false_iff.
    now destruct (contains title_token b). }
  split; [|split].
  - intros preamble books Hp Hb Hnd st. subst st.
    set (content := corpus_text preamble books).
    assert (Hsec : sections content = books) by now apply Hsections.
    assert (Hkeys : dict_keys (parse content []) = map book_title books).
    { unfold parse. rewrite Hsec. now rewrite parse_keys. }
    exists (loaded content). repeat split.
    + rewrite (titles_run _ _ _ (load_initial_text content)). now rewrite Hkeys.
    + apply length_map.
    + rewrite (count_run _ _ _ (load_initial_text content)).
      f_equal. f_equal. rewrite <- (length_map fst). fold (dict_keys (parse content [])).
      rewrite Hkeys. apply length_map.
    + intros book Hin.
      rewrite (lookup_run _ _ _ _ (load_loaded_text content)).
      unfold parse. rewrite Hsec, parse_get; trivial.
  - intros preamble books Hp Hb st. subst st.
    set (content := corpus_text preamble books).
    assert (Hsec : sections content = books) by now apply Hsections.
    destruct (parse_entries books [] (NoDup_nil _)) as [Hnd Hin].
    exists (dict_keys (parse content [])), (loaded content).
    unfold parse. rewrite Hsec. repeat split.
    + rewrite (titles_run _ _ _ (load_initial_text content)).
      unfold parse. now rewrite Hsec.
    + exact Hnd.
    + intros H. apply Hin in H. now destruct H.
    + intros H. apply Hin. now right.
    + intros before book after -> Hlast.
      rewrite (lookup_run _ _ _ _ (load_loaded_text content)).
      unfold parse. rewrite Hsec. now rewrite parse_get_decided.
  - intros content Hc. apply contains_false_iff, find_None_iff in Hc.
    exists (loaded content).
    assert (Hp : parse content [] = []).
    { unfold parse, sections. now rewrite (split_no_occ _ _ Hc). }
    rewrite (titles_run _ _ _ (load_initial_text content)).
    rewrite (count_run _ _ _ (load_initial_text content)).
    now rewrite Hp.
Qed.

Lemma parse_distinct_sections_witness :
  exists st',
    get_all_book_titles
      (initial_store (Text (corpus_text (lit "My books") Samples.two_books)))
    = (Ok [lit "1984"; lit "The Hobbit"], st')
    /\ get_summary_by_title (lit "1984") st'
       = (Ok (lit "A man rebels against total surveillance."), st').
Proof.
  destruct (proj1 parse_distinct_sections (lit "My books") Samples.two_books)
    as (st' & Htitles & _ & _ & Hlookup).
  - reflexivity.
  - reflexivity.
  - vm_compute. repeat constructor; simpl; intuition discriminate.
  - exists st'. split; [exact Htitles|].
    apply (Hlookup (Samples.section (lit "1984")
                      (lit "A man rebels against total surveillance."))).
    now left.
Defined.

(** C3 fails as stated: two well-formed sections under one title are
    parsed into a single entry, holding the summary of the later one. *)
Lemma same_title_sections_collapse :
  let content := corpus_text [] Samples.same_title_twice in
  sections content = Samples.same_title_twice
  /\ length (sections content) = 2
  /\ fst (get_all_book_titles (initial_store (Text content)))
     = Ok [lit "Dune"]
  /\ fst (get_books_count (initial_store (Text content))) = Ok 1
  /\ fst (get_summary_by_title (lit "Dune") (loaded content))
     = Ok (lit "Second edition.").
Proof. vm_compute. repeat split. Qed.

(** ** Lookup of a title that is not in the corpus *)

(** C4: a title that is not a key of the loaded corpus is answered, without
    raising, by a message that starts with "Sorry, I don't have a detailed
    summary for" and names as suggestions the first five titles of the
    corpus in insertion order, fewer when the corpus holds fewer. *)
Theorem lookup_miss (st st' : store) (books : dict) (title : str) :
  _load_books_from_file st = (Ok books, st') ->
  dict_get title books = None ->
  let suggestions := firstn 5 (dict_keys books) in
  get_summary_by_title title st
  = (Ok (lit "Sorry, I don't have a detailed summary for"
         ++ lit " '" ++ title
         ++ lit "'. Please check the title spelling or ask for a different book."
         ++ match suggestions with
            | [] => []
            | _ :: _ =>
                lit " Available books include: "
                ++ join (lit ", ") suggestions ++ lit "..."
            end),
     st')
  /\ length suggestions <= 5
  /\ (forall t, In t suggestions -> In t (dict_keys books)).
Proof.
  intros Hload Hmiss suggestions. repeat split.
  - rewrite (lookup_run _ _ _ _ Hload), Hmiss. reflexivity.
  - apply firstn_le_length.
  - intros t Hin. unfold suggestions in Hin.
    rewrite <- (firstn_skipn 5 (dict_keys books)). apply in_or_app. now left.
Qed.

Lemma lookup_miss_witness :
  get_summary_by_title (lit "Solaris")
    (initial_store (Text (corpus_text [] Samples.six_books)))
  = (Ok (lit "Sorry, I don't have a detailed summary for 'Solaris'. Please check the title spelling or ask for a different book. Available books include: 1984, The Hobbit, Dune, Emma, Ulysses..."),
     loaded (corpus_text [] Samples.six_books)).
Proof.
  exact (proj1 (lookup_miss (initial_store (Text (corpus_text [] Samples.six_books)))
                  (loaded (corpus_text [] Samples.six_books))
                  (parse (corpus_text [] Samples.six_books) [])
                  (lit "Solaris") eq_refl eq_refl)).
Defined.

(** C9: [get_summary_by_title] returns a string for every title and every
    state of the store, and raises nothing.  With the corpus file missing or
    unreadable the loader swallows the error and the cache stays empty; and
    whenever the loaded corpus is empty the message ends after "ask for a
    different book.", with no "Available books include" suffix. *)
Theorem lookup_total (st : store) (title : str) :
  (exists msg st', get_summary_by_title title st = (Ok msg, st'))
  /\ (forall f : file,
        f = Absent \/ (exists detail, f = Unreadable detail) ->
        _load_books_from_file (initial_store f)
        = (Ok [], set_loaded true (initial_store f)))
  /\ (forall st',
        _load_books_from_file st = (Ok [], st') ->
        get_summary_by_title title st
        = (Ok (lit "Sorry, I don't have a detailed summary for '" ++ title
               ++ lit "'. Please check the title spelling or ask for a different book."),
           st')).
Proof.
  repeat split.
  - destruct (load_total st) as (books & st' & Hload & _).
    rewrite (lookup_run _ _ _ _ Hload). eauto.
  - intros f Hf. now rewrite load_no_text.
  - intros st' Hload. rewrite (lookup_run _ _ _ _ Hload).
    cbn [dict_get]. unfold not_found_message. cbn [dict_keys map firstn].
    now rewrite app_nil_r.
Qed.

Lemma lookup_total_witness :
  _load_books_from_file (initial_store (Unreadable (lit "Permission denied")))
  = (Ok [], set_loaded true (initial_store (Unreadable (lit "Permission denied"))))
  /\ get_summary_by_title (lit "Dune") (initial_store Absent)
     = (Ok (lit "Sorry, I don't have a detailed summary for 'Dune'. Please check the title spelling or ask for a different book."),
        set_loaded true (initial_store Absent)).
Proof.
  split.
  - apply (proj1 (proj2 (lookup_total (initial_store Absent) (lit "Dune")))).
    right. now exists (lit "Permission denied").
  - apply (proj2 (proj2 (lookup_total (initial_store Absent) (lit "Dune")))).
    reflexivity.
Defined.

(** ** Text mode *)

Example read_newlines_sample :
  read_newlines false (lit "x" ++ [cr; nl] ++ lit "y" ++ [cr] ++ lit "z" ++ [cr; cr; nl; nl])
  = lit "x" ++ [nl] ++ lit "y" ++ [nl] ++ lit "z" ++ [nl; nl; nl]
  /\ read_newlines true (nl :: lit "y") = lit "y"
  /\ write_newlines [cr; nl] (lit "a" ++ [nl] ++ lit "b")
     = lit "a" ++ [cr; nl] ++ lit "b".
Proof. repeat split. Qed.

Example encode_error_sample :
  encode_error (lit "ab" ++ [55296%N] ++ lit "cd")
  = lit "'utf-8' codec can't encode character '\ud800' in position 2: surrogates not allowed"
  /\ encode_error (lit "xxxxxxxxxxxx" ++ [56448; 56449; 56450]%N)
     = lit "'utf-8' codec can't encode characters in position 12-14: surrogates not allowed"
  /\ utf8_encodable (lit "ab" ++ [65536%N]) = true.
Proof. repeat split. Qed.

Lemma write_newlines_app (ls a b : str) :
  write_newlines ls (a ++ b) = write_newlines ls a ++ write_newlines ls b.
Proof. apply flat_map_app. Qed.

Lemma cr_pending_app (b : bool) (x z : str) :
  cr_pending b (x ++ z) = cr_pending (cr_pending b x) z.
Proof.
  revert b. induction x as [|c x IH]; intros b; [reflexivity|].
  cbn [app cr_pending]. apply IH.
Qed.

(** Reading a text in two parts gives what reading it at once gives. *)
Lemma read_newlines_app (b : bool) (x z : str) :
  read_newlines b (x ++ z)
  = read_newlines b x ++ read_newlines (cr_pending b x) z.
Proof.
  revert b. induction x as [|c x IH]; intros b; [reflexivity|].
  cbn [app read_newlines cr_pending].
  destruct (N.eqb c cr).
  - now rewrite IH.
  - destruct (N.eqb c nl && b); now rewrite IH.
Qed.

Lemma linesep_read (ls : str) (b : bool) :
  ls = [nl] \/ ls = [cr; nl] ->
  cr_pending b ls = false
  /\ (read_newlines b ls = [nl]
      \/ (read_newlines b ls = [] /\ b = true /\ ls = [nl])).
Proof. intros [-> | ->]; destruct b; cbn; auto. Qed.

(** One character written and read back: itself when it is no line end,
    and otherwise a newline, or nothing behind a carriage return. *)
Lemma read_written_cons (ls : str) (c : char) (y : str) (b : bool) :
  ls = [nl] \/ ls = [cr; nl] ->
  exists e b',
    read_newlines b (write_newlines ls (c :: y))
    = e ++ read_newlines b' (write_newlines ls y)
    /\ ((e = [c] /\ b' = false /\ c <> nl /\ c <> cr)
        \/ ((e = [nl] \/ (e = [] /\ b = true)) /\ (c = nl \/ c = cr))).
Proof.
  intros Hls. unfold write_newlines. cbn [flat_map].
  fold (write_newlines ls y). rewrite read_newlines_app.
  destruct (N.eqb c nl) eqn:En.
  - apply N.eqb_eq in En. subst c.
    destruct (linesep_read ls b Hls) as [-> [-> | (-> & -> & _)]].
    + exists [nl], false. split; [reflexivity|]. right. split; now left.
    + exists [], false. split; [reflexivity|]. right.
      split; [right; now split | now left].
  - cbn [read_newlines cr_pending]. rewrite En. cbn [andb].
    destruct (N.eqb c cr) eqn:Ec.
    + apply N.eqb_eq in Ec. subst c. exists [nl], true.
      split; [reflexivity|]. right. split; [now left | now right].
    + exists [c], false. split; [reflexivity|]. left.
      apply N.eqb_neq in En, Ec. auto.
Qed.

(** A text without carriage return is read back as it was written. *)
Lemma read_written_plain (ls x : str) :
  ls = [nl] \/ ls = [cr; nl] -> ~ In cr x ->
  read_newlines false (write_newlines ls x) = x
  /\ cr_pending false (write_newlines ls x) = false.
Proof.
  intros Hls. induction x as [|c x IH]; intros Hcr; [now split|].
  destruct IH as [IHr IHp]; [intros H; apply Hcr; now right|].
  unfold write_newlines. cbn [flat_map]. fold (write_newlines ls x).
  rewrite read_newlines_app, cr_pending_app.
  match goal with |- context [read_newlines false ?t ++ _] => set (e := t) end.
  assert (He : read_newlines false e = [c] /\ cr_pending false e = false).
  { subst e. destruct (N.eqb c nl) eqn:En.
    - apply N.eqb_eq in En. subst c.
      destruct (linesep_read ls false Hls) as [Hp [Hr | (_ & Hb & _)]];
        [now split | discriminate].
    - cbn [read_newlines cr_pending]. rewrite En.
      destruct (N.eqb c cr) eqn:Ec; [|now split].
      apply N.eqb_eq in Ec. exfalso. apply Hcr. now left. }
  destruct He as [-> ->]. rewrite IHr, IHp. now split.
Qed.

Lemma read_written_plain_app (ls x z : str) :
  ls = [nl] \/ ls = [cr; nl] -> ~ In cr x ->
  read_newlines false (write_newlines ls x ++ z) = x ++ read_newlines false z.
Proof.
  intros Hls Hcr. destruct (read_written_plain ls x Hls Hcr) as [Hr Hp].
  now rewrite read_newlines_app, Hr, Hp.
Qed.

Lemma cr_pending_last (y : str) :
  cr_pending false y = true -> exists y0, y = y0 ++ [cr].
Proof.
  destruct y as [|c y _] using rev_ind; [discriminate|].
  rewrite cr_pending_app. cbn [cr_pending]. intros H.
  apply N.eqb_eq in H. subst c. now exists y.
Qed.

(** The line end written behind a text is read as one newline, together
    with a carriage return that the text ends in. *)
Lemma read_line_end (ls y : str) :
  ls = [nl] \/ ls = [cr; nl] ->
  exists q,
    read_newlines false (y ++ ls) = q ++ [nl]
    /\ (read_newlines false y = q \/ read_newlines false y = q ++ [nl]).
Proof.
  intros Hls. rewrite read_newlines_app.
  destruct (linesep_read ls (cr_pending false y) Hls)
    as [_ [-> | (-> & Hp & _)]].
  - exists (read_newlines false y). auto.
  - destruct (cr_pending_last y Hp) as (y0 & ->).
    exists (read_newlines false y0). rewrite app_nil_r, read_newlines_app.
    cbn [read_newlines]. change (N.eqb cr cr) with true. cbn [read_newlines].
    auto.
Qed.

(** The first line end of what is appended. *)
Lemma read_first_line_end (ls rest : str) (b : bool) :
  ls = [nl] \/ ls = [cr; nl] ->
  exists lead,
    (lead = [nl] \/ lead = [])
    /\ read_newlines b (ls ++ rest) = lead ++ read_newlines false rest.
Proof.
  intros Hls. rewrite read_newlines_app.
  destruct (linesep_read ls b Hls) as [-> [-> | (-> & _)]].
  - exists [nl]. auto.
  - exists []. auto.
Qed.

(** A text without line ends at the head of what is read back stood at the
    head of what was written. *)
Lemma read_written_prefix (ls p y r : str) :
  ls = [nl] \/ ls = [cr; nl] ->
  ~ In nl p -> ~ In cr p ->
  read_newlines false (write_newlines ls y) = p ++ r ->
  exists y', y = p ++ y'.
Proof.
  intros Hls. revert y. induction p as [|a p IH]; intros y Hnl Hcr H.
  - now exists y.
  - destruct y as [|c y]; [discriminate|].
    destruct (read_written_cons ls c y false Hls)
      as (e & b' & He & [(-> & -> & _) | [[-> | [_ Hb]] _]]);
      rewrite He in H; cbn [app] in H.
    + injection H as -> H. destruct (IH y) as (y' & ->); trivial.
      * intros Hin. apply Hnl. now right.
      * intros Hin. apply Hcr. now right.
      * now exists y'.
    + injection H as <- _. exfalso. apply Hnl. now left.
    + discriminate.
Qed.

(** Writing and reading back brings in no occurrence of a text without line
    ends. *)
Lemma read_written_occurs (ls sub y : str) (b : bool) :
  ls = [nl] \/ ls = [cr; nl] ->
  sub <> [] -> ~ In nl sub -> ~ In cr sub ->
  occurs sub (read_newlines b (write_newlines ls y)) -> occurs sub y.
Proof.
  intros Hls Hne Hnl Hcr. revert b.
  induction y as [|c y IH]; intros b (l & r & H).
  - cbn in H. symmetry in H. apply app_eq_nil in H as [_ H].
    apply app_eq_nil in H as [H _]. contradiction.
  - assert (Hstep : occurs sub y -> occurs sub (c :: y)).
    { intros (l' & r' & ->). now exists (c :: l'), r'. }
    destruct sub as [|h t]; [contradiction|].
    destruct (read_written_cons ls c y b Hls)
      as (e & b' & He & [(-> & -> & _) | [[-> | [-> _]] _]]);
      rewrite He in H; cbn [app] in H.
    + destruct l as [|x l]; cbn [app] in H.
      * injection H as -> H.
        destruct (read_written_prefix ls t y r Hls) as (y' & ->); trivial.
        -- intros Hin. apply Hnl. now right.
        -- intros Hin. apply Hcr. now right.
        -- now exists [], y'.
      * injection H as _ H. apply Hstep, (IH false). now exists l, r.
    + destruct l as [|x l]; cbn [app] in H.
      * injection H as <- _. exfalso. apply Hnl. now left.
      * injection H as _ H. apply Hstep, (IH b'). now exists l, r.
    + apply Hstep, (IH b'). now exists l, r.
Qed.

Lemma read_written_In (ls y : str) (c : char) (b : bool) :
  ls = [nl] \/ ls = [cr; nl] -> c <> nl -> c <> cr ->
  In c y -> In c (read_newlines b (write_newlines ls y)).
Proof.
  intros Hls Hnl Hcr. revert b.
  induction y as [|d y IH]; intros b Hin; [contradiction|].
  destruct (read_written_cons ls d y b Hls) as (e & b' & -> & He).
  apply in_or_app. destruct Hin as [-> | Hin].
  - destruct He as [(-> & _) | [_ [-> | ->]]];
      [left; now left | contradiction | contradiction].
  - right. now apply IH.
Qed.

Lemma not_contains_char (c : char) (s : str) :
  contains [c] s = false -> ~ In c s.
Proof.
  intros H Hin. apply contains_false_iff in H. apply H.
  apply in_split in Hin as (l & r & ->). now exists l, r.
Qed.

Lemma encodable_written (ls x : str) :
  ls = [nl] \/ ls = [cr; nl] ->
  utf8_encodable x = true -> utf8_encodable (write_newlines ls x) = true.
Proof.
  intros Hls. unfold utf8_encodable. induction x as [|c x IH]; [reflexivity|].
  cbn [forallb]. intros H. apply andb_prop in H as [Hc Hx].
  unfold write_newlines. cbn [flat_map]. fold (write_newlines ls x).
  rewrite forallb_app, (IH Hx), andb_true_r.
  destruct (N.eqb c nl).
  - now destruct Hls as [-> | ->].
  - cbn [forallb]. now rewrite Hc.
Qed.

(** ** Appending a book *)

Lemma sections_snoc (prior tail : str) :
  ~ occurs title_token tail ->
  sections (prior ++ title_token ++ tail) = sections prior ++ [tail].
Proof.
  intros Hno. unfold sections.
  rewrite split_app_sep
    by auto using title_token_borderless, title_token_not_nil.
  apply find_None_iff in Hno. rewrite (split_no_occ _ _ Hno).
  destruct (split title_token prior) as [|x xs] eqn:E;
    [now apply split_not_nil in E | reflexivity].
Qed.

(** Title and summary read back from a written section. *)
Lemma written_section (title written : str) :
  title <> [] -> strip title = title -> ~ occurs [nl] title ->
  rstrip written <> [] ->
  let book := lit " " ++ title ++ [nl] ++ written ++ [nl] in
  book_title book = title /\ book_summary book = strip written.
Proof.
  intros Hne Hstrip Hnl Hw book.
  destruct (strip_fixed_inv _ Hstrip Hne) as [(c & t & Ht & Hc) Hr].
  assert (Hlines : book_lines book = title :: split [nl] (rstrip written)).
  { unfold book_lines, book, strip.
    assert (Hl : lstrip (lit " " ++ title ++ [nl] ++ written ++ [nl])
                 = title ++ [nl] ++ written ++ [nl]).
    { rewrite Ht. cbn. now rewrite Hc. }
    rewrite Hl.
    replace (title ++ [nl] ++ written ++ [nl])
      with (((title ++ [nl]) ++ written) ++ [nl])
      by now rewrite <- !app_assoc.
    rewrite rstrip_app_space by reflexivity.
    rewrite rstrip_app by trivial. rewrite <- app_assoc.
    apply split_at_first; auto using borderless_single. discriminate. }
  unfold book_title, book_summary. rewrite Hlines. split; trivial.
  cbn [skipn]. rewrite join_split by discriminate. apply strip_rstrip.
Qed.

Lemma with_themes_letter (summary : str) : In 77%N (with_themes summary).
Proof.
  unfold with_themes. destruct (contains themes_marker summary) eqn:E.
  - apply contains_iff in E as (l & r & ->).
    apply in_or_app. right. now left.
  - apply in_or_app. right. right. now left.
Qed.

Lemma with_themes_no_token (summary : str) :
  ~ occurs title_token summary -> ~ occurs title_token (with_themes summary).
Proof.
  intros Hs Hocc.
  assert (Hnl : ~ In nl title_token) by (vm_compute; intuition discriminate).
  unfold with_themes in Hocc.
  destruct (contains themes_marker summary); [contradiction|].
  apply occurs_app_char in Hocc as [Hocc|Hocc]; trivial; [contradiction|].
  apply contains_iff in Hocc. discriminate Hocc.
Qed.

Lemma written_section_no_token (title written : str) :
  ~ occurs title_token title -> ~ occurs title_token written ->
  ~ occurs title_token (lit " " ++ title ++ [nl] ++ written ++ [nl]).
Proof.
  intros Ht Hs Hocc.
  assert (Hnl : ~ In nl title_token) by (vm_compute; intuition discriminate).
  apply (occurs_cons_inv title_token _ 35%N 32%N (tl title_token)) in Hocc;
    [|reflexivity|discriminate].
  apply occurs_app_char in Hocc as [Hocc|Hocc]; trivial; [contradiction|].
  apply occurs_app_char in Hocc as [Hocc|Hocc]; trivial; [contradiction|].
  apply occurs_nil_inv in Hocc. discriminate.
Qed.

Lemma strip_app_space (s w : str) :
  forallb isspace w = true -> strip (s ++ w) = strip s.
Proof.
  intros Hw. unfold strip. destruct (lstrip s) as [|c t] eqn:E.
  - assert (Hall : forallb isspace (s ++ w) = true).
    { rewrite forallb_app, Hw, andb_true_r. now apply lstrip_nil_iff. }
    apply lstrip_nil_iff in Hall. now rewrite Hall.
  - rewrite lstrip_app by congruence. rewrite E.
    now apply rstrip_app_space.
Qed.

(** What [read] gives for the record that [add_book_to_file] writes: behind
    a newline, unless that is read as part of the line end the file stops
    in, the header token and the section of [title]; its summary is what is
    read back of the written summary, up to a newline at its end. *)
Lemma record_read_back (D : disk) (f : file) (title written : str) :
  linesep D = [nl] \/ linesep D = [cr; nl] ->
  ~ In cr title -> ~ occurs title_token written -> In 77%N written ->
  exists lead q,
    (lead = [nl] \/ lead = [])
    /\ read_appended D f (book_record title written)
       = lead ++ title_token ++ (lit " " ++ title ++ [nl] ++ q ++ [nl])
    /\ strip q
       = strip (read_newlines false (write_newlines (linesep D) written))
    /\ rstrip q <> []
    /\ ~ occurs title_token q.
Proof.
  intros Hls Hcr Htok Hin.
  set (back := read_newlines false (write_newlines (linesep D) written)).
  assert (Hnl : ~ In nl title_token) by (vm_compute; intuition discriminate).
  assert (Hcr' : ~ In cr title_token) by (vm_compute; intuition discriminate).
  destruct (read_line_end (linesep D) (write_newlines (linesep D) written) Hls)
    as (q & Hend & Hq). fold back in Hq.
  assert (Hback : exists w, back = q ++ w /\ forallb isspace w = true).
  { destruct Hq as [-> | ->]; [exists [] | exists [nl]]; split; trivial.
    now rewrite app_nil_r. }
  destruct Hback as (w & Hback & Hw).
  unfold read_appended.
  set (b := match f with Text _ => ends_in_cr D f | _ => false end).
  assert (Hrec : book_record title written
                 = [nl] ++ (lit "## Title: " ++ title ++ [nl])
                   ++ (written ++ [nl]))
    by (unfold book_record; now rewrite <- !app_assoc).
  rewrite Hrec, (write_newlines_app _ [nl]),
    (write_newlines_app _ (lit "## Title: " ++ title ++ [nl])),
    (write_newlines_app _ written).
  replace (write_newlines (linesep D) [nl]) with (linesep D)
    by (cbn; now rewrite app_nil_r).
  match goal with
  | |- context [read_newlines b (linesep D ++ ?rest)] =>
      destruct (read_first_line_end (linesep D) rest b Hls)
        as (lead & Hlead & ->)
  end.
  rewrite read_written_plain_app; trivial.
  - rewrite Hend. exists lead, q. repeat split; trivial.
    + now rewrite <- !app_assoc.
    + rewrite Hback. symmetry. now apply strip_app_space.
    + apply (rstrip_not_nil _ 77%N); [|reflexivity].
      assert (H : In 77%N back)
        by (apply read_written_In; trivial; discriminate).
      rewrite Hback in H. apply in_app_or in H as [H | H]; trivial.
      rewrite forallb_forall in Hw. now apply Hw in H.
    + intros (l & r & Hocc). apply Htok.
      apply (read_written_occurs (linesep D) title_token written false);
        trivial; [discriminate|].
      fold back. rewrite Hback, Hocc. exists l, (r ++ w).
      now rewrite <- !app_assoc.
  - intros H. apply in_app_or in H as [H | H].
    + revert H. vm_compute. intuition discriminate.
    + apply in_app_or in H as [H | [H | []]]; [contradiction | discriminate].
Qed.

(** The record can be encoded when the title and the summary can. *)
Lemma record_encodable (ls title summary : str) :
  ls = [nl] \/ ls = [cr; nl] ->
  utf8_encodable title = true -> utf8_encodable summary = true ->
  utf8_encodable
    (write_newlines ls (book_record title (with_themes summary))) = true.
Proof.
  intros Hls Ht Hs. apply encodable_written; trivial.
  unfold utf8_encodable, book_record, with_themes in *.
  destruct (contains themes_marker summary);
    cbn [forallb]; repeat rewrite forallb_app; rewrite Ht, Hs; reflexivity.
Qed.

(** [add_book_to_file] on a file that is missing or can be read, when the
    file can be opened for appending and the record can be encoded: the
    record is appended and the cache is rebuilt from the new text. *)
Lemma add_book_run (D : disk) (st : store) (title summary : str) :
  open_append D (books_file st) = Ok tt ->
  (forall detail, books_file st <> Unreadable detail) ->
  utf8_encodable
    (write_newlines (linesep D) (book_record title (with_themes summary)))
  = true ->
  add_book_to_file D title summary st
  = (Ok tt,
     loaded (file_text (books_file st)
             ++ read_appended D (books_file st)
                  (book_record title (with_themes summary)))).
Proof.
  intros Hopen Hf Henc.
  unfold add_book_to_file, bind, append_to_books_file, file_append.
  rewrite Hopen, Henc.
  destruct (books_file st) as [|detail|content] eqn:E.
  - cbn [file_text app]. unfold reload_books_cache, bind, get, put.
    rewrite (load_text _ (read_appended D Absent
                            (book_record title (with_themes summary))));
      reflexivity.
  - now destruct (Hf detail).
  - cbn [file_text]. unfold reload_books_cache, bind, get, put.
    rewrite (load_text _ (content
                          ++ read_appended D (Text content)
                               (book_record title (with_themes summary))));
      reflexivity.
Qed.

Lemma lookup_after_append (prior lead title written : str) :
  title <> [] -> strip title = title -> ~ occurs [nl] title ->
  ~ occurs title_token title -> ~ occurs title_token written ->
  rstrip written <> [] ->
  dict_get title
    (parse (prior ++ lead ++ title_token
            ++ (lit " " ++ title ++ [nl] ++ written ++ [nl])) [])
  = Some (strip written).
Proof.
  intros Hne Hstrip Hnl Ht Hs Hw.
  rewrite app_assoc. unfold parse.
  rewrite sections_snoc by now apply written_section_no_token.
  destruct (written_section title written Hne Hstrip Hnl Hw)
    as [Htitle Hsum].
  rewrite <- Htitle at 1. rewrite parse_get_last. now rewrite Hsum.
Qed.

(** What is returned for a summary that is already trimmed. *)
Lemma strip_with_themes (summary : str) :
  strip summary = summary ->
  (summary <> [] -> strip (with_themes summary) = with_themes summary)
  /\ exists tail, strip (with_themes summary) = summary ++ tail.
Proof.
  intros Hstrip. destruct summary as [|c t].
  - split; [congruence|]. now exists (strip (with_themes [])).
  - assert (Hfix : strip (with_themes (c :: t)) = with_themes (c :: t)).
    { destruct (strip_fixed_inv _ Hstrip ltac:(discriminate))
        as [(c' & t' & [= <- <-] & Hc) Hr].
      unfold with_themes. destruct (contains themes_marker (c :: t)); trivial.
      unfold strip. cbn [app lstrip]. rewrite Hc.
      change (c :: t ++ themes_placeholder)
        with ((c :: t) ++ themes_placeholder).
      now rewrite rstrip_app by discriminate. }
    split; [trivial|]. rewrite Hfix. unfold with_themes.
    destruct (contains themes_marker (c :: t)).
    + exists []. now rewrite app_nil_r.
    + now exists themes_placeholder.
Qed.

(** C7, as amended: let the corpus file be missing or readable and let it
    be possible to open it for appending; let [title] be non-empty, without
    white space at either end, without a newline, without a carriage return
    and without the token "## Title:"; let [summary] not hold the token; and
    let neither hold a surrogate code point, which UTF-8 cannot encode.
    Then [add_book_to_file title summary] appends the record (with the line
    "Main themes: [Add themes here]" behind the summary when the summary has
    no "Main themes:"), rebuilds the cache from the new text, and a
    following lookup of [title] returns the written summary as text mode
    reads it back, trimmed: with every line end of it given as "\n", and so
    unchanged when the summary holds no carriage return.  When [summary] is
    itself trimmed, the written summary starts with [summary], and for a
    non-empty one trimming does not change it. *)
Theorem append_then_lookup (D : disk) (st : store) (title summary : str) :
  open_append D (books_file st) = Ok tt ->
  (forall detail, books_file st <> Unreadable detail) ->
  linesep D = [nl] \/ linesep D = [cr; nl] ->
  utf8_encodable title = true -> utf8_encodable summary = true ->
  title <> [] -> strip title = title ->
  contains [nl] title = false -> contains [cr] title = false ->
  contains title_token title = false ->
  contains title_token summary = false ->
  let written :=
    if contains (lit "Main themes:") summary then summary
    else summary ++ [nl] ++ lit "Main themes: [Add themes here]" in
  let read_back := read_newlines false (write_newlines (linesep D) written) in
  let st1 :=
    loaded (file_text (books_file st)
            ++ read_appended D (books_file st) (book_record title written)) in
  add_book_to_file D title summary st = (Ok tt, st1)
  /\ get_summary_by_title title st1 = (Ok (strip read_back), st1)
  /\ (contains [cr] summary = false -> read_back = written)
  /\ (strip summary = summary ->
      (exists tail, strip written = summary ++ tail)
      /\ (summary <> [] -> strip written = written)).
Proof.
  intros Hopen Hf Hls Het Hes Hne Hstrip Hnl Hcr Ht Hs written read_back st1.
  apply contains_false_iff in Hnl, Ht, Hs. apply not_contains_char in Hcr.
  change written with (with_themes summary) in *. subst st1.
  split; [|split; [|split]].
  - apply add_book_run; trivial. now apply record_encodable.
  - rewrite (lookup_run _ _ _ _ (load_loaded_text _)).
    destruct (record_read_back D (books_file st) title (with_themes summary))
      as (lead & q & _ & -> & Hq & Hvis & Hqt);
      auto using with_themes_letter, with_themes_no_token.
    rewrite lookup_after_append by trivial. now rewrite Hq.
  - intros Hsum. apply not_contains_char in Hsum.
    apply read_written_plain; trivial. unfold with_themes.
    destruct (contains themes_marker summary); trivial.
    intros H. apply in_app_or in H as [H | H]; [contradiction|].
    revert H. vm_compute. intuition discriminate.
  - intros Hfix. destruct (strip_with_themes summary Hfix) as [Hsame Htail].
    now split.
Qed.

Lemma append_then_lookup_witness :
  let st := initial_store (Text (corpus_text [] Samples.two_books)) in
  let st1 :=
    loaded (corpus_text [] Samples.two_books
            ++ book_record (lit "Dune")
                 (lit "A desert planet." ++ [nl]
                  ++ lit "Main themes: [Add themes here]")) in
  add_book_to_file Samples.posix_disk (lit "Dune") (lit "A desert planet.") st
  = (Ok tt, st1)
  /\ get_summary_by_title (lit "Dune") st1
     = (Ok (lit "A desert planet." ++ [nl]
            ++ lit "Main themes: [Add themes here]"), st1).
Proof.
  intros st st1.
  destruct (append_then_lookup Samples.posix_disk st (lit "Dune")
              (lit "A desert planet."))
    as (Hadd & Hget & _).
  - reflexivity.
  - discriminate.
  - now left.
  - reflexivity.
  - reflexivity.
  - discriminate.
  - reflexivity.
  - reflexivity.
  - reflexivity.
  - reflexivity.
  - reflexivity.
  - split; [exact Hadd | exact Hget].
Defined.

(** C7 fails as stated: a title that ends in a space is stored without it,
    so the title appended is not found afterwards. *)
Lemma append_untrimmed_title_lost :
  let st := initial_store Absent in
  let title := lit "Dune " in
  let summary := lit "A desert planet." in
  exists st1 answer,
    add_book_to_file Samples.posix_disk title summary st = (Ok tt, st1)
    /\ fst (get_all_book_titles st1) = Ok [lit "Dune"]
    /\ fst (get_summary_by_title title st1) = Ok answer
    /\ answer = lit "Sorry, I don't have a detailed summary for 'Dune '. Please check the title spelling or ask for a different book. Available books include: Dune..."
    /\ contains summary answer = false.
Proof.
  eexists _, _. repeat split; vm_compute; reflexivity.
Qed.

End BookSummariesFacts.

(* ================================================================== *)
(** * The search index *)
(* ================================================================== *)

Module VectorStoreFacts.
Import VectorStore.

(** [search_books] never raises: a failure of the embedding call or of the
    query is answered by the empty list. *)
Lemma search_books_total (B : backend) (query : str) (n : nat) (w : world) :
  exists hits w', search_books B query n w = (Ok hits, w').
Proof.
  unfold search_books, try_except.
  match goal with
  | |- exists hits w', match ?c with _ => _ end = _ =>
      destruct c as [[hits|detail] w']
  end; unfold ret; eauto.
Qed.

(** C5: on an index that already holds a document, [populate_database]
    returns at once: the state is left as it was, so no embedding call is
    made and no document is added, and nothing is raised.  In particular a
    call that follows a populate which left the index non-empty makes no
    further embedding call. *)
Theorem populate_nonempty_noop (B : backend) :
  (forall (w : world) (f : BookSummaries.file),
     0 < length (collection w) ->
     populate_database B f w = (Ok tt, w))
  /\ (forall (w w1 : world) (f f' : BookSummaries.file),
        populate_database B f w = (Ok tt, w1) ->
        0 < length (collection w1) ->
        exists w2,
          populate_database B f' w1 = (Ok tt, w2)
          /\ filter is_embedding_call (calls w2)
             = filter is_embedding_call (calls w1)
          /\ calls w2 = calls w1
          /\ collection w2 = collection w1).
Proof.
  assert (Hnoop : forall w f, 0 < length (collection w) ->
                              populate_database B f w = (Ok tt, w)).
  { intros w f Hcount. unfold populate_database, try_except, bind, get.
    apply Nat.ltb_lt in Hcount. now rewrite Hcount. }
  split; [exact Hnoop|].
  intros w w1 f f' _ Hcount. exists w1. now rewrite Hnoop.
Qed.

Lemma populate_nonempty_noop_witness :
  let B := Samples.sample_backend Samples.calm Samples.unit_embedding
             (fun _ _ => Samples.connection_error) in
  let f := BookSummaries.Text
             (BookSummaries.corpus_text [] Samples.two_books) in
  exists w1 w2,
    populate_database B f (Samples.fresh_world f) = (Ok tt, w1)
    /\ length (collection w1) = 2
    /\ length (filter is_embedding_call (calls w1)) = 2
    /\ populate_database B f w1 = (Ok tt, w2)
    /\ calls w2 = calls w1
    /\ collection w2 = collection w1.
Proof.
  intros B f.
  destruct (populate_database B f (Samples.fresh_world f)) as [r w1] eqn:E.
  assert (Hr : r = Ok tt) by (vm_compute in E; congruence).
  assert (Hc : length (collection w1) = 2)
    by (vm_compute in E; injection E as _ <-; reflexivity).
  assert (He : length (filter is_embedding_call (calls w1)) = 2)
    by (vm_compute in E; injection E as _ <-; reflexivity).
  subst r.
  destruct (proj2 (populate_nonempty_noop B) (Samples.fresh_world f) w1 f f E)
    as (w2 & H2 & _ & Hcalls & Hcoll).
  - rewrite Hc. lia.
  - exists w1, w2. repeat split; trivial.
Defined.

End VectorStoreFacts.

(* ================================================================== *)
(** * The content filter *)
(* ================================================================== *)

Module FilterServiceFacts.
Import FilterService.

Lemma moderation_logged (B : backend) (text : str) (w : world) :
  snd (contains_inappropriate_content B text w)
  = log_call (EvModeration text) w.
Proof.
  unfold contains_inappropriate_content, try_except, bind, call, first_item.
  destruct (moderations_create B (calls w) text) as [[|b more]|detail];
    reflexivity.
Qed.

(** C6: when the moderation call raises, [contains_inappropriate_content]
    returns [False] and raises nothing; with a classifier that raises on
    every call the verdict is [False] for every text. *)
Theorem moderation_fail_open (B : backend) :
  (forall (w : world) (text detail : str),
     moderations_create B (calls w) text = Raise detail ->
     contains_inappropriate_content B text w
     = (Ok false, log_call (EvModeration text) w))
  /\ ((forall h text, exists detail,
          moderations_create B h text = Raise detail) ->
      forall (w : world) (text : str),
        fst (contains_inappropriate_content B text w) = Ok false)
  /\ (forall (w : world) (text : str),
        exists verdict,
          fst (contains_inappropriate_content B text w) = Ok verdict).
Proof.
  assert (Hone : forall w text detail,
             moderations_create B (calls w) text = Raise detail ->
             contains_inappropriate_content B text w
             = (Ok false, log_call (EvModeration text) w)).
  { intros w text detail H.
    unfold contains_inappropriate_content, try_except, bind, call.
    now rewrite H. }
  repeat split.
  - exact Hone.
  - intros Hall w text. destruct (Hall (calls w) text) as [detail H].
    now rewrite (Hone _ _ _ H).
  - intros w text.
    unfold contains_inappropriate_content, try_except, bind, call, first_item.
    destruct (moderations_create B (calls w) text) as [[|b more]|detail];
      cbn; eauto.
Qed.

Lemma moderation_fail_open_witness :
  let B := Samples.sample_backend (fun _ => Samples.connection_error)
             Samples.unit_embedding (fun _ _ => Samples.connection_error) in
  let w := Samples.fresh_world BookSummaries.Absent in
  let text := lit "Any book about dragons?" in
  contains_inappropriate_content B text w
  = (Ok false, log_call (EvModeration text) w)
  /\ fst (contains_inappropriate_content B text w) = Ok false.
Proof.
  intros B w text. split.
  - apply (proj1 (moderation_fail_open B) w text (lit "Connection error.")).
    reflexivity.
  - apply (proj1 (proj2 (moderation_fail_open B))).
    intros h t. exists (lit "Connection error."). reflexivity.
Defined.

End FilterServiceFacts.

(* ================================================================== *)
(** * The chat pipeline *)
(* ================================================================== *)

Module ChatServiceFacts.
Import FilterService VectorStore ChatService.

Lemma filter_message_flagged (B : backend) (text : str) (w w1 : world) :
  contains_inappropriate_content B text w = (Ok true, w1) ->
  filter_message B text w
  = (Ok (false, nth (random_below B (calls w1) 5 mod 5) polite_responses []),
     log_call (EvRandom 5) w1).
Proof.
  intros H. unfold filter_message, bind. rewrite H. reflexivity.
Qed.

Lemma filter_message_clean (B : backend) (text : str) (w w1 : world) :
  contains_inappropriate_content B text w = (Ok false, w1) ->
  filter_message B text w = (Ok (true, []), w1).
Proof.
  intros H. unfold filter_message, bind. rewrite H. reflexivity.
Qed.

Lemma polite_response_drawn (r : nat) :
  In (nth (r mod 5) polite_responses []) polite_responses.
Proof.
  apply nth_In. change (length polite_responses) with 5.
  apply Nat.mod_upper_bound. discriminate.
Qed.

(** C1: when the content filter flags the message, [chat] returns at once
    the record with [success = True], [filtered = True], no function call,
    no search result and one of the five polite responses as message; the
    only calls made are the moderation call and the random draw, so the
    index is not searched and the chat model is not called. *)
Theorem flagged_short_circuit (B : backend) (w w1 : world)
    (user_message : str) (history : option (list Services.message)) :
  contains_inappropriate_content B user_message w = (Ok true, w1) ->
  exists reply w',
    chat B user_message history w
    = (Ok {| success := true; message := Some reply; filtered := true;
             function_calls := []; search_results := []; error := None |},
       w')
    /\ In reply polite_responses
    /\ length polite_responses = 5
    /\ calls w' = calls w ++ [EvModeration user_message; EvRandom 5]
    /\ (forall ev, In ev [EvModeration user_message; EvRandom 5] ->
          is_search_call ev = false /\ is_chat_call ev = false)
    /\ corpus w' = corpus w /\ collection w' = collection w.
Proof.
  intros Hflag.
  pose proof (FilterServiceFacts.moderation_logged B user_message w) as Hlog.
  rewrite Hflag in Hlog. simpl in Hlog. subst w1.
  eexists _, _. split.
  - unfold chat, try_except, chat_try, bind.
    rewrite (filter_message_flagged _ _ _ _ Hflag). reflexivity.
  - split; [apply polite_response_drawn|]. split; [reflexivity|].
    split; [cbn; now rewrite <- app_assoc|].
    split; [|split; reflexivity].
    intros ev [<-|[<-|[]]]; split; reflexivity.
Qed.

Lemma flagged_short_circuit_witness :
  let B := Samples.sample_backend Samples.alarmed Samples.unit_embedding
             (fun _ _ => Samples.connection_error) in
  let w := Samples.fresh_world BookSummaries.Absent in
  exists w',
    chat B (lit "something rude") None w
    = (Ok {| success := true;
             message := Some (lit "I'm designed to help with book recommendations in a friendly environment. What type of story are you in the mood for?");
             filtered := true; function_calls := []; search_results := [];
             error := None |}, w')
    /\ calls w' = [EvModeration (lit "something rude"); EvRandom 5].
Proof.
  intros B w.
  destruct (flagged_short_circuit B w (log_call (EvModeration (lit "something rude")) w)
              (lit "something rude") None eq_refl)
    as (reply & w' & Hchat & _ & _ & Hcalls & _).
  exists w'. split; [|exact Hcalls].
  rewrite Hchat. f_equal. f_equal.
  assert (E : fst (chat B (lit "something rude") None w)
              = Ok {| success := true;
                      message := Some (nth 2 polite_responses []);
                      filtered := true; function_calls := [];
                      search_results := []; error := None |})
    by reflexivity.
  rewrite Hchat in E. simpl in E. now injection E as ->.
Defined.

(** ** Tool calls *)

Lemma tool_runs_app (B : backend) (calls1 calls2 : list tool_call)
    (w w1 w2 : world) (records1 records2 : list function_call) :
  tool_runs B calls1 w records1 w1 ->
  tool_runs B calls2 w1 records2 w2 ->
  tool_runs B (calls1 ++ calls2) w (records1 ++ records2) w2.
Proof.
  induction 1 as [w|tc rest w wa wb record records Hrun Hrest IH]; intros H2.
  - exact H2.
  - simpl. econstructor; eauto.
Qed.

Lemma process_tool_calls_runs (B : backend) (tcs : list tool_call)
    (w w' : world) (records : list function_call)
    (messages : list Services.message) (function_calls : list function_call) :
  tool_runs B tcs w records w' ->
  process_tool_calls B tcs messages function_calls w
  = (Ok (messages ++ tool_messages tcs records, function_calls ++ records),
     w').
Proof.
  intros Hruns. revert messages function_calls.
  induction Hruns as [w|tc rest w wa wb record records Hrun Hrest IH];
    intros messages function_calls.
  - cbn. unfold ret. now rewrite !app_nil_r.
  - cbn [process_tool_calls]. unfold bind at 1. rewrite Hrun, IH.
    unfold tool_messages. cbn [combine map fst snd].
    now rewrite <- !app_assoc.
Qed.

(** The run of [chat] through the tool branch: the filter lets the message
    pass, both searches return, the model answers the first call with tool
    calls, each of them runs, and the second call returns. *)
Lemma chat_tool_path (B : backend) (w w1 w2 w3 w5 : world)
    (user_message search_context : str)
    (history : option (list Services.message)) (hits : list hit)
    (ai_message final : ai_message) (others others' : list Services.ai_message)
    (records : list function_call) :
  contains_inappropriate_content B user_message w = (Ok false, w1) ->
  _search_books_for_context B user_message 3 w1 = (Ok search_context, w2) ->
  search_books B user_message 3 w2 = (Ok hits, w3) ->
  let messages := build_messages history user_message search_context in
  chat_completions_create B (calls w3) messages true
  = Ok (ai_message :: others) ->
  am_tool_calls ai_message <> [] ->
  tool_runs B (am_tool_calls ai_message) (log_call (EvChat messages true) w3)
            records w5 ->
  let messages' :=
    (messages
     ++ [AssistantToolCalls (am_content ai_message) (am_tool_calls ai_message)])
    ++ tool_messages (am_tool_calls ai_message) records in
  chat_completions_create B (calls w5) messages' false = Ok (final :: others') ->
  chat B user_message history w
  = (Ok {| success := true; message := am_content final; filtered := false;
           function_calls := records;
           search_results :=
             map (fun r => (title r, similarity_score r)) hits;
           error := None |},
     log_call (EvChat messages' false) w5).
Proof.
  intros Hclean Hctx Hhits messages Hfirst Hcalls Hruns messages' Hsecond.
  unfold chat, try_except, chat_try, bind at 1.
  rewrite (filter_message_clean _ _ _ _ Hclean). cbn [negb].
  unfold bind at 1. rewrite Hctx.
  unfold bind at 1. rewrite Hhits.
  fold messages.
  unfold bind at 1. unfold chat_completion at 1, bind at 1, call at 1.
  rewrite Hfirst. cbn [first_item]. unfold ret at 1.
  destruct (am_tool_calls ai_message) as [|tc tcs] eqn:Etcs; [congruence|].
  unfold bind at 1. unfold bind at 1.
  rewrite (process_tool_calls_runs _ _ _ _ _ _ _ Hruns).
  cbn [app]. fold messages'.
  unfold bind at 1. unfold chat_completion, bind at 1, call.
  rewrite Hsecond. reflexivity.
Qed.

Lemma set_corpus_same (w : world) : set_corpus (corpus w) w = w.
Proof. now destruct w. Qed.

Lemma dispatch_unknown (name : str) (arguments : pyval)
    (st : BookSummaries.store) :
  name <> tool_name ->
  _execute_function_call name arguments st
  = (Ok (lit "Unknown function: " ++ name), st).
Proof.
  intros Hne. unfold _execute_function_call.
  apply PyStrFacts.str_eqb_neq in Hne. now rewrite Hne.
Qed.

Lemma run_unknown (B : backend) (tc : tool_call) (arguments : pyval)
    (w : world) :
  tc_name tc <> tool_name ->
  json_loads B (tc_arguments tc) = Ok arguments ->
  run_tool_call B tc w
  = (Ok {| fc_function := tc_name tc; fc_arguments := arguments;
           fc_result := lit "Unknown function: " ++ tc_name tc |}, w).
Proof.
  intros Hne Hargs. unfold run_tool_call, bind, lift_result, on_corpus.
  rewrite Hargs, dispatch_unknown by trivial.
  unfold ret. now rewrite set_corpus_same.
Qed.

Lemma run_without_title (B : backend) (tc : tool_call)
    (items : list (str * pyval)) (w : world) (answer : str)
    (st' : BookSummaries.store) :
  tc_name tc = tool_name ->
  json_loads B (tc_arguments tc) = Ok (PDict items) ->
  List.find (fun kv => str_eqb (fst kv) (lit "title")) items = None ->
  BookSummaries.get_summary_by_title [] (corpus w) = (Ok answer, st') ->
  run_tool_call B tc w
  = (Ok {| fc_function := tool_name; fc_arguments := PDict items;
           fc_result := answer |}, set_corpus st' w).
Proof.
  intros Hname Hargs Hfind Hget.
  unfold run_tool_call, bind, lift_result, on_corpus, _execute_function_call.
  rewrite Hargs, Hname, PyStrFacts.str_eqb_refl.
  unfold bind, lift_result, arguments_get_title. rewrite Hfind.
  cbn [get_summary_by_title_value]. now rewrite Hget.
Qed.

(** C8, as amended: [_execute_function_call] answers every function name
    other than "get_summary_by_title" with the text "Unknown function:
    {name}" and changes nothing.  In the loop of [chat] a tool call with such
    a name whose arguments [json.loads] decodes is recorded with that text as
    result and raises nothing; when the other tool calls of the reply run
    and the second completion call returns, [chat] returns [success = True]
    with the record in [function_calls], at the place of the call. *)
Theorem unknown_function_reported (B : backend) :
  (forall (name : str) (arguments : pyval) (st : BookSummaries.store),
     name <> tool_name ->
     _execute_function_call name arguments st
     = (Ok (lit "Unknown function: " ++ name), st))
  /\ (forall (tc : tool_call) (arguments : pyval) (w : world),
        tc_name tc <> tool_name ->
        json_loads B (tc_arguments tc) = Ok arguments ->
        run_tool_call B tc w
        = (Ok {| fc_function := tc_name tc; fc_arguments := arguments;
                 fc_result := lit "Unknown function: " ++ tc_name tc |}, w))
  /\ (forall (w w1 w2 w3 w4 w5 : world) (user_message search_context : str)
             (history : option (list Services.message)) (hits : list hit)
             (ai_message final : ai_message)
             (others others' : list Services.ai_message)
             (before after : list tool_call) (tc : tool_call)
             (arguments : pyval)
             (records_before records_after : list function_call),
        contains_inappropriate_content B user_message w = (Ok false, w1) ->
        _search_books_for_context B user_message 3 w1
        = (Ok search_context, w2) ->
        search_books B user_message 3 w2 = (Ok hits, w3) ->
        let messages := build_messages history user_message search_context in
        chat_completions_create B (calls w3) messages true
        = Ok (ai_message :: others) ->
        am_tool_calls ai_message = before ++ tc :: after ->
        tc_name tc <> tool_name ->
        json_loads B (tc_arguments tc) = Ok arguments ->
        tool_runs B before (log_call (EvChat messages true) w3)
                  records_before w4 ->
        tool_runs B after w4 records_after w5 ->
        let records :=
          records_before
          ++ {| fc_function := tc_name tc; fc_arguments := arguments;
                fc_result := lit "Unknown function: " ++ tc_name tc |}
             :: records_after in
        let messages' :=
          (messages
           ++ [AssistantToolCalls (am_content ai_message)
                                  (am_tool_calls ai_message)])
          ++ tool_messages (am_tool_calls ai_message) records in
        chat_completions_create B (calls w5) messages' false
        = Ok (final :: others') ->
        chat B user_message history w
        = (Ok {| success := true; message := am_content final;
                 filtered := false; function_calls := records;
                 search_results :=
                   map (fun r => (title r, similarity_score r)) hits;
                 error := None |},
           log_call (EvChat messages' false) w5)).
Proof.
  split; [exact dispatch_unknown|]. split; [exact (run_unknown B)|].
  intros w w1 w2 w3 w4 w5 user_message search_context history hits
    ai_message final others others' before after tc arguments
    records_before records_after Hclean Hctx Hhits messages Hfirst Hcalls
    Hname Hargs Hbefore Hafter records messages' Hsecond.
  apply (chat_tool_path B w w1 w2 w3 w5 user_message search_context history
           hits ai_message final others others' records); trivial.
  - rewrite Hcalls. now destruct before.
  - rewrite Hcalls. apply (tool_runs_app _ _ _ _ w4); trivial.
    econstructor; [|exact Hafter]. now apply run_unknown.
Qed.

Lemma unknown_function_reported_witness :
  let B := Samples.sample_backend Samples.calm Samples.unit_embedding
             (Samples.asking Samples.call_unknown) in
  let w := Samples.fresh_world BookSummaries.Absent in
  exists w',
    chat B (lit "Will it rain?") None w
    = (Ok {| success := true;
             message := Some (lit "Here is what I found.");
             filtered := false;
             function_calls :=
               [{| fc_function := lit "get_weather";
                   fc_arguments := PDict [];
                   fc_result := lit "Unknown function: get_weather" |}];
             search_results := []; error := None |},
       w').
Proof.
  intros B w.
  set (user_message := lit "Will it rain?").
  set (w1 := log_call (EvModeration user_message) w).
  set (w2 := snd (_search_books_for_context B user_message 3 w1)).
  set (w3 := snd (search_books B user_message 3 w2)).
  set (search_context := lit "No relevant books found in the database.").
  set (messages := build_messages None user_message search_context).
  set (w4 := log_call (EvChat messages true) w3).
  eexists.
  exact (proj2 (proj2 (unknown_function_reported B))
           w w1 w2 w3 w4 w4 user_message search_context None []
           {| am_content := None; am_tool_calls := [Samples.call_unknown] |}
           {| am_content := Some (lit "Here is what I found.");
              am_tool_calls := [] |}
           [] [] [] [] Samples.call_unknown (PDict []) [] []
           eq_refl eq_refl eq_refl eq_refl eq_refl
           ltac:(discriminate) eq_refl
           (runs_nil B w4) (runs_nil B w4) eq_refl).
Defined.

(** C8 fails as stated: the arguments are decoded before the name is looked
    at, so a call of an unknown function whose arguments are no JSON text
    fails the request. *)
Lemma unknown_function_undecodable_fails :
  let B := Samples.sample_backend Samples.calm Samples.unit_embedding
             (Samples.asking Samples.call_unknown_undecodable) in
  let w := Samples.fresh_world BookSummaries.Absent in
  str_eqb (tc_name Samples.call_unknown_undecodable) tool_name = false
  /\ fst (chat B (lit "Will it rain?") None w)
     = Ok {| success := false;
             message := Some (lit "I apologize, but I encountered an error: Expecting value: line 1 column 1 (char 0). Please try again.");
             filtered := false; function_calls := []; search_results := [];
             error := Some (lit "Expecting value: line 1 column 1 (char 0)") |}.
Proof. vm_compute. split; reflexivity. Qed.

(** C10, as amended: a call of "get_summary_by_title" whose arguments
    decode to an object without the key "title" is no decoding failure: the
    corpus is looked up under the empty title and the call is recorded with
    what the lookup returns.  That is the not-found message for '' whenever
    the loaded corpus has no entry under the empty title (otherwise it is
    that entry's summary); and when the other tool calls of the reply run
    and the second completion call returns, [chat] returns
    [success = True]. *)
Theorem missing_title_looked_up_empty (B : backend) :
  (forall (tc : tool_call) (items : list (str * pyval)) (w : world),
     tc_name tc = tool_name ->
     json_loads B (tc_arguments tc) = Ok (PDict items) ->
     List.find (fun kv => str_eqb (fst kv) (lit "title")) items = None ->
     exists answer st',
       BookSummaries.get_summary_by_title [] (corpus w) = (Ok answer, st')
       /\ run_tool_call B tc w
          = (Ok {| fc_function := tool_name; fc_arguments := PDict items;
                   fc_result := answer |}, set_corpus st' w)
       /\ forall books,
            BookSummaries._load_books_from_file (corpus w) = (Ok books, st') ->
            BookSummaries.dict_get [] books = None ->
            answer = BookSummaries.not_found_message [] books)
  /\ (forall (w w1 w2 w3 w4 w5 : world) (user_message search_context : str)
             (history : option (list Services.message)) (hits : list hit)
             (ai_message final : ai_message)
             (others others' : list Services.ai_message)
             (before after : list tool_call) (tc : tool_call)
             (items : list (str * pyval)) (answer : str)
             (st' : BookSummaries.store)
             (records_before records_after : list function_call),
        contains_inappropriate_content B user_message w = (Ok false, w1) ->
        _search_books_for_context B user_message 3 w1
        = (Ok search_context, w2) ->
        search_books B user_message 3 w2 = (Ok hits, w3) ->
        let messages := build_messages history user_message search_context in
        chat_completions_create B (calls w3) messages true
        = Ok (ai_message :: others) ->
        am_tool_calls ai_message = before ++ tc :: after ->
        tc_name tc = tool_name ->
        json_loads B (tc_arguments tc) = Ok (PDict items) ->
        List.find (fun kv => str_eqb (fst kv) (lit "title")) items = None ->
        tool_runs B before (log_call (EvChat messages true) w3)
                  records_before w4 ->
        BookSummaries.get_summary_by_title [] (corpus w4) = (Ok answer, st') ->
        tool_runs B after (set_corpus st' w4) records_after w5 ->
        let records :=
          records_before
          ++ {| fc_function := tool_name; fc_arguments := PDict items;
                fc_result := answer |}
             :: records_after in
        let messages' :=
          (messages
           ++ [AssistantToolCalls (am_content ai_message)
                                  (am_tool_calls ai_message)])
          ++ tool_messages (am_tool_calls ai_message) records in
        chat_completions_create B (calls w5) messages' false
        = Ok (final :: others') ->
        chat B user_message history w
        = (Ok {| success := true; message := am_content final;
                 filtered := false; function_calls := records;
                 search_results :=
                   map (fun r => (title r, similarity_score r)) hits;
                 error := None |},
           log_call (EvChat messages' false) w5)).
Proof.
  split.
  - intros tc items w Hname Hargs Hfind.
    destruct (BookSummariesFacts.load_total (corpus w))
      as (books & st' & Hload & _).
    pose proof (BookSummariesFacts.lookup_run _ _ _ [] Hload) as Hget.
    eexists _, st'. split; [exact Hget|]. split.
    + now apply run_without_title.
    + intros books' Hload' Hmiss. rewrite Hload in Hload'.
      injection Hload' as <-. now rewrite Hmiss.
  - intros w w1 w2 w3 w4 w5 user_message search_context history hits
      ai_message final others others' before after tc items answer st'
      records_before records_after Hclean Hctx Hhits messages Hfirst Hcalls
      Hname Hargs Hfind Hbefore Hget Hafter records messages' Hsecond.
    apply (chat_tool_path B w w1 w2 w3 w5 user_message search_context history
             hits ai_message final others others' records); trivial.
    + rewrite Hcalls. now destruct before.
    + rewrite Hcalls. apply (tool_runs_app _ _ _ _ w4); trivial.
      econstructor; [|exact Hafter]. now apply run_without_title.
Qed.

Lemma missing_title_looked_up_empty_witness :
  let B := Samples.sample_backend Samples.calm Samples.unit_embedding
             (Samples.asking Samples.call_without_title) in
  let w := Samples.fresh_world
             (BookSummaries.Text
                (BookSummaries.corpus_text [] Samples.two_books)) in
  exists w',
    chat B (lit "Tell me about that book.") None w
    = (Ok {| success := true;
             message := Some (lit "Here is what I found.");
             filtered := false;
             function_calls :=
               [{| fc_function := lit "get_summary_by_title";
                   fc_arguments := PDict [];
                   fc_result := lit "Sorry, I don't have a detailed summary for ''. Please check the title spelling or ask for a different book. Available books include: 1984, The Hobbit..." |}];
             search_results := []; error := None |},
       w').
Proof.
  intros B w.
  set (user_message := lit "Tell me about that book.").
  set (w1 := log_call (EvModeration user_message) w).
  set (w2 := snd (_search_books_for_context B user_message 3 w1)).
  set (w3 := snd (search_books B user_message 3 w2)).
  set (search_context := lit "No relevant books found in the database.").
  set (messages := build_messages None user_message search_context).
  set (w4 := log_call (EvChat messages true) w3).
  set (st' := BookSummaries.loaded
                (BookSummaries.corpus_text [] Samples.two_books)).
  eexists.
  exact (proj2 (missing_title_looked_up_empty B)
           w w1 w2 w3 w4 (set_corpus st' w4) user_message search_context
           None []
           {| am_content := None;
              am_tool_calls := [Samples.call_without_title] |}
           {| am_content := Some (lit "Here is what I found.");
              am_tool_calls := [] |}
           [] [] [] [] Samples.call_without_title [] _ st' [] []
           eq_refl eq_refl eq_refl eq_refl eq_refl eq_refl eq_refl eq_refl
           (runs_nil B w4) eq_refl (runs_nil B (set_corpus st' w4)) eq_refl).
Defined.

(** C10 fails as stated: with a corpus that has an entry under the empty
    title (a header followed by nothing but white space), the call without
    "title" is answered by that entry's summary, here the empty string, and
    not by the not-found message. *)
Lemma empty_title_entry_found :
  let B := Samples.sample_backend Samples.calm Samples.unit_embedding
             (Samples.asking Samples.call_without_title) in
  let w := Samples.fresh_world (BookSummaries.Text Samples.dangling_header) in
  fst (on_corpus BookSummaries.get_all_book_titles w)
  = Ok [[]; lit "1984"; lit "The Hobbit"]
  /\ json_loads B (tc_arguments Samples.call_without_title) = Ok (PDict [])
  /\ fst (chat B (lit "Tell me about that book.") None w)
     = Ok {| success := true;
             message := Some (lit "Here is what I found.");
             filtered := false;
             function_calls :=
               [{| fc_function := lit "get_summary_by_title";
                   fc_arguments := PDict [];
                   fc_result := [] |}];
             search_results := []; error := None |}
  /\ startswith (lit "Sorry, I don't have a detailed summary for") [] = false.
Proof. vm_compute. repeat split. Qed.

(** ** Failures *)

(** The moderation call and the searches never raise into [chat]: their own
    handlers answer; the chat-completion calls have no handler but the one
    of [chat]. *)
Lemma first_completion_raises (B : backend) (w w1 w2 w3 : world)
    (user_message search_context detail : str)
    (history : option (list Services.message)) (hits : list hit) :
  contains_inappropriate_content B user_message w = (Ok false, w1) ->
  _search_books_for_context B user_message 3 w1 = (Ok search_context, w2) ->
  search_books B user_message 3 w2 = (Ok hits, w3) ->
  let messages := build_messages history user_message search_context in
  chat_completions_create B (calls w3) messages true = Raise detail ->
  chat_try B user_message history w
  = (Raise detail, log_call (EvChat messages true) w3).
Proof.
  intros Hclean Hctx Hhits messages Hfirst.
  unfold chat_try, bind at 1.
  rewrite (filter_message_clean _ _ _ _ Hclean). cbn [negb].
  unfold bind at 1. rewrite Hctx.
  unfold bind at 1. rewrite Hhits.
  fold messages.
  unfold bind at 1. unfold chat_completion at 1, bind at 1, call at 1.
  now rewrite Hfirst.
Qed.

Lemma second_completion_raises (B : backend) (w w1 w2 w3 w5 : world)
    (user_message search_context detail : str)
    (history : option (list Services.message)) (hits : list hit)
    (ai_message : ai_message) (others : list Services.ai_message)
    (records : list function_call) :
  contains_inappropriate_content B user_message w = (Ok false, w1) ->
  _search_books_for_context B user_message 3 w1 = (Ok search_context, w2) ->
  search_books B user_message 3 w2 = (Ok hits, w3) ->
  let messages := build_messages history user_message search_context in
  chat_completions_create B (calls w3) messages true
  = Ok (ai_message :: others) ->
  am_tool_calls ai_message <> [] ->
  tool_runs B (am_tool_calls ai_message) (log_call (EvChat messages true) w3)
            records w5 ->
  let messages' :=
    (messages
     ++ [AssistantToolCalls (am_content ai_message) (am_tool_calls ai_message)])
    ++ tool_messages (am_tool_calls ai_message) records in
  chat_completions_create B (calls w5) messages' false = Raise detail ->
  chat_try B user_message history w
  = (Raise detail, log_call (EvChat messages' false) w5).
Proof.
  intros Hclean Hctx Hhits messages Hfirst Hcalls Hruns messages' Hsecond.
  unfold chat_try, bind at 1.
  rewrite (filter_message_clean _ _ _ _ Hclean). cbn [negb].
  unfold bind at 1. rewrite Hctx.
  unfold bind at 1. rewrite Hhits.
  fold messages.
  unfold bind at 1. unfold chat_completion at 1, bind at 1, call at 1.
  rewrite Hfirst. cbn [first_item]. unfold ret at 1.
  destruct (am_tool_calls ai_message) as [|tc tcs] eqn:Etcs; [congruence|].
  unfold bind at 1. unfold bind at 1.
  rewrite (process_tool_calls_runs _ _ _ _ _ _ _ Hruns).
  cbn [app]. fold messages'.
  unfold bind at 1. unfold chat_completion, bind at 1, call.
  now rewrite Hsecond.
Qed.

(** C2: an exception that leaves the [try] block of [chat], whichever call
    raised it, is turned into the failure record: [success = False],
    [filtered = False], the apology with the exception text as message, no
    function call, no search result, and the text under [error]; [chat]
    itself raises nothing.  That is the case of an exception of the first
    chat-completion call and of one of the second. *)
Theorem failure_record (B : backend) (w : world) (user_message : str)
    (history : option (list Services.message)) :
  (forall (detail : str) (w' : world),
     chat_try B user_message history w = (Raise detail, w') ->
     chat B user_message history w
     = (Ok {| success := false;
              message := Some (lit "I apologize, but I encountered an error: "
                               ++ detail ++ lit ". Please try again.");
              filtered := false; function_calls := []; search_results := [];
              error := Some detail |},
        w'))
  /\ (exists response w', chat B user_message history w = (Ok response, w'))
  /\ (forall (w1 w2 w3 : world) (search_context detail : str)
             (hits : list hit),
        contains_inappropriate_content B user_message w = (Ok false, w1) ->
        _search_books_for_context B user_message 3 w1
        = (Ok search_context, w2) ->
        search_books B user_message 3 w2 = (Ok hits, w3) ->
        chat_completions_create B (calls w3)
          (build_messages history user_message search_context) true
        = Raise detail ->
        exists w',
          chat B user_message history w
          = (Ok {| success := false;
                   message :=
                     Some (lit "I apologize, but I encountered an error: "
                           ++ detail ++ lit ". Please try again.");
                   filtered := false; function_calls := [];
                   search_results := []; error := Some detail |},
             w'))
  /\ (forall (w1 w2 w3 w5 : world) (search_context detail : str)
             (hits : list hit) (ai_message : ai_message)
             (others : list Services.ai_message)
             (records : list function_call),
        contains_inappropriate_content B user_message w = (Ok false, w1) ->
        _search_books_for_context B user_message 3 w1
        = (Ok search_context, w2) ->
        search_books B user_message 3 w2 = (Ok hits, w3) ->
        let messages := build_messages history user_message search_context in
        chat_completions_create B (calls w3) messages true
        = Ok (ai_message :: others) ->
        am_tool_calls ai_message <> [] ->
        tool_runs B (am_tool_calls ai_message)
                  (log_call (EvChat messages true) w3) records w5 ->
        chat_completions_create B (calls w5)
          ((messages
            ++ [AssistantToolCalls (am_content ai_message)
                                   (am_tool_calls ai_message)])
           ++ tool_messages (am_tool_calls ai_message) records) false
        = Raise detail ->
        exists w',
          chat B user_message history w
          = (Ok {| success := false;
                   message :=
                     Some (lit "I apologize, but I encountered an error: "
                           ++ detail ++ lit ". Please try again.");
                   filtered := false; function_calls := [];
                   search_results := []; error := Some detail |},
             w')).
Proof.
  assert (Hcatch : forall detail w',
             chat_try B user_message history w = (Raise detail, w') ->
             chat B user_message history w
             = (Ok {| success := false;
                      message :=
                        Some (lit "I apologize, but I encountered an error: "
                              ++ detail ++ lit ". Please try again.");
                      filtered := false; function_calls := [];
                      search_results := []; error := Some detail |},
                w')).
  { intros detail w' H. unfold chat, try_except. now rewrite H. }
  split; [exact Hcatch|]. split; [|split].
  - unfold chat, try_except.
    destruct (chat_try B user_message history w) as [[r|detail] w'];
      unfold ret; eauto.
  - intros w1 w2 w3 search_context detail hits Hclean Hctx Hhits Hfirst.
    eexists. apply Hcatch.
    now apply (first_completion_raises B w w1 w2 w3 user_message
                 search_context detail history hits).
  - intros w1 w2 w3 w5 search_context detail hits ai_message others records
      Hclean Hctx Hhits messages Hfirst Hcalls Hruns Hsecond.
    eexists. apply Hcatch.
    now apply (second_completion_raises B w w1 w2 w3 w5 user_message
                 search_context detail history hits ai_message others
                 records).
Qed.

Lemma failure_record_witness :
  let B := Samples.sample_backend Samples.calm Samples.unit_embedding
             (fun _ _ => Samples.connection_error) in
  let w := Samples.fresh_world BookSummaries.Absent in
  exists w',
    chat B (lit "A book about the sea?") None w
    = (Ok {| success := false;
             message := Some (lit "I apologize, but I encountered an error: Connection error.. Please try again.");
             filtered := false; function_calls := []; search_results := [];
             error := Some (lit "Connection error.") |},
       w').
Proof.
  intros B w. eexists.
  apply (proj1 (failure_record B w (lit "A book about the sea?") None)
           (lit "Connection error.")).
  vm_compute. reflexivity.
Defined.

End ChatServiceFacts.

(* ================================================================== *)
(** * The corpus store over a session *)
(* ================================================================== *)

Module SessionFacts.
Import PyStrFacts BookSummaries BookSummariesFacts Sessions.

Lemma load_coherent (st : store) :
  coherent st ->
  exists st',
    _load_books_from_file st = (Ok (cache_of_file (books_file st)), st')
    /\ coherent st' /\ cache_loaded st' = true
    /\ books_file st' = books_file st.
Proof.
  unfold coherent. intros Hc. destruct (cache_loaded st) eqn:Hl.
  - exists st. rewrite load_loaded, Hc by trivial. now rewrite Hl.
  - destruct (books_file st) as [|detail|content] eqn:Hf.
    + exists (set_loaded true st). rewrite load_no_text by auto.
      cbn. now rewrite Hc, Hf.
    + exists (set_loaded true st). rewrite load_no_text by eauto.
      cbn. now rewrite Hc, Hf.
    + eexists. rewrite (load_text _ content), Hc by trivial.
      split; [reflexivity|]. cbn. now rewrite Hf.
Qed.

Lemma reload_coherent (st : store) :
  exists st',
    reload_books_cache st = (Ok tt, st')
    /\ coherent st' /\ cache_loaded st' = true
    /\ books_file st' = books_file st.
Proof.
  destruct (load_coherent (set_cache [] (set_loaded false st)) eq_refl)
    as (st' & Hload & Hc & Hl & Hf).
  exists st'. unfold reload_books_cache, bind, get, put.
  now rewrite Hload.
Qed.

(** An append keeps the cache in step with the file, whether it returns
    or raises: it reloads the cache when it has written, and leaves the
    cache alone when it has not. *)
Lemma append_coherent (D : disk) (st : store) (title summary : str) :
  coherent st -> coherent (snd (add_book_to_file D title summary st)).
Proof.
  intros Hc. unfold add_book_to_file, bind, append_to_books_file, file_append.
  destruct (open_append D (books_file st)) as [[]|detail]; [|exact Hc].
  destruct (utf8_encodable _).
  - match goal with
    | |- context [reload_books_cache ?s] =>
        destruct (reload_coherent s) as (st' & Hr & Hc' & _)
    end.
    now rewrite Hr.
  - cbn [snd]. unfold coherent in *. cbn [books_cache cache_loaded books_file set_file].
    now destruct (books_file st).
Qed.

Lemma perform_coherent (D : disk) (o : operation) (st : store) :
  coherent st -> coherent (perform D o st).
Proof.
  intros Hc. destruct o as [title| | | |title summary]; cbn [perform].
  - destruct (load_coherent st Hc) as (st' & Hload & Hc' & _).
    now rewrite (lookup_run _ _ _ _ Hload).
  - destruct (load_coherent st Hc) as (st' & Hload & Hc' & _).
    now rewrite (titles_run _ _ _ Hload).
  - destruct (load_coherent st Hc) as (st' & Hload & Hc' & _).
    now rewrite (count_run _ _ _ Hload).
  - destruct (reload_coherent st) as (st' & Hr & Hc' & _). now rewrite Hr.
  - now apply append_coherent.
Qed.

(** X1: whatever calls a process has made since it started on the file
    [f], appends that failed included, the cache is empty or holds exactly
    what the current file parses to; so a lookup and the title list are
    those a fresh process would give on the current file. *)
Theorem cache_transparent (D : disk) (f : file) (ops : list operation)
    (title : str) :
  let st := perform_all D ops (initial_store f) in
  coherent st
  /\ fst (get_summary_by_title title st)
     = fst (get_summary_by_title title (initial_store (books_file st)))
  /\ fst (get_all_book_titles st)
     = fst (get_all_book_titles (initial_store (books_file st))).
Proof.
  intros st.
  assert (Hc : coherent st).
  { subst st. unfold perform_all.
    assert (H0 : coherent (initial_store f)) by reflexivity.
    revert H0. generalize (initial_store f).
    induction ops as [|o ops IH]; intros s Hs; [exact Hs|].
    cbn [fold_left]. apply IH. now apply perform_coherent. }
  split; [exact Hc|].
  destruct (load_coherent st Hc) as (st' & Hload & _).
  destruct (load_coherent (initial_store (books_file st)) eq_refl)
    as (st0 & Hload0 & _).
  cbn [books_file initial_store] in Hload0.
  rewrite (lookup_run _ _ _ _ Hload), (lookup_run _ _ _ _ Hload0).
  rewrite (titles_run _ _ _ Hload), (titles_run _ _ _ Hload0).
  split; reflexivity.
Qed.

(** X2: once the cache is loaded, a change of the file is not seen by a
    lookup; after [reload_books_cache] the lookup answers as a fresh process
    would on the new file. *)
Theorem stale_until_reload (st : store) (f' : file) (title : str) :
  cache_loaded st = true ->
  fst (get_summary_by_title title (set_file f' st))
  = fst (get_summary_by_title title st)
  /\ fst (get_summary_by_title title
            (snd (reload_books_cache (set_file f' st))))
     = fst (get_summary_by_title title (initial_store f')).
Proof.
  intros Hl. split.
  - rewrite (lookup_run _ _ _ _ (load_loaded (set_file f' st) Hl)).
    now rewrite (lookup_run _ _ _ _ (load_loaded st Hl)).
  - destruct (reload_coherent (set_file f' st)) as (st' & Hr & Hc & Hl' & Hf).
    rewrite Hr. cbn [snd].
    destruct (load_coherent st' Hc) as (st2 & Hload & _).
    destruct (load_coherent (initial_store f') eq_refl) as (st0 & Hload0 & _).
    rewrite (lookup_run _ _ _ _ Hload), (lookup_run _ _ _ _ Hload0).
    now rewrite Hf.
Qed.

Lemma stale_until_reload_witness :
  let old := Text (corpus_text [] Samples.two_books) in
  let new := Text (corpus_text [] Samples.six_books) in
  let st := loaded (corpus_text [] Samples.two_books) in
  fst (get_summary_by_title (lit "Emma") (set_file new st))
  = fst (get_summary_by_title (lit "Emma") st)
  /\ fst (get_summary_by_title (lit "Emma")
            (snd (reload_books_cache (set_file new st))))
     = Ok (lit "A matchmaker learns her limits.").
Proof.
  intros old new st.
  destruct (stale_until_reload st new (lit "Emma") eq_refl) as [H1 H2].
  split; [exact H1|]. rewrite H2. reflexivity.
Defined.

(** ** What an appended record leaves in place *)

Lemma find_app_char (sep a : str) (c : char) :
  sep <> [] -> ~ In c sep -> find sep (a ++ [c]) = find sep a.
Proof.
  intros Hsep Hc. destruct (find sep a) as [i|] eqn:E.
  - now apply find_app_l.
  - apply find_None_iff. intros Hocc.
    apply occurs_app_char in Hocc as [Hocc|Hocc]; trivial.
    + now apply find_None_iff in E.
    + now apply occurs_nil_inv in Hocc.
Qed.

(** A character that the separator does not hold, put at the end of the
    text, ends up at the end of the last part and nowhere else. *)
Lemma split_app_char (sep a : str) (c : char) :
  sep <> [] -> ~ In c sep ->
  Forall2 (fun x y => x = y \/ x = y ++ [c])
          (split sep (a ++ [c])) (split sep a).
Proof.
  intros Hsep Hc. remember (length a) as n eqn:Hn. revert a Hn.
  induction n as [n IH] using lt_wf_ind. intros a Hn.
  rewrite (split_eq sep (a ++ [c])), (split_eq sep a) by trivial.
  rewrite find_app_char by trivial.
  destruct (find sep a) as [i|] eqn:E.
  - pose proof (find_Some_length _ _ _ E) as Hlen.
    assert (0 < length sep) by (destruct sep; [congruence | simpl; lia]).
    constructor.
    + left. rewrite firstn_app.
      replace (i - length a) with 0 by lia. simpl. apply app_nil_r.
    + rewrite skipn_app.
      replace (i + length sep - length a) with 0 by lia. simpl skipn.
      apply (IH (length (skipn (i + length sep) a))); trivial.
      rewrite length_skipn. lia.
  - constructor; [now right | constructor].
Qed.

Lemma fold_add_book_same_lines (l1 l2 : list str) (cache : dict) :
  Forall2 (fun x y => book_lines x = book_lines y) l1 l2 ->
  fold_left add_book l1 cache = fold_left add_book l2 cache.
Proof.
  intros H. revert cache. induction H as [|x y l1 l2 Hxy _ IH]; intros cache;
    [reflexivity|].
  cbn [fold_left]. rewrite IH. f_equal.
  unfold add_book, book_title, book_summary. now rewrite Hxy.
Qed.

(** A newline at the end of the text does not change what is parsed. *)
Lemma parse_app_nl (prior : str) (cache : dict) :
  parse (prior ++ [nl]) cache = parse prior cache.
Proof.
  unfold parse, sections. apply fold_add_book_same_lines.
  assert (Hnl : ~ In nl title_token) by (vm_compute; intuition discriminate).
  pose proof (split_app_char title_token prior nl title_token_not_nil Hnl)
    as H.
  destruct H as [|x y l1 l2 _ H]; cbn [skipn]; [constructor|].
  induction H as [|x' y' l1 l2 [->| ->] _ IH]; constructor; trivial.
  unfold book_lines. now rewrite strip_app_space.
Qed.

Lemma parse_appended (prior lead title written : str) :
  lead = [nl] \/ lead = [] ->
  title <> [] -> strip title = title -> ~ occurs [nl] title ->
  ~ occurs title_token title -> ~ occurs title_token written ->
  rstrip written <> [] ->
  parse (prior ++ lead ++ title_token
         ++ (lit " " ++ title ++ [nl] ++ written ++ [nl])) []
  = dict_set title (strip written) (parse prior []).
Proof.
  intros Hlead Hne Hstrip Hnl Ht Hs Hw.
  rewrite app_assoc. unfold parse at 1.
  rewrite sections_snoc by now apply written_section_no_token.
  rewrite fold_left_app. cbn [fold_left]. rewrite add_book_eq.
  destruct (written_section title written Hne Hstrip Hnl Hw) as [-> ->].
  f_equal. fold (parse (prior ++ lead) []).
  destruct Hlead as [-> | ->]; [apply parse_app_nl | now rewrite app_nil_r].
Qed.

(** X3: under the conditions on [title] and [summary] of the round trip,
    [add_book_to_file] changes the cache as one assignment
    [cache[title] = summary] would, the summary being the written one as
    text mode reads it back, trimmed: every other title keeps its summary
    and its place, a title already present keeps its place, a new one comes
    last. *)
Theorem append_keeps_others (D : disk) (st : store) (title summary : str) :
  open_append D (books_file st) = Ok tt ->
  (forall detail, books_file st <> Unreadable detail) ->
  linesep D = [nl] \/ linesep D = [cr; nl] ->
  utf8_encodable title = true -> utf8_encodable summary = true ->
  title <> [] -> strip title = title ->
  contains [nl] title = false -> contains [cr] title = false ->
  contains title_token title = false ->
  contains title_token summary = false ->
  let before := cache_of_file (books_file st) in
  let st1 := snd (add_book_to_file D title summary st) in
  let stored :=
    strip (read_newlines false
             (write_newlines (linesep D) (with_themes summary))) in
  books_cache st1 = dict_set title stored before
  /\ (forall other, other <> title ->
        dict_get other (books_cache st1) = dict_get other before)
  /\ (In title (dict_keys before) ->
        dict_keys (books_cache st1) = dict_keys before)
  /\ (~ In title (dict_keys before) ->
        dict_keys (books_cache st1) = dict_keys before ++ [title])
  /\ (contains [cr] summary = false -> stored = strip (with_themes summary)).
Proof.
  intros Hopen Hf Hls Het Hes Hne Hstrip Hnl Hcr Ht Hs before st1 stored.
  apply contains_false_iff in Hnl, Ht, Hs. apply not_contains_char in Hcr.
  assert (Hcache : books_cache st1 = dict_set title stored before).
  { subst st1 before stored.
    rewrite add_book_run by (trivial; now apply record_encodable).
    cbn [snd]. change (books_cache (loaded ?c)) with (parse c []).
    destruct (record_read_back D (books_file st) title (with_themes summary))
      as (lead & q & Hlead & -> & Hq & Hvis & Hqt);
      auto using with_themes_letter, with_themes_no_token.
    rewrite parse_appended by trivial. rewrite Hq.
    now destruct (books_file st). }
  split; [exact Hcache|]. rewrite Hcache. repeat split.
  - intros other Hother. apply dict_get_set_other. congruence.
  - apply dict_keys_set_present.
  - apply dict_keys_set_fresh.
  - intros Hsum. apply not_contains_char in Hsum. subst stored. f_equal.
    apply read_written_plain; trivial. unfold with_themes.
    destruct (contains themes_marker summary); trivial.
    intros H. apply in_app_or in H as [H | H]; [contradiction|].
    revert H. vm_compute. intuition discriminate.
Qed.

Lemma append_keeps_others_witness :
  let st := initial_store (Text (corpus_text [] Samples.two_books)) in
  let st1 :=
    snd (add_book_to_file Samples.windows_disk (lit "1984")
           (lit "Rewritten.") st) in
  fst (get_all_book_titles st1) = Ok [lit "1984"; lit "The Hobbit"]
  /\ dict_get (lit "The Hobbit") (books_cache st1)
     = Some (lit "A hobbit leaves home for an adventure.")
  /\ dict_get (lit "1984") (books_cache st1)
     = Some (lit "Rewritten." ++ [nl] ++ lit "Main themes: [Add themes here]").
Proof.
  intros st st1.
  assert (Hf : forall detail, books_file st <> Unreadable detail)
    by discriminate.
  assert (Hne : lit "1984" <> []) by discriminate.
  assert (Hls : linesep Samples.windows_disk = [nl]
                \/ linesep Samples.windows_disk = [cr; nl]) by now right.
  destruct (append_keeps_others Samples.windows_disk st (lit "1984")
              (lit "Rewritten.") eq_refl Hf Hls eq_refl eq_refl Hne
              eq_refl eq_refl eq_refl eq_refl eq_refl)
    as (Hcache & Hother & Hkeys & _).
  fold st1 in Hcache, Hother, Hkeys. split; [|split].
  - assert (Hl : cache_loaded st1 = true) by reflexivity.
    rewrite (titles_run _ _ _ (load_loaded st1 Hl)), Hkeys; [reflexivity|].
    vm_compute. now left.
  - rewrite Hother; [reflexivity | discriminate].
  - rewrite Hcache. reflexivity.
Defined.

(** ** Appends that fail *)






(** ** The entries read for the index *)

Lemma vectorization_text (content : str) :
  load_book_summaries_for_vectorization (Text content)
  = map vector_entry (sections content).
Proof.
  unfold load_book_summaries_for_vectorization. cbn [file_exists negb file_read].
  induction (sections content) as [|book books IH]; [reflexivity|].
  cbn [flat_map map]. rewrite IH.
  destruct (book_lines book) eqn:E; [|reflexivity].
  now apply book_lines_not_nil in E.
Qed.

(** X4: [load_book_summaries_for_vectorization] returns one entry per
    section, in order, sections of one title included, and nothing for a
    file that is missing or cannot be read.  The titles of its entries are
    the titles of the corpus store, which may be fewer; when they are
    pairwise distinct each entry carries the summary the store returns. *)
Theorem vectorization_entries (content : str) :
  let entries := load_book_summaries_for_vectorization (Text content) in
  let store_titles := dict_keys (parse content []) in
  entries = map vector_entry (sections content)
  /\ length entries = length (sections content)
  /\ (forall t, In t store_titles <-> In t (map entry_title entries))
  /\ length store_titles <= length entries
  /\ (NoDup (map entry_title entries) ->
      map entry_title entries = store_titles
      /\ forall e, In e entries ->
           dict_get (entry_title e) (parse content [])
           = Some (entry_summary e))
  /\ load_book_summaries_for_vectorization Absent = []
  /\ forall detail,
       load_book_summaries_for_vectorization (Unreadable detail) = [].
Proof.
  intros entries store_titles.
  assert (He : entries = map vector_entry (sections content))
    by apply vectorization_text.
  assert (Ht : map entry_title entries = map book_title (sections content)).
  { rewrite He, map_map. reflexivity. }
  destruct (parse_entries (sections content) [] (NoDup_nil _)) as [Hnd Hin].
  fold (parse content []) in Hnd, Hin. fold store_titles in Hnd, Hin.
  split; [exact He|]. split; [rewrite He; apply length_map|].
  split; [intros t; rewrite Ht, Hin; simpl; tauto|].
  split.
  { rewrite <- (length_map entry_title), Ht.
    apply NoDup_incl_length; trivial.
    intros t H. apply Hin in H. now destruct H. }
  split; [|split; reflexivity].
  intros Hdistinct. rewrite Ht in Hdistinct. split.
  - rewrite Ht. subst store_titles. unfold parse.
    now rewrite parse_keys.
  - intros e Hin_e. rewrite He in Hin_e. apply in_map_iff in Hin_e
      as (book & <- & Hbook).
    cbn [vector_entry entry_title entry_summary]. unfold parse.
    now apply parse_get.
Qed.

Lemma vectorization_entries_witness :
  let content := corpus_text [] Samples.same_title_twice in
  length (load_book_summaries_for_vectorization (Text content)) = 2
  /\ length (dict_keys (parse content [])) <= 2
  /\ fst (get_books_count (initial_store (Text content))) = Ok 1.
Proof.
  intros content.
  destruct (vectorization_entries content) as (_ & Hlen & _ & Hle & _).
  split; [rewrite Hlen; reflexivity|]. split; [|reflexivity].
  rewrite Hlen in Hle. exact Hle.
Defined.

End SessionFacts.

(* ================================================================== *)
(** * Populating, searching and resetting the index *)
(* ================================================================== *)

Module IndexFacts.
Import BookSummaries VectorStore Administration.

Lemma embedding_run (B : backend) (text : str) (w : world) :
  _get_openai_embedding B text w
  = (match embeddings_create B (calls w) text with
     | Ok (e :: _) => Ok e
     | Ok [] => Raise (lit "list index out of range")
     | Raise detail => Raise detail
     end, log_call (EvEmbedding text) w).
Proof.
  unfold _get_openai_embedding, try_except, bind, call, first_item.
  destruct (embeddings_create B (calls w) text) as [[|e rest]|detail];
    reflexivity.
Qed.

(** The loop over the entries touches neither the collection nor the
    corpus; it makes one embedding call per entry until one fails. *)
Lemma embed_entries_run (B : backend) (entries : list book_entry) (i : nat)
    (w w' : world) (r : result (list document)) :
  embed_entries B i entries w = (r, w') ->
  exists k,
    k <= length entries
    /\ collection w' = collection w
    /\ corpus w' = corpus w
    /\ calls w' = calls w ++ embedding_calls (firstn k entries)
    /\ match r with
       | Ok docs =>
           k = length entries
           /\ exists embeddings,
                length embeddings = length entries
                /\ docs = documents_from i embeddings entries
       | Raise _ => 0 < k
       end.
Proof.
  revert i w w' r. induction entries as [|entry entries IH]; intros i w w' r E.
  - injection E as <- <-. exists 0. cbn. rewrite app_nil_r.
    repeat split; trivial. now exists [].
  - cbn [embed_entries] in E. unfold bind at 1 in E.
    rewrite embedding_run in E.
    destruct (embeddings_create B (calls w) (entry_content entry))
      as [[|e rest]|detail].
    + injection E as <- <-. exists 1. cbn.
      repeat split; try reflexivity; lia.
    + unfold bind at 1 in E.
      destruct (embed_entries B (S i) entries
                  (log_call (EvEmbedding (entry_content entry)) w))
        as [[docs|detail] w1] eqn:E1;
        destruct (IH _ _ _ _ E1) as (k & Hk & Hcoll & Hcorp & Hcalls & Hres);
        injection E as <- <-; exists (S k);
        rewrite Hcoll, Hcorp, Hcalls;
        cbn [log_call collection corpus calls firstn embedding_calls map length];
        rewrite <- app_assoc.
      * split; [lia|]. split; [reflexivity|]. split; [reflexivity|].
        split; [reflexivity|]. split; [lia|].
        destruct Hres as (_ & embeddings & Hlen & ->).
        exists (e :: embeddings). cbn [length]. split; [lia|]. reflexivity.
      * repeat split; try reflexivity; lia.
    + injection E as <- <-. exists 1. cbn.
      repeat split; try reflexivity; lia.
Qed.

Lemma documents_from_shape (entries : list book_entry)
    (embeddings : list (list float)) (i : nat) :
  length embeddings = length entries ->
  length (documents_from i embeddings entries) = length entries
  /\ map doc_id (documents_from i embeddings entries)
     = map (fun i => lit "book_" ++ str_of_Z (Z.of_nat i))
           (seq i (length entries))
  /\ map doc_text (documents_from i embeddings entries)
     = map entry_content entries.
Proof.
  unfold documents_from. revert embeddings i.
  induction entries as [|entry rest IH]; intros embeddings i Hlen.
  - now destruct embeddings.
  - destruct embeddings as [|e embeddings]; [discriminate|].
    injection Hlen as Hlen. destruct (IH embeddings (S i) Hlen)
      as (H1 & H2 & H3).
    cbn [length seq combine map fst snd document_of doc_id doc_text].
    now rewrite H1, H2, H3.
Qed.

(** With a service that always answers, the loop cannot raise. *)
Lemma embed_entries_answers (B : backend) (entries : list book_entry)
    (i : nat) (w w' : world) (detail : str) :
  (forall h text, exists e rest, embeddings_create B h text = Ok (e :: rest)) ->
  embed_entries B i entries w <> (Raise detail, w').
Proof.
  intros Hembed. revert i w.
  induction entries as [|entry rest IH]; intros i w E; [discriminate|].
  cbn [embed_entries] in E. unfold bind at 1 in E.
  rewrite embedding_run in E.
  destruct (Hembed (calls w) (entry_content entry)) as (e & more & He).
  rewrite He in E. unfold bind at 1 in E.
  destruct (embed_entries B (S i) rest
              (log_call (EvEmbedding (entry_content entry)) w))
    as [[docs|d] w2] eqn:E2; [discriminate|].
  injection E as -> ->. now apply (IH _ _ E2).
Qed.

Lemma populate_empty_run (B : backend) (w : world) (f : file) :
  collection w = [] ->
  (forall h text, exists e rest, embeddings_create B h text = Ok (e :: rest)) ->
  let entries := load_book_summaries_for_vectorization f in
  exists embeddings w',
    populate_database B f w = (Ok tt, w')
    /\ length embeddings = length entries
    /\ collection w' = documents_from 0 embeddings entries
    /\ calls w' = calls w ++ embedding_calls entries
    /\ corpus w' = corpus w.
Proof.
  intros Hempty Hembed entries.
  unfold populate_database, try_except, bind at 1, get.
  rewrite Hempty. cbn [length Nat.ltb Nat.leb].
  fold entries. destruct entries as [|entry rest] eqn:Eentries.
  - exists [], w. unfold ret. cbn. rewrite app_nil_r, Hempty.
    repeat split; reflexivity.
  - rewrite <- Eentries in *. clear Eentries entry rest.
    unfold bind. destruct (embed_entries B 0 entries w)
      as [[docs|detail] w1] eqn:E.
    + destruct (embed_entries_run B entries 0 w w1 _ E)
        as (k & Hk & Hcoll & Hcorp & Hcalls & Hres).
      destruct Hres as (-> & embeddings & Hlen & ->).
      rewrite firstn_all in Hcalls.
      exists embeddings. eexists. unfold collection_add, bind, get, put.
      split; [reflexivity|]. cbn [set_collection collection calls corpus].
      rewrite Hcoll, Hempty. cbn [app]. now repeat split.
    + now apply embed_entries_answers in E.
Qed.

(** X5: on an empty index, with an embedding service that answers every
    request, [populate_database] stores one document per entry of the file,
    in order, under the ids "book_0", "book_1", ..., holding the entry's
    title, summary and text "Title: {title}\n{summary}"; it makes exactly one
    embedding call per entry, on that text, and changes nothing else. *)
Theorem populate_fills_empty_index (B : backend) (w : world) (f : file) :
  collection w = [] ->
  (forall h text, exists e rest, embeddings_create B h text = Ok (e :: rest)) ->
  let entries := load_book_summaries_for_vectorization f in
  exists embeddings w',
    populate_database B f w = (Ok tt, w')
    /\ length embeddings = length entries
    /\ collection w' = documents_from 0 embeddings entries
    /\ length (collection w') = length entries
    /\ map doc_id (collection w')
       = map (fun i => lit "book_" ++ str_of_Z (Z.of_nat i))
             (seq 0 (length entries))
    /\ map doc_text (collection w') = map entry_content entries
    /\ calls w' = calls w ++ embedding_calls entries
    /\ corpus w' = corpus w.
Proof.
  intros Hempty Hembed entries.
  destruct (populate_empty_run B w f Hempty Hembed)
    as (embeddings & w' & Hrun & Hlen & Hcoll & Hcalls & Hcorpus).
  destruct (documents_from_shape entries embeddings 0 Hlen) as (H1 & H2 & H3).
  exists embeddings, w'. rewrite Hcoll. now repeat split.
Qed.

Lemma populate_fills_empty_index_witness :
  let B := Samples.sample_backend Samples.calm Samples.unit_embedding
             (fun _ _ => Samples.connection_error) in
  let f := Text (corpus_text [] Samples.six_books) in
  exists w',
    populate_database B f (Samples.fresh_world f) = (Ok tt, w')
    /\ length (collection w') = 6
    /\ map doc_title (collection w')
       = [lit "1984"; lit "The Hobbit"; lit "Dune"; lit "Emma";
          lit "Ulysses"; lit "Walden"]
    /\ map doc_id (collection w')
       = [lit "book_0"; lit "book_1"; lit "book_2"; lit "book_3";
          lit "book_4"; lit "book_5"].
Proof.
  intros B f.
  destruct (populate_fills_empty_index B (Samples.fresh_world f) f eq_refl)
    as (embeddings & w' & Hrun & Hlen & Hcoll & Hcount & Hids & _).
  - intros h text. now exists [1%float; 0%float], [].
  - exists w'. split; [exact Hrun|]. split; [exact Hcount|].
    split; [|exact Hids].
    rewrite Hcoll. unfold documents_from. rewrite map_map.
    cbn [fst snd document_of doc_title].
    do 7 (destruct embeddings as [|? embeddings]; try discriminate Hlen).
    reflexivity.
Defined.

Lemma populate_raise_frame (B : backend) (w w' : world) (f : file)
    (detail : str) :
  populate_database B f w = (Raise detail, w') ->
  collection w' = collection w /\ corpus w' = corpus w.
Proof.
  unfold populate_database, try_except, bind at 1, get.
  destruct (0 <? length (collection w)); [discriminate|].
  destruct (load_book_summaries_for_vectorization f) as [|entry rest];
    [discriminate|].
  unfold bind at 1.
  destruct (embed_entries B 0 (entry :: rest) w) as [[docs|d] w1] eqn:E.
  - unfold collection_add, bind, get, put. discriminate.
  - unfold raise. intros [= <- <-].
    destruct (embed_entries_run B _ 0 w w1 _ E) as (k & _ & Hc & Hs & _).
    now split.
Qed.

Lemma populate_first_failure (B : backend) (w : world) (f : file)
    (entry : book_entry) (rest : list book_entry) (detail : str) :
  collection w = [] ->
  load_book_summaries_for_vectorization f = entry :: rest ->
  embeddings_create B (calls w) (entry_content entry) = Raise detail ->
  populate_database B f w
  = (Raise detail, log_call (EvEmbedding (entry_content entry)) w).
Proof.
  intros Hempty Hentries Hfail.
  unfold populate_database, try_except, bind at 1, get.
  rewrite Hempty, Hentries. cbn [length Nat.ltb Nat.leb].
  unfold bind at 1. cbn [embed_entries]. unfold bind at 1.
  rewrite embedding_run, Hfail. reflexivity.
Qed.

(** X6: [populate_database] adds its documents in one step after the last
    embedding: a run that raises has added nothing and has not touched the
    corpus.  On an empty index with at least one entry, a failure of the
    first embedding call is raised to the caller after that single call. *)
Theorem populate_all_or_nothing (B : backend) (w : world) (f : file) :
  (forall detail w',
     populate_database B f w = (Raise detail, w') ->
     collection w' = collection w /\ corpus w' = corpus w)
  /\ (forall entry rest detail,
        collection w = [] ->
        load_book_summaries_for_vectorization f = entry :: rest ->
        embeddings_create B (calls w) (entry_content entry) = Raise detail ->
        populate_database B f w
        = (Raise detail, log_call (EvEmbedding (entry_content entry)) w)).
Proof.
  split.
  - intros detail w'. apply populate_raise_frame.
  - intros entry rest detail. apply populate_first_failure.
Qed.

Lemma populate_all_or_nothing_witness :
  let B := Samples.sample_backend Samples.calm
             (fun _ => Samples.connection_error)
             (fun _ _ => Samples.connection_error) in
  let f := Text (corpus_text [] Samples.two_books) in
  exists w',
    populate_database B f (Samples.fresh_world f)
    = (Raise (lit "Connection error."), w')
    /\ collection w' = []
    /\ length (calls w') = 1.
Proof.
  intros B f. eexists. split; [|split].
  - eapply (proj2 (populate_all_or_nothing B (Samples.fresh_world f) f));
      reflexivity.
  - reflexivity.
  - reflexivity.
Defined.

Lemma search_books_run (B : backend) (query : str) (n : nat) (w : world) :
  search_books B query n w
  = match embeddings_create B (calls w) query with
    | Ok (e :: _) =>
        (match collection_query B (calls w ++ [EvEmbedding query])
                 (collection w) e n with
         | Ok rows => Ok (map hit_of_row rows)
         | Raise _ => Ok []
         end,
         log_call (EvQuery e n) (log_call (EvEmbedding query) w))
    | _ => (Ok [], log_call (EvEmbedding query) w)
    end.
Proof.
  unfold search_books, try_except, bind at 1. rewrite embedding_run.
  destruct (embeddings_create B (calls w) query) as [[|e rest]|detail];
    try reflexivity.
  unfold bind, get, call. cbn [log_call calls collection].
  destruct (collection_query B (calls w ++ [EvEmbedding query])
              (collection w) e n); reflexivity.
Qed.

Lemma search_books_frame (B : backend) (query : str) (n : nat) (w : world) :
  exists hits w',
    search_books B query n w = (Ok hits, w')
    /\ collection w' = collection w /\ corpus w' = corpus w
    /\ (calls w' = calls w ++ [EvEmbedding query]
        \/ exists e, calls w' = calls w ++ [EvEmbedding query; EvQuery e n]).
Proof.
  rewrite search_books_run.
  destruct (embeddings_create B (calls w) query) as [[|e rest]|detail].
  - eexists _, _. split; [reflexivity|]. cbn. tauto.
  - destruct (collection_query B (calls w ++ [EvEmbedding query])
                (collection w) e n);
      eexists _, _; (split; [reflexivity|]); cbn;
      rewrite <- app_assoc; (split; [reflexivity|]);
      (split; [reflexivity|]); right; now exists e.
  - eexists _, _. split; [reflexivity|]. cbn. tauto.
Qed.

(** X7: [search_books] fails open.  When the embedding call raises, the
    result is the empty list and the index is not queried; when the query
    raises, the result is the empty list; otherwise there is one result per
    row the index returned, in the same order, with similarity
    [1 - distance].  Nothing is raised, and neither the collection nor the
    corpus changes. *)
Theorem search_fails_open (B : backend) (query : str) (n : nat) (w : world) :
  (forall detail,
     embeddings_create B (calls w) query = Raise detail ->
     search_books B query n w = (Ok [], log_call (EvEmbedding query) w))
  /\ (forall e rest detail,
        embeddings_create B (calls w) query = Ok (e :: rest) ->
        collection_query B (calls w ++ [EvEmbedding query]) (collection w) e n
        = Raise detail ->
        search_books B query n w
        = (Ok [], log_call (EvQuery e n) (log_call (EvEmbedding query) w)))
  /\ (forall e rest rows,
        embeddings_create B (calls w) query = Ok (e :: rest) ->
        collection_query B (calls w ++ [EvEmbedding query]) (collection w) e n
        = Ok rows ->
        search_books B query n w
        = (Ok (map hit_of_row rows),
           log_call (EvQuery e n) (log_call (EvEmbedding query) w))
        /\ map title (map hit_of_row rows) = map row_title rows
        /\ map similarity_score (map hit_of_row rows)
           = map (fun row => PrimFloat.sub 1%float (row_distance row)) rows)
  /\ (exists hits w',
        search_books B query n w = (Ok hits, w')
        /\ collection w' = collection w /\ corpus w' = corpus w
        /\ (calls w' = calls w ++ [EvEmbedding query]
            \/ exists e, calls w' = calls w ++ [EvEmbedding query; EvQuery e n])).
Proof.
  split; [|split; [|split]].
  - intros detail H. now rewrite search_books_run, H.
  - intros e rest detail He Hq. now rewrite search_books_run, He, Hq.
  - intros e rest rows He Hq. rewrite search_books_run, He, Hq.
    split; [reflexivity|]. rewrite !map_map. split; reflexivity.
  - apply search_books_frame.
Qed.

Lemma search_fails_open_witness :
  let B := Samples.sample_backend Samples.calm
             (fun _ => Samples.connection_error)
             (fun _ _ => Samples.connection_error) in
  let w := Samples.fresh_world Absent in
  search_books B (lit "sea stories") 3 w
  = (Ok [], log_call (EvEmbedding (lit "sea stories")) w).
Proof.
  intros B w.
  apply (proj1 (search_fails_open B (lit "sea stories") 3 w)
           (lit "Connection error.")).
  reflexivity.
Defined.

End IndexFacts.

(* ================================================================== *)
(** * The endpoints *)
(* ================================================================== *)

Module ApiFacts.
Import BookSummaries VectorStore Administration Api.

Lemma initialize_run (B : backend) (w : world) :
  ChatService.initialize_database B w
  = populate_database B (books_file (corpus w)) w.
Proof. reflexivity. Qed.

(** X8: [reinitialize_database] drops the index and fills it again from the
    corpus file.  With an embedding service that answers, it returns the
    success message, the index then holds exactly the documents of the
    current file, whatever it held before, and [document_count] is their
    number.  When the first embedding call raises, the answer is a 500
    carrying the error text and the index is left empty. *)
Theorem reinitialize_replaces_index (B : backend) (w : world) :
  let entries :=
    load_book_summaries_for_vectorization (books_file (corpus w)) in
  ((forall h text, exists e rest, embeddings_create B h text = Ok (e :: rest)) ->
   exists embeddings info w',
     reinitialize_database B w
     = (Http200 (lit "Database reinitialized successfully", info), w')
     /\ length embeddings = length entries
     /\ collection w' = documents_from 0 embeddings entries
     /\ document_count info = length entries)
  /\ (forall entry rest detail,
        entries = entry :: rest ->
        embeddings_create B (calls w) (entry_content entry) = Raise detail ->
        exists w',
          reinitialize_database B w
          = (HttpError 500 (lit "Error reinitializing database: " ++ detail),
             w')
          /\ collection w' = []).
Proof.
  intros entries. split.
  - intros Hembed.
    destruct (IndexFacts.populate_empty_run B (set_collection [] w)
                (books_file (corpus w)) eq_refl Hembed)
      as (embeddings & w' & Hrun & Hlen & Hcoll & _).
    assert (Hcount : length (collection w') = length entries).
    { rewrite Hcoll.
      now apply (IndexFacts.documents_from_shape _ embeddings 0). }
    exists embeddings. eexists _, w'.
    unfold reinitialize_database, guarded, bind at 1, reset_database,
      bind at 1, get, put.
    unfold bind at 1. rewrite initialize_run. cbn [set_collection corpus].
    rewrite Hrun. unfold bind, get_database_info, get_collection_info, bind,
      get, ret.
    split; [reflexivity|]. cbn [document_count]. now repeat split.
  - intros entry rest detail Hentries Hfail.
    eexists.
    unfold reinitialize_database, guarded, bind at 1, reset_database,
      bind at 1, get, put.
    unfold bind at 1. rewrite initialize_run. cbn [set_collection corpus].
    rewrite (IndexFacts.populate_first_failure B (set_collection [] w)
               (books_file (corpus w)) entry rest detail eq_refl Hentries
               Hfail).
    split; reflexivity.
Qed.

Lemma reinitialize_replaces_index_witness :
  let f := Text (corpus_text [] Samples.two_books) in
  let stale :=
    {| doc_id := lit "book_0"; doc_embedding := [];
       doc_title := lit "Removed"; doc_summary := []; doc_text := [] |} in
  let w := set_collection [stale] (Samples.fresh_world f) in
  (exists info w',
     reinitialize_database
       (Samples.sample_backend Samples.calm Samples.unit_embedding
          (fun _ _ => Samples.connection_error)) w
     = (Http200 (lit "Database reinitialized successfully", info), w')
     /\ document_count info = 2)
  /\ (exists w',
        reinitialize_database
          (Samples.sample_backend Samples.calm
             (fun _ => Samples.connection_error)
             (fun _ _ => Samples.connection_error)) w
        = (HttpError 500
             (lit "Error reinitializing database: Connection error."), w')
        /\ collection w' = []).
Proof.
  intros f stale w. split.
  - destruct (proj1 (reinitialize_replaces_index
                       (Samples.sample_backend Samples.calm
                          Samples.unit_embedding
                          (fun _ _ => Samples.connection_error)) w))
      as (embeddings & info & w' & Hrun & _ & _ & Hcount).
    + intros h text. now exists [1%float; 0%float], [].
    + exists info, w'. split; [exact Hrun | exact Hcount].
  - eapply (proj2 (reinitialize_replaces_index
                     (Samples.sample_backend Samples.calm
                        (fun _ => Samples.connection_error)
                        (fun _ _ => Samples.connection_error)) w));
      reflexivity.
Defined.

(** X9: [startup_event] never raises: when populating fails, the failure
    is swallowed and the index is as it was. *)
Theorem startup_survives (B : backend) (w : world) :
  (exists w', startup_event B w = (Ok tt, w'))
  /\ forall detail w1,
       populate_database B (books_file (corpus w)) w = (Raise detail, w1) ->
       startup_event B w = (Ok tt, w1) /\ collection w1 = collection w.
Proof.
  assert (Hrun : startup_event B w
                 = (Ok tt, snd (populate_database B (books_file (corpus w)) w))).
  { unfold startup_event, try_except, bind, get_database_info,
      get_collection_info, bind, get, ret.
    rewrite initialize_run.
    now destruct (populate_database B (books_file (corpus w)) w)
      as [[[]|detail] w1]. }
  rewrite Hrun. split; [eauto|].
  intros detail w1 Hfail. rewrite Hfail. split; [reflexivity|].
  now apply (IndexFacts.populate_raise_frame B w w1
               (books_file (corpus w)) detail).
Qed.

Lemma startup_survives_witness :
  let B := Samples.sample_backend Samples.calm
             (fun _ => Samples.connection_error)
             (fun _ _ => Samples.connection_error) in
  let w := Samples.fresh_world (Text (corpus_text [] Samples.two_books)) in
  exists w1, startup_event B w = (Ok tt, w1) /\ collection w1 = [].
Proof.
  intros B w. eexists.
  apply (proj2 (startup_survives B w) (lit "Connection error.")).
  reflexivity.
Defined.

(** X10: [get_book_summary] answers 404 for every title that is not in the
    corpus, with the not-found message as detail, and 200 with the stored
    summary for a title that is; except that a stored summary which holds
    the text "Sorry, I don't have" is answered with 404 as well.  It never
    answers 500. *)
Theorem book_endpoint_status (title : str) (w : world) :
  exists books st',
    _load_books_from_file (corpus w) = (Ok books, st')
    /\ (dict_get title books = None ->
        get_book_summary title w
        = (HttpError 404 (not_found_message title books), set_corpus st' w))
    /\ (forall summary,
          dict_get title books = Some summary ->
          get_book_summary title w
          = (if contains (lit "Sorry, I don't have") summary
             then HttpError 404 summary
             else Http200 (title, summary), set_corpus st' w))
    /\ forall detail w', get_book_summary title w <> (HttpError 500 detail, w').
Proof.
  destruct (BookSummariesFacts.load_total (corpus w))
    as (books & st' & Hload & _).
  exists books, st'. split; [exact Hload|].
  pose proof (BookSummariesFacts.lookup_run _ _ _ title Hload) as Hget.
  unfold get_book_summary, on_corpus. rewrite Hget.
  assert (Hphrase : contains (lit "Sorry, I don't have")
                      (not_found_message title books) = true).
  { apply PyStrFacts.contains_iff. exists []. eexists. reflexivity. }
  split; [|split].
  - intros Hmiss. rewrite Hmiss. now rewrite Hphrase.
  - intros summary Hhit. rewrite Hhit.
    now destruct (contains (lit "Sorry, I don't have") summary).
  - intros detail w'.
    destruct (dict_get title books) as [summary|].
    + destruct (contains (lit "Sorry, I don't have") summary); discriminate.
    + rewrite Hphrase. discriminate.
Qed.

Lemma book_endpoint_status_witness :
  let apology :=
    Samples.section (lit "Regrets")
      (lit "Sorry, I don't have the words, says the narrator.") in
  let w := Samples.fresh_world (Text (corpus_text [] [apology])) in
  fst (get_book_summary (lit "Regrets") w)
  = HttpError 404 (lit "Sorry, I don't have the words, says the narrator.")
  /\ fst (get_book_summary (lit "Walden") w)
     = HttpError 404
         (lit "Sorry, I don't have a detailed summary for 'Walden'. Please check the title spelling or ask for a different book. Available books include: Regrets...").
Proof.
  intros apology w.
  destruct (book_endpoint_status (lit "Regrets") w)
    as (books & st' & Hload & _ & Hhit & _).
  destruct (book_endpoint_status (lit "Walden") w)
    as (books2 & st2 & Hload2 & Hmiss & _).
  assert (Hb : books = parse (corpus_text [] [apology]) [])
    by (vm_compute in Hload; now injection Hload as <- _).
  assert (Hb2 : books2 = parse (corpus_text [] [apology]) [])
    by (vm_compute in Hload2; now injection Hload2 as <- _).
  subst books books2. split.
  - rewrite (Hhit (lit "Sorry, I don't have the words, says the narrator.")
               eq_refl). reflexivity.
  - rewrite (Hmiss eq_refl). reflexivity.
Defined.

End ApiFacts.

(* ================================================================== *)
(** * Every run of the pipeline *)
(* ================================================================== *)

Module PipelineFacts.
Import BookSummaries FilterService VectorStore ChatService Administration.
Import ChatServiceFacts.

Lemma moderation_run (B : backend) (text : str) (w : world) :
  contains_inappropriate_content B text w
  = (Ok match moderations_create B (calls w) text with
        | Ok (flagged :: _) => flagged
        | _ => false
        end, log_call (EvModeration text) w).
Proof.
  unfold contains_inappropriate_content, try_except, bind, call, first_item.
  destruct (moderations_create B (calls w) text) as [[|b more]|detail];
    reflexivity.
Qed.

Lemma blocks_fold (B : backend) (hits : list hit) (context : str) :
  fold_left (fun context result => context ++ hit_block B result) hits context
  = context ++ concat (map (hit_block B) hits).
Proof.
  revert context. induction hits as [|h hits IH]; intros context; cbn.
  - now rewrite app_nil_r.
  - rewrite IH. now rewrite <- app_assoc.
Qed.

Lemma context_run (B : backend) (query : str) (n : nat) (w w' : world)
    (hits : list hit) :
  search_books B query n w = (Ok hits, w') ->
  _search_books_for_context B query n w
  = (Ok match hits with
        | [] => lit "No relevant books found in the database."
        | _ :: _ => context_header ++ concat (map (hit_block B) hits)
        end, w').
Proof.
  intros Hrun. unfold _search_books_for_context, bind. rewrite Hrun.
  destruct hits as [|h hits]; [reflexivity|].
  unfold ret. f_equal. f_equal.
  exact (blocks_fold B (h :: hits) context_header).
Qed.

(** X11: the context text of a request lists every search result, in the
    order the index returned them, each as the three lines title, summary
    and score, behind the heading; with no result, and so whenever the
    search failed, it is the sentence "No relevant books found in the
    database."  It is built without raising. *)
Theorem context_lists_hits (B : backend) (query : str) (n : nat) (w : world) :
  exists hits w',
    search_books B query n w = (Ok hits, w')
    /\ _search_books_for_context B query n w
       = (Ok match hits with
             | [] => lit "No relevant books found in the database."
             | _ :: _ => context_header ++ concat (map (hit_block B) hits)
             end, w')
    /\ (forall detail,
          embeddings_create B (calls w) query = Raise detail ->
          hits = []).
Proof.
  destruct (IndexFacts.search_books_frame B query n w)
    as (hits & w' & Hrun & _).
  exists hits, w'. split; [exact Hrun|]. split.
  - now apply context_run.
  - intros detail Hfail.
    rewrite IndexFacts.search_books_run, Hfail in Hrun.
    now injection Hrun as <- _.
Qed.

Lemma last_six_length {A} (l : list A) :
  length (last_six l) = Nat.min 6 (length l).
Proof. unfold last_six. rewrite length_skipn. lia. Qed.

(** X12: of the conversation history only the last six turns reach the
    model, in their order; the messages of the first completion call are
    the system prompt, those turns and one user turn, at most eight in
    all. *)
Theorem history_window (history : option (list Services.message))
    (user_message search_context : str) :
  let kept := last_six (turns history) in
  build_messages history user_message search_context
  = [Turn (lit "system") system_prompt] ++ kept
    ++ [Turn (lit "user")
             (user_message_with_context user_message search_context)]
  /\ length kept = Nat.min 6 (length (turns history))
  /\ (exists dropped, turns history = dropped ++ kept)
  /\ length (build_messages history user_message search_context) <= 8.
Proof.
  intros kept.
  assert (Hbuild : build_messages history user_message search_context
                   = [Turn (lit "system") system_prompt] ++ kept
                     ++ [Turn (lit "user")
                              (user_message_with_context user_message
                                 search_context)]).
  { unfold build_messages, kept. now destruct history as [[|m l]|]. }
  assert (Hlen : length kept = Nat.min 6 (length (turns history)))
    by apply last_six_length.
  split; [exact Hbuild|]. split; [exact Hlen|]. split.
  - exists (firstn (length (turns history) - 6) (turns history)).
    symmetry. apply firstn_skipn.
  - rewrite Hbuild, !length_app, Hlen. cbn [length]. lia.
Qed.

Lemma chat_completion_run (B : backend) (messages : list Services.message)
    (with_tools : bool) (w : world) :
  chat_completion B messages with_tools w
  = (match chat_completions_create B (calls w) messages with_tools with
     | Ok (reply :: _) => Ok reply
     | Ok [] => Raise (lit "list index out of range")
     | Raise detail => Raise detail
     end, log_call (EvChat messages with_tools) w).
Proof.
  unfold chat_completion, bind, call, first_item.
  destruct (chat_completions_create B (calls w) messages with_tools)
    as [[|reply rest]|detail]; reflexivity.
Qed.

(** ** What the tool loop leaves alone *)

Lemma execute_keeps_file (name : str) (arguments : pyval) (st st' : store)
    (r : result str) :
  _execute_function_call name arguments st = (r, st') ->
  books_file st' = books_file st.
Proof.
  unfold _execute_function_call.
  destruct (str_eqb name tool_name); [|intros [= _ <-]; reflexivity].
  unfold bind, lift_result.
  destruct (arguments_get_title arguments) as [title|detail];
    [|intros [= _ <-]; reflexivity].
  destruct (BookSummariesFacts.load_total st) as (books & st1 & Hload & _ & _ & Hf).
  destruct title; cbn [get_summary_by_title_value];
    try (unfold bind; rewrite Hload; unfold ret, raise;
         intros [= _ <-]; exact Hf).
  rewrite (BookSummariesFacts.lookup_run _ _ _ _ Hload).
  intros [= _ <-]. exact Hf.
Qed.

Lemma run_tool_call_frame (B : backend) (tc : tool_call) (w w' : world)
    (r : result function_call) :
  run_tool_call B tc w = (r, w') ->
  calls w' = calls w /\ collection w' = collection w
  /\ books_file (corpus w') = books_file (corpus w).
Proof.
  unfold run_tool_call, bind at 1, lift_result.
  destruct (json_loads B (tc_arguments tc)) as [arguments|detail];
    [|intros [= _ <-]; auto].
  unfold bind, on_corpus.
  destruct (_execute_function_call (tc_name tc) arguments (corpus w))
    as [[answer|detail] st'] eqn:E;
    apply execute_keeps_file in E; intros [= _ <-]; cbn; auto.
Qed.

Lemma process_tool_calls_frame (B : backend) (tcs : list tool_call)
    (messages : list Services.message) (function_calls : list function_call)
    (w w' : world)
    (r : result (list Services.message * list function_call)) :
  process_tool_calls B tcs messages function_calls w = (r, w') ->
  calls w' = calls w /\ collection w' = collection w
  /\ books_file (corpus w') = books_file (corpus w).
Proof.
  revert messages function_calls w.
  induction tcs as [|tc tcs IH]; intros messages function_calls w.
  - intros [= _ <-]. auto.
  - cbn [process_tool_calls]. unfold bind at 1.
    destruct (run_tool_call B tc w) as [[record|detail] w1] eqn:E;
      apply run_tool_call_frame in E as (Hc & Hi & Hf).
    + intros H. apply IH in H as (Hc' & Hi' & Hf').
      rewrite Hc', Hi', Hf'. auto.
    + intros [= _ <-]. auto.
Qed.

Lemma search_run_frame (B : backend) (query : str) (n : nat) (w w' : world)
    (r : result (list hit)) :
  search_books B query n w = (r, w') ->
  (exists hits, r = Ok hits)
  /\ collection w' = collection w /\ corpus w' = corpus w
  /\ exists s, calls w' = calls w ++ s /\ search_trace query n s.
Proof.
  intros Hrun.
  destruct (IndexFacts.search_books_frame B query n w)
    as (hits & w0 & H0 & Hcoll & Hcorp & Hcalls).
  rewrite H0 in Hrun. injection Hrun as <- <-.
  split; [eauto|]. split; [exact Hcoll|]. split; [exact Hcorp|].
  destruct Hcalls as [Hc|[e Hc]]; eexists; (split; [exact Hc|]).
  - now left.
  - right. now exists e.
Qed.

Lemma context_run_frame (B : backend) (query : str) (n : nat) (w w' : world)
    (r : result str) :
  _search_books_for_context B query n w = (r, w') ->
  (exists context, r = Ok context)
  /\ collection w' = collection w /\ corpus w' = corpus w
  /\ exists s, calls w' = calls w ++ s /\ search_trace query n s.
Proof.
  intros Hrun.
  destruct (IndexFacts.search_books_frame B query n w)
    as (hits & w0 & Hs & _).
  rewrite (context_run _ _ _ _ _ _ Hs) in Hrun. injection Hrun as <- <-.
  destruct (search_run_frame B query n w w0 _ Hs) as (_ & H).
  split; [eauto | exact H].
Qed.

(** Every run of the [try] block of [chat]. *)
Lemma chat_try_run (B : backend) (user_message : str)
    (history : option (list Services.message)) (w w' : world)
    (r : result chat_response) :
  chat_try B user_message history w = (r, w') ->
  let verdict :=
    match moderations_create B (calls w) user_message with
    | Ok (flagged :: _) => flagged
    | _ => false
    end in
  exists new,
    calls w' = calls w ++ EvModeration user_message :: new
    /\ collection w' = collection w
    /\ books_file (corpus w') = books_file (corpus w)
    /\ chat_trace verdict user_message new
    /\ match r with
       | Ok response =>
           success response = true /\ error response = None
           /\ filtered response = verdict
           /\ (verdict = true ->
               function_calls response = []
               /\ search_results response = []
               /\ exists reply, message response = Some reply
                                /\ In reply polite_responses)
       | Raise _ => verdict = false
       end.
Proof.
  intros E verdict.
  unfold chat_try, bind at 1, filter_message, bind at 1 in E.
  rewrite moderation_run in E. fold verdict in E.
  destruct verdict eqn:Hv.
  - (* flagged *)
    cbn in E. injection E as <- <-. exists [EvRandom 5].
    cbn. rewrite <- app_assoc. repeat split; trivial.
    eexists. split; [reflexivity|]. apply polite_response_drawn.
  - (* not flagged *)
    unfold ret at 1 in E. cbn [negb] in E.
    set (w1 := log_call (EvModeration user_message) w) in *.
    unfold bind at 1 in E.
    destruct (_search_books_for_context B user_message 3 w1)
      as [r1 w2] eqn:E1.
    destruct (context_run_frame _ _ _ _ _ _ E1)
      as ([search_context ->] & Hi1 & Hc1 & s1 & Hs1 & Ht1).
    unfold bind at 1 in E.
    destruct (search_books B user_message 3 w2) as [r2 w3] eqn:E2.
    destruct (search_run_frame _ _ _ _ _ _ E2)
      as ([hits ->] & Hi2 & Hc2 & s2 & Hs2 & Ht2).
    assert (Hcalls3 : calls w3
                      = calls w ++ EvModeration user_message :: s1 ++ s2).
    { rewrite Hs2, Hs1. subst w1. cbn. now rewrite <- !app_assoc. }
    assert (Hcoll3 : collection w3 = collection w) by now rewrite Hi2, Hi1.
    assert (Hfile3 : books_file (corpus w3) = books_file (corpus w))
      by now rewrite Hc2, Hc1.
    clear E1 E2 Hs1 Hs2 Hi1 Hi2 Hc1 Hc2.
    set (messages := build_messages history user_message search_context) in *.
    unfold bind at 1 in E. rewrite chat_completion_run in E.
    set (w4 := log_call (EvChat messages true) w3) in *.
    assert (Hcalls4 : calls w4
                      = calls w ++ EvModeration user_message
                          :: s1 ++ s2 ++ [EvChat messages true]).
    { subst w4. cbn. rewrite Hcalls3. rewrite <- !app_assoc. cbn.
      now rewrite <- !app_assoc. }
    assert (Hone : chat_trace false user_message
                     (s1 ++ s2 ++ [EvChat messages true])).
    { exists s1, s2, [EvChat messages true]. repeat split; trivial.
      exists messages. now left. }
    destruct (chat_completions_create B (calls w3) messages true)
      as [[|reply rest]|detail].
    + injection E as <- <-. eexists. split; [exact Hcalls4|].
      repeat split; trivial.
    + destruct (am_tool_calls reply) as [|tc tcs] eqn:Etc.
      * unfold bind, ret in E. injection E as <- <-.
        eexists. split; [exact Hcalls4|].
        repeat split; trivial; discriminate.
      * unfold bind at 1, bind at 1 in E.
        destruct (process_tool_calls B (tc :: tcs)
                    (messages ++ [AssistantToolCalls (am_content reply)
                                                     (tc :: tcs)]) [] w4)
          as [[[messages' function_calls]|detail] w5] eqn:Ep;
          apply process_tool_calls_frame in Ep as (Hc5 & Hi5 & Hf5).
        -- unfold bind at 1 in E. rewrite chat_completion_run in E.
           assert (Htwo : calls (log_call (EvChat messages' false) w5)
                          = calls w ++ EvModeration user_message
                              :: s1 ++ s2
                                 ++ [EvChat messages true;
                                     EvChat messages' false]).
           { cbn. rewrite Hc5, Hcalls4. rewrite <- !app_assoc. cbn.
             now rewrite <- !app_assoc. }
           assert (Hshape : chat_trace false user_message
                              (s1 ++ s2
                               ++ [EvChat messages true;
                                   EvChat messages' false])).
           { exists s1, s2, [EvChat messages true; EvChat messages' false].
             repeat split; trivial. exists messages. right.
             now exists messages'. }
           destruct (chat_completions_create B (calls w5) messages' false)
             as [[|final rest']|detail];
             unfold bind, ret in E; injection E as <- <-;
             (eexists; split; [exact Htwo|]);
             cbn [log_call collection corpus];
             rewrite Hi5, Hf5; repeat split; trivial; discriminate.
        -- injection E as <- <-. eexists. rewrite Hc5, Hi5, Hf5.
           split; [exact Hcalls4|]. repeat split; trivial.
    + injection E as <- <-. eexists. split; [exact Hcalls4|].
      repeat split; trivial.
Qed.

Lemma chat_state (B : backend) (user_message : str)
    (history : option (list Services.message)) (w : world) :
  snd (chat B user_message history w)
  = snd (chat_try B user_message history w).
Proof.
  unfold chat, try_except.
  now destruct (chat_try B user_message history w) as [[r|detail] w'].
Qed.

(** X13: what one request costs and what it leaves alone.  Every call of
    [chat] makes exactly one moderation call, first; after it at most two
    embedding calls, at most two chat-completion calls and at most six calls
    in all.  It never changes the index and never writes the corpus file. *)
Theorem request_budget (B : backend) (user_message : str)
    (history : option (list Services.message)) (w : world) :
  let w' := snd (chat B user_message history w) in
  exists new,
    calls w' = calls w ++ EvModeration user_message :: new
    /\ collection w' = collection w
    /\ books_file (corpus w') = books_file (corpus w)
    /\ forallb (fun ev => negb (is_moderation_call ev)) new = true
    /\ length (filter is_embedding_call new) <= 2
    /\ length (filter is_chat_call new) <= 2
    /\ length new <= 6.
Proof.
  intros w'. subst w'. rewrite chat_state.
  destruct (chat_try B user_message history w) as [r w'] eqn:E.
  destruct (chat_try_run _ _ _ _ _ _ E) as (new & Hcalls & Hcoll & Hfile & Ht & _).
  exists new. cbn [snd]. split; [exact Hcalls|]. split; [exact Hcoll|].
  split; [exact Hfile|]. clear E Hcalls Hcoll Hfile.
  destruct (match moderations_create B (calls w) user_message with
            | Ok (flagged :: _) => flagged
            | _ => false
            end).
  - cbn in Ht. subst new. cbn. repeat split; lia.
  - destruct Ht as (s1 & s2 & c & -> & [->|[e1 ->]] & [->|[e2 ->]]
                    & (m1 & [->|[m2 ->]]));
      cbn; repeat split; lia.
Qed.

(** X14: the shape of every response.  [chat] always returns a record; it
    is marked [filtered] exactly when the moderation verdict was [True], so
    never when the moderation call failed; [error] is present exactly when
    [success] is [False], and then the message is the apology for that
    error and both lists are empty; a filtered response is a success with
    both lists empty and one of the polite responses as message. *)
Theorem response_shape (B : backend) (user_message : str)
    (history : option (list Services.message)) (w : world) :
  exists response w',
    chat B user_message history w = (Ok response, w')
    /\ fst (contains_inappropriate_content B user_message w)
       = Ok (filtered response)
    /\ (forall detail,
          moderations_create B (calls w) user_message = Raise detail ->
          filtered response = false)
    /\ (success response = true <-> error response = None)
    /\ (success response = false ->
        filtered response = false
        /\ function_calls response = [] /\ search_results response = []
        /\ exists detail,
             error response = Some detail
             /\ message response = Some (error_message detail))
    /\ (filtered response = true ->
        success response = true
        /\ function_calls response = [] /\ search_results response = []
        /\ exists reply,
             message response = Some reply /\ In reply polite_responses).
Proof.
  rewrite moderation_run. cbn [fst].
  unfold chat, try_except.
  destruct (chat_try B user_message history w) as [r w'] eqn:E.
  destruct (chat_try_run _ _ _ _ _ _ E) as (new & _ & _ & _ & _ & Hr).
  destruct r as [response|detail].
  - destruct Hr as (Hs & He & Hf & Hflag).
    exists response, w'. split; [reflexivity|]. split; [now rewrite Hf|].
    split; [intros detail Hd; now rewrite Hf, Hd|].
    split; [now rewrite Hs, He|]. split; [congruence|].
    intros Htrue. rewrite Hf in Htrue. split; [exact Hs|]. now apply Hflag.
  - eexists _, w'. unfold ret. split; [reflexivity|]. cbn.
    split; [now rewrite Hr|]. split; [reflexivity|].
    split; [split; discriminate|]. split; [|discriminate].
    intros _. repeat split. now exists detail.
Qed.

(** X15: when the model answers the first completion call without a tool
    call, its text is the answer: [chat] returns it with no function call
    and with the titles and similarities of the second search, makes no
    second completion call and does not touch the corpus store. *)
Theorem direct_answer (B : backend) (w w1 w2 w3 : world)
    (user_message search_context : str)
    (history : option (list Services.message)) (hits : list hit)
    (reply : ai_message) (others : list ai_message) :
  contains_inappropriate_content B user_message w = (Ok false, w1) ->
  _search_books_for_context B user_message 3 w1 = (Ok search_context, w2) ->
  search_books B user_message 3 w2 = (Ok hits, w3) ->
  let messages := build_messages history user_message search_context in
  chat_completions_create B (calls w3) messages true = Ok (reply :: others) ->
  am_tool_calls reply = [] ->
  let w' := log_call (EvChat messages true) w3 in
  chat B user_message history w
  = (Ok {| success := true; message := am_content reply; filtered := false;
           function_calls := [];
           search_results :=
             map (fun r => (title r, similarity_score r)) hits;
           error := None |}, w')
  /\ corpus w' = corpus w
  /\ length (filter is_chat_call (skipn (length (calls w)) (calls w'))) = 1.
Proof.
  intros Hclean Hctx Hhits messages Hfirst Hnone w'.
  assert (Hrun : chat_try B user_message history w
                 = (Ok {| success := true; message := am_content reply;
                          filtered := false; function_calls := [];
                          search_results :=
                            map (fun r => (title r, similarity_score r)) hits;
                          error := None |}, w')).
  { unfold chat_try, bind at 1.
    rewrite (filter_message_clean _ _ _ _ Hclean). cbn [negb].
    unfold bind at 1. rewrite Hctx. unfold bind at 1. rewrite Hhits.
    fold messages. unfold bind at 1. rewrite chat_completion_run, Hfirst.
    rewrite Hnone. reflexivity. }
  split; [unfold chat, try_except; now rewrite Hrun|].
  pose proof (moderation_run B user_message w) as Hm.
  rewrite Hclean in Hm. injection Hm as _ ->.
  destruct (context_run_frame _ _ _ _ _ _ Hctx)
    as (_ & _ & Hc1 & s1 & Hs1 & Ht1).
  destruct (search_run_frame _ _ _ _ _ _ Hhits)
    as (_ & _ & Hc2 & s2 & Hs2 & Ht2).
  split; [subst w'; cbn; now rewrite Hc2, Hc1|].
  subst w'. cbn [log_call calls]. rewrite Hs2, Hs1. cbn [log_call calls].
  rewrite <- !app_assoc, PyStrFacts.skipn_exact.
  destruct Ht1 as [->|[e1 ->]], Ht2 as [->|[e2 ->]]; reflexivity.
Qed.

Lemma direct_answer_witness :
  let B := Samples.sample_backend Samples.calm Samples.unit_embedding
             (fun _ _ => Ok [{| am_content := Some (lit "Try Dune.");
                                am_tool_calls := [] |}]) in
  let w := Samples.fresh_world Absent in
  exists w',
    chat B (lit "A desert story?") None w
    = (Ok {| success := true; message := Some (lit "Try Dune.");
             filtered := false; function_calls := []; search_results := [];
             error := None |}, w')
    /\ corpus w' = corpus w.
Proof.
  intros B w.
  set (user_message := lit "A desert story?").
  set (w1 := log_call (EvModeration user_message) w).
  set (w2 := snd (_search_books_for_context B user_message 3 w1)).
  set (w3 := snd (search_books B user_message 3 w2)).
  destruct (direct_answer B w w1 w2 w3 user_message
              (lit "No relevant books found in the database.") None []
              {| am_content := Some (lit "Try Dune."); am_tool_calls := [] |}
              [] eq_refl eq_refl eq_refl eq_refl eq_refl)
    as (Hrun & Hcorpus & _).
  eexists. split; [exact Hrun | exact Hcorpus].
Defined.

(** ** A tool call that raises *)

Lemma tool_runs_frame (B : backend) (tcs : list tool_call) (w w' : world)
    (records : list function_call) :
  tool_runs B tcs w records w' ->
  calls w' = calls w /\ collection w' = collection w
  /\ books_file (corpus w') = books_file (corpus w).
Proof.
  induction 1 as [w|tc rest w wa wb record records Hrun _ IH]; [auto|].
  apply run_tool_call_frame in Hrun as (Hc & Hi & Hf).
  destruct IH as (Hc' & Hi' & Hf'). rewrite Hc', Hi', Hf'. auto.
Qed.

Lemma process_tool_calls_raises (B : backend) (before after : list tool_call)
    (tc : tool_call) (w w4 w5 : world) (records : list function_call)
    (detail : str) (messages : list Services.message)
    (function_calls : list function_call) :
  tool_runs B before w records w4 ->
  run_tool_call B tc w4 = (Raise detail, w5) ->
  process_tool_calls B (before ++ tc :: after) messages function_calls w
  = (Raise detail, w5).
Proof.
  intros Hruns Hfail. revert messages function_calls.
  induction Hruns as [w|tc' rest w wa wb record records Hrun _ IH];
    intros messages function_calls.
  - cbn [app process_tool_calls]. unfold bind. now rewrite Hfail.
  - cbn [app process_tool_calls]. unfold bind at 1. rewrite Hrun.
    now apply IH.
Qed.

Lemma run_tool_call_raises (B : backend) (tc : tool_call) (w : world)
    (detail : str) :
  json_loads B (tc_arguments tc) = Raise detail
  \/ (tc_name tc = tool_name
      /\ exists arguments,
           json_loads B (tc_arguments tc) = Ok arguments
           /\ (forall items, arguments <> PDict items)
           /\ detail = lit "'" ++ type_name arguments
                       ++ lit "' object has no attribute 'get'") ->
  run_tool_call B tc w = (Raise detail, w).
Proof.
  unfold run_tool_call, bind at 1, lift_result.
  intros [Hbad | (Hname & arguments & Hargs & Hshape & ->)].
  - now rewrite Hbad.
  - rewrite Hargs. unfold bind, on_corpus, _execute_function_call.
    rewrite Hname, PyStrFacts.str_eqb_refl. unfold bind, lift_result.
    destruct arguments; cbn [arguments_get_title];
      try (now rewrite set_corpus_same).
    now destruct (Hshape items).
Qed.

(** X16: a tool call that raises fails the whole request.  When the
    arguments of one tool call are no JSON text, or those of a
    "get_summary_by_title" call decode to something that is no object,
    [chat] returns the failure record for that error: the calls recorded
    before it are dropped from the response, and no second completion call
    is made. *)
Theorem failing_tool_call_fails_request (B : backend) (w w1 w2 w3 w4 : world)
    (user_message search_context detail : str)
    (history : option (list Services.message)) (hits : list hit)
    (reply : ai_message) (others : list ai_message)
    (before after : list tool_call) (tc : tool_call)
    (records_before : list function_call) :
  contains_inappropriate_content B user_message w = (Ok false, w1) ->
  _search_books_for_context B user_message 3 w1 = (Ok search_context, w2) ->
  search_books B user_message 3 w2 = (Ok hits, w3) ->
  let messages := build_messages history user_message search_context in
  chat_completions_create B (calls w3) messages true = Ok (reply :: others) ->
  am_tool_calls reply = before ++ tc :: after ->
  tool_runs B before (log_call (EvChat messages true) w3) records_before w4 ->
  (json_loads B (tc_arguments tc) = Raise detail
   \/ (tc_name tc = tool_name
       /\ exists arguments,
            json_loads B (tc_arguments tc) = Ok arguments
            /\ (forall items, arguments <> PDict items)
            /\ detail = lit "'" ++ type_name arguments
                        ++ lit "' object has no attribute 'get'")) ->
  chat B user_message history w
  = (Ok {| success := false;
           message := Some (lit "I apologize, but I encountered an error: "
                            ++ detail ++ lit ". Please try again.");
           filtered := false; function_calls := []; search_results := [];
           error := Some detail |}, w4)
  /\ calls w4 = calls w3 ++ [EvChat messages true].
Proof.
  intros Hclean Hctx Hhits messages Hfirst Hcalls Hruns Hbad.
  split; [|now destruct (tool_runs_frame _ _ _ _ _ Hruns) as (-> & _)].
  enough (Hraise : chat_try B user_message history w = (Raise detail, w4))
    by (unfold chat, try_except; now rewrite Hraise).
  unfold chat_try, bind at 1.
  rewrite (filter_message_clean _ _ _ _ Hclean). cbn [negb].
  unfold bind at 1. rewrite Hctx. unfold bind at 1. rewrite Hhits.
  fold messages. unfold bind at 1. rewrite chat_completion_run, Hfirst.
  rewrite Hcalls.
  destruct (before ++ tc :: after) as [|tc0 tcs0] eqn:Elist;
    [now destruct before|].
  rewrite <- Elist. unfold bind at 1, bind at 1.
  now rewrite (process_tool_calls_raises B before after tc _ w4 w4
                 records_before detail _ _ Hruns
                 (run_tool_call_raises B tc w4 detail Hbad)).
Qed.

Lemma failing_tool_call_fails_request_witness :
  let first := {| tc_id := lit "call_a"; tc_name := lit "get_summary_by_title";
                  tc_arguments := Samples.title_1984_json |} in
  let second := {| tc_id := lit "call_b"; tc_name := lit "get_summary_by_title";
                   tc_arguments := lit "oops" |} in
  let B := Samples.sample_backend Samples.calm Samples.unit_embedding
             (fun _ _ => Ok [{| am_content := None;
                                am_tool_calls := [first; second] |}]) in
  let w := Samples.fresh_world
             (Text (corpus_text [] Samples.two_books)) in
  exists w',
    chat B (lit "Tell me about 1984.") None w
    = (Ok {| success := false;
             message := Some (lit "I apologize, but I encountered an error: Expecting value: line 1 column 1 (char 0). Please try again.");
             filtered := false; function_calls := []; search_results := [];
             error := Some (lit "Expecting value: line 1 column 1 (char 0)") |},
       w')
    /\ cache_loaded (corpus w') = true.
Proof.
  intros first second B w.
  set (user_message := lit "Tell me about 1984.").
  set (w1 := log_call (EvModeration user_message) w).
  set (w2 := snd (_search_books_for_context B user_message 3 w1)).
  set (w3 := snd (search_books B user_message 3 w2)).
  set (search_context := lit "No relevant books found in the database.").
  set (messages := build_messages None user_message search_context).
  set (w3' := log_call (EvChat messages true) w3).
  set (w4 := snd (run_tool_call B first w3')).
  assert (Hruns : tool_runs B [first] w3'
                    [{| fc_function := lit "get_summary_by_title";
                        fc_arguments :=
                          PDict [(lit "title", PStr (lit "1984"))];
                        fc_result :=
                          lit "A man rebels against total surveillance." |}]
                    w4).
  { econstructor; [|constructor]. reflexivity. }
  destruct (failing_tool_call_fails_request B w w1 w2 w3 w4 user_message
              search_context (lit "Expecting value: line 1 column 1 (char 0)")
              None []
              {| am_content := None; am_tool_calls := [first; second] |} []
              [first] [] second _ eq_refl eq_refl eq_refl eq_refl eq_refl
              Hruns (or_introl eq_refl))
    as [Hrun _].
  exists w4. split; [exact Hrun | reflexivity].
Defined.

(** ** Recognized tool calls *)

Lemma run_title_request (B : backend) (request : title_request) (w : world)
    (books : dict) (st' : store) :
  well_formed_request B request ->
  _load_books_from_file (corpus w) = (Ok books, st') ->
  run_tool_call B (fst request) w
  = (Ok (record_of books request), set_corpus st' w).
Proof.
  destruct request as [tc [items title]].
  intros (Hname & Hargs & key & Hfind) Hload. cbn [fst].
  unfold run_tool_call, bind at 1, lift_result. rewrite Hargs.
  unfold bind, on_corpus, _execute_function_call.
  rewrite Hname, PyStrFacts.str_eqb_refl.
  unfold bind, lift_result, arguments_get_title. rewrite Hfind.
  cbn [get_summary_by_title_value].
  rewrite (BookSummariesFacts.lookup_run _ _ _ _ Hload).
  reflexivity.
Qed.

Lemma title_requests_run (B : backend) (requests : list title_request)
    (w : world) (books : dict) (st' : store) :
  requests <> [] ->
  Forall (well_formed_request B) requests ->
  _load_books_from_file (corpus w) = (Ok books, st') ->
  tool_runs B (map fst requests) w (map (record_of books) requests)
            (set_corpus st' w).
Proof.
  intros Hne Hall Hload.
  destruct (BookSummariesFacts.load_total (corpus w))
    as (books0 & st0 & Hload0 & Hcache & Hloaded & _).
  rewrite Hload in Hload0. injection Hload0 as <- <-.
  assert (Hagain : _load_books_from_file st' = (Ok books, st')).
  { rewrite BookSummariesFacts.load_loaded by trivial. now rewrite Hcache. }
  destruct requests as [|request requests]; [congruence|].
  inversion Hall as [|? ? Hfirst Hrest]; subst.
  cbn [map].
  apply (runs_cons B _ _ w (set_corpus st' w) (set_corpus st' w));
    [now apply (run_title_request B request w _ st')|].
  clear Hne Hall Hfirst Hload.
  induction requests as [|r requests IH]; [constructor|].
  inversion Hrest as [|? ? Hr Hrest']; subst.
  cbn [map].
  apply (runs_cons B _ _ (set_corpus st' w) (set_corpus st' w)
           (set_corpus st' w)); [|now apply IH].
  now rewrite (run_title_request B r (set_corpus st' w) _ st' Hr Hagain).
Qed.

(** X17: when every tool call of the reply is a "get_summary_by_title" call
    whose arguments decode to an object holding a string under "title", and
    the second completion call returns, [chat] succeeds and its
    [function_calls] hold one record per call, in order; each result is the
    stored summary of exactly that title, or the not-found message for it,
    all read from the one corpus loaded at the first call, repeated titles
    included. *)
Theorem recognized_calls_answered (B : backend) (w w1 w2 w3 : world)
    (user_message search_context : str)
    (history : option (list Services.message)) (hits : list hit)
    (reply final : ai_message) (others others' : list ai_message)
    (requests : list title_request) (books : dict) (st' : store) :
  contains_inappropriate_content B user_message w = (Ok false, w1) ->
  _search_books_for_context B user_message 3 w1 = (Ok search_context, w2) ->
  search_books B user_message 3 w2 = (Ok hits, w3) ->
  let messages := build_messages history user_message search_context in
  chat_completions_create B (calls w3) messages true = Ok (reply :: others) ->
  am_tool_calls reply = map fst requests ->
  requests <> [] ->
  Forall (well_formed_request B) requests ->
  _load_books_from_file (corpus w) = (Ok books, st') ->
  let records := map (record_of books) requests in
  let messages' :=
    (messages
     ++ [AssistantToolCalls (am_content reply) (am_tool_calls reply)])
    ++ tool_messages (am_tool_calls reply) records in
  chat_completions_create B (calls w3 ++ [EvChat messages true]) messages'
    false
  = Ok (final :: others') ->
  exists w',
    chat B user_message history w
    = (Ok {| success := true; message := am_content final; filtered := false;
             function_calls := records;
             search_results :=
               map (fun r => (title r, similarity_score r)) hits;
             error := None |}, w')
    /\ length records = length (am_tool_calls reply)
    /\ corpus w' = st'.
Proof.
  intros Hclean Hctx Hhits messages Hfirst Hcalls Hne Hall Hload records
    messages' Hsecond.
  assert (Hcorpus : corpus w3 = corpus w).
  { pose proof (moderation_run B user_message w) as Hm.
    rewrite Hclean in Hm. injection Hm as _ ->.
    destruct (context_run_frame _ _ _ _ _ _ Hctx) as (_ & _ & Hc1 & _).
    destruct (search_run_frame _ _ _ _ _ _ Hhits) as (_ & _ & Hc2 & _).
    now rewrite Hc2, Hc1. }
  set (w4 := log_call (EvChat messages true) w3).
  assert (Hruns : tool_runs B (am_tool_calls reply) w4 records
                    (set_corpus st' w4)).
  { rewrite Hcalls. apply title_requests_run; trivial.
    subst w4. cbn [log_call corpus]. now rewrite Hcorpus. }
  eexists. split.
  - apply (chat_tool_path B w w1 w2 w3 (set_corpus st' w4) user_message
             search_context history hits reply final others others' records);
      trivial.
    rewrite Hcalls. now destruct requests.
  - split; [|reflexivity].
    unfold records. now rewrite Hcalls, !length_map.
Qed.

Lemma recognized_calls_answered_witness :
  let tc := {| tc_id := lit "call_a"; tc_name := lit "get_summary_by_title";
               tc_arguments := Samples.title_1984_json |} in
  let B := Samples.sample_backend Samples.calm Samples.unit_embedding
             (Samples.asking tc) in
  let w := Samples.fresh_world (Text (corpus_text [] Samples.two_books)) in
  exists w',
    chat B (lit "Something about surveillance?") None w
    = (Ok {| success := true;
             message := Some (lit "Here is what I found.");
             filtered := false;
             function_calls :=
               [{| fc_function := lit "get_summary_by_title";
                   fc_arguments := PDict [(lit "title", PStr (lit "1984"))];
                   fc_result :=
                     lit "A man rebels against total surveillance." |}];
             search_results := []; error := None |}, w').
Proof.
  intros tc B w.
  set (user_message := lit "Something about surveillance?").
  set (w1 := log_call (EvModeration user_message) w).
  set (w2 := snd (_search_books_for_context B user_message 3 w1)).
  set (w3 := snd (search_books B user_message 3 w2)).
  assert (Hreq : Forall (well_formed_request B)
                   [(tc, ([(lit "title", PStr (lit "1984"))], lit "1984"))]).
  { constructor; [|constructor]. split; [reflexivity|].
    split; [reflexivity|]. now exists (lit "title"). }
  assert (Hne : [(tc, ([(lit "title", PStr (lit "1984"))], lit "1984"))]
                <> ([] : list title_request)) by discriminate.
  destruct (recognized_calls_answered B w w1 w2 w3 user_message
              (lit "No relevant books found in the database.") None []
              {| am_content := None; am_tool_calls := [tc] |}
              {| am_content := Some (lit "Here is what I found.");
                 am_tool_calls := [] |} [] []
              [(tc, ([(lit "title", PStr (lit "1984"))], lit "1984"))]
              (parse (corpus_text [] Samples.two_books) [])
              (loaded (corpus_text [] Samples.two_books))
              eq_refl eq_refl eq_refl eq_refl eq_refl Hne Hreq eq_refl
              eq_refl)
    as (w' & Hrun & _).
  exists w'. exact Hrun.
Defined.

End PipelineFacts.
